(** * Core execution context, trace registry and hierarchical names of Lean 4

    A shallow embedding of
    - [src/util/name.h]            (module [Name]),
    - [src/library/trace.cpp]      (module [Trace]),
    - [stage0/stdlib/Lean/CoreM.c] (module [CoreM]),
    - [stage0/stdlib/Lean/Elab/SetOption.c] (module [SetOption]),
    - [src/stage0/init/lean/path.cpp] (module [Path]),
    together with the properties the specification states about them and
    further properties of the code (modules [NameOrder], [TraceScopes] and
    [CoreRun] continue the first three files).

    Conventions.  Lean [Nat] values are [nat]; the 32-bit cached hash of a
    name is an [N]; C [int] results are [Z].  Code that lives in other
    translation units ([name.cpp], the options API, the kernel, the compiler,
    the pretty printer, the Lean runtime) is a parameter: each group of such
    operations is a class, and the definitions and theorems hold for every
    instance.  The module [SpecModel] gives one instance of each class,
    written after the words of the specification, on which the definitions
    are run on concrete inputs. *)

From Stdlib Require Import ZArith NArith List String Ascii Bool Lia.
From stdpp Require Import base option list gmap sets strings countable.

Local Open Scope string_scope.

(* ===================================================================== *)
(** * Hierarchical names ([src/util/name.h])                              *)
(* ===================================================================== *)

Module Name.

(** [enum class name_kind { ANONYMOUS, STRING, NUMERAL }] *)
Inductive name_kind := ANONYMOUS | STRING | NUMERAL.

#[global] Instance name_kind_eq_dec : EqDecision name_kind.
Proof. solve_decision. Defined.

(** The run-time object behind a [name].  The anonymous name is the scalar
    [box(0)]; the two other kinds are constructor objects whose field 0 is
    the prefix, whose field 1 is the component and whose scalar area caches
    the hash (read back by [cnstr_scalar<unsigned>]). *)
Inductive name : Type :=
| anonymous
| mk_string (prefix : name) (s : string) (h : N)
| mk_numeral (prefix : name) (k : nat) (h : N).

#[global] Instance name_eq_dec : EqDecision name.
Proof. solve_decision. Defined.

(** [static name_kind kind(object)] *)
Definition kind (o : name) : name_kind :=
  match o with
  | anonymous => ANONYMOUS
  | mk_string _ _ _ => STRING
  | mk_numeral _ _ _ => NUMERAL
  end.

(** [is_scalar(o)]: only the anonymous name is an unboxed scalar. *)
Definition is_scalar (o : name) : bool :=
  match o with anonymous => true | _ => false end.

Definition is_anonymous (n : name) : bool := bool_decide (kind n = ANONYMOUS).
Definition is_string (n : name) : bool := bool_decide (kind n = STRING).
Definition is_numeral (n : name) : bool := bool_decide (kind n = NUMERAL).

(** [static unsigned hash(object)]: the cached scalar of a constructor
    object (never called on a scalar). *)
Definition hash_core (o : name) : N :=
  match o with
  | anonymous => 0%N
  | mk_string _ _ h => h
  | mk_numeral _ _ h => h
  end.

(** [unsigned hash() const { return is_scalar(raw()) ? 11 : hash(raw()); }] *)
Definition hash (n : name) : N :=
  if is_scalar n then 11%N else hash_core n.

(** [name const & get_prefix() const]: the anonymous name is its own prefix. *)
Definition get_prefix (n : name) : name :=
  match n with
  | anonymous => n
  | mk_string p _ _ => p
  | mk_numeral p _ _ => p
  end.

(** [bool is_atomic() const] *)
Definition is_atomic (n : name) : bool :=
  is_anonymous n || bool_decide (kind (get_prefix n) = ANONYMOUS).

(** The components of a name, outermost (last appended) first. *)
Inductive limb := limb_str (s : string) | limb_num (k : nat).

#[global] Instance limb_eq_dec : EqDecision limb.
Proof. solve_decision. Defined.

Fixpoint limbs (n : name) : list limb :=
  match n with
  | anonymous => []
  | mk_string p s _ => limb_str s :: limbs p
  | mk_numeral p k _ => limb_num k :: limbs p
  end.

(** Modelled from the spec: [name::eq_core] is only declared in [name.h]
    (its body is in [name.cpp]); the specification says that "equality is
    structural plus a cached hash".  The structural part compares kind and
    component along the two prefix chains. *)
Fixpoint eq_core (o1 o2 : name) : bool :=
  match o1, o2 with
  | anonymous, anonymous => true
  | mk_string p1 s1 _, mk_string p2 s2 _ => String.eqb s1 s2 && eq_core p1 p2
  | mk_numeral p1 k1 _, mk_numeral p2 k2 _ => Nat.eqb k1 k2 && eq_core p1 p2
  | _, _ => false
  end.

(** Three-way comparison of two components: numerals before strings,
    numerals by value, strings lexicographically. *)
Definition cmp_limb (l1 l2 : limb) : comparison :=
  match l1, l2 with
  | limb_num k1, limb_num k2 => Nat.compare k1 k2
  | limb_num _, limb_str _ => Lt
  | limb_str _, limb_num _ => Gt
  | limb_str s1, limb_str s2 => String.compare s1 s2
  end.

Fixpoint cmp_limbs (l1 l2 : list limb) : comparison :=
  match l1, l2 with
  | [], [] => Eq
  | [], _ :: _ => Lt
  | _ :: _, [] => Gt
  | x :: l1', y :: l2' =>
      match cmp_limb x y with
      | Eq => cmp_limbs l1' l2'
      | c => c
      end
  end.

Definition int_of_comparison (c : comparison) : Z :=
  match c with Lt => (-1)%Z | Eq => 0%Z | Gt => 1%Z end.

(** Modelled from the spec: [name::cmp_core] is only declared in [name.h]
    (its body is in [name.cpp]); the specification says that "a total order
    exists independent of hash (lexicographic over the prefix chain)".  The
    chain is read from the root to the last component. *)
Definition cmp_core (o1 o2 : name) : Z :=
  int_of_comparison (cmp_limbs (rev (limbs o1)) (rev (limbs o2))).

(** [a.raw() == b.raw()] on two constructor objects: whether the two names
    point to the same heap object.  The heap layout is not part of the
    embedding, so the test is left open. *)
Class ObjectIdentity := {
  same_object : name -> name -> bool
}.

(** The functions on names that [name.h] declares and [name.cpp] defines:
    the prefix test, the replacement of a prefix and the constructor
    [name(name const & prefix, char const * name)]. *)
Class NameCpp := {
  is_prefix_of : name -> name -> bool;
  replace_prefix : name -> name -> name -> name;
  name_str : name -> string -> name
}.

Section Comparison.
Context `{ObjectIdentity}.

(** [a.raw() == b.raw()]: scalars are compared by value, constructor objects
    by address. *)
Definition raw_eq (a b : name) : bool :=
  match a, b with
  | anonymous, anonymous => true
  | anonymous, _ | _, anonymous => false
  | _, _ => same_object a b
  end.

(** [friend bool operator==(name const & a, name const & b)] *)
Definition name_eq (a b : name) : bool :=
  if raw_eq a b then true
  else if negb (Bool.eqb (is_scalar a) (is_scalar b)) then false
  else if negb (hash a =? hash b)%N then false
  else eq_core a b.

(** [friend bool operator!=(name const & a, name const & b)] *)
Definition name_neq (a b : name) : bool := negb (name_eq a b).

(** [friend int cmp(name const & a, name const & b)] *)
Definition cmp (a b : name) : Z := cmp_core a b.

(** [friend int quick_cmp(name const & a, name const & b)] *)
Definition quick_cmp (a b : name) : Z :=
  if raw_eq a b then 0%Z
  else
    let h1 := hash a in
    let h2 := hash b in
    if negb (h1 =? h2)%N then (if (h1 <? h2)%N then (-1)%Z else 1%Z)
    else if name_eq a b then 0%Z
    else cmp a b.

End Comparison.

(** [inline bool independent(name const & a, name const & b)] *)
Definition independent `{NameCpp} (a b : name) : bool :=
  negb (is_prefix_of a b) && negb (is_prefix_of b a).

(** One pointer denotes one object: two names with the same address are the
    same name. *)
Definition same_object_sound `{ObjectIdentity} : Prop :=
  forall a b : name, same_object a b = true -> a = b.

(** Names are countable, so that they can be keys of finite maps. *)
Definition name_to_list : name -> list (string * N + nat * N) :=
  fix go n :=
    match n with
    | anonymous => []
    | mk_string p s h => inl (s, h) :: go p
    | mk_numeral p k h => inr (k, h) :: go p
    end.

Definition name_of_list : list (string * N + nat * N) -> name :=
  fix go l :=
    match l with
    | [] => anonymous
    | inl (s, h) :: l' => mk_string (go l') s h
    | inr (k, h) :: l' => mk_numeral (go l') k h
    end.

#[global] Instance name_countable : Countable name.
Proof.
  refine (inj_countable' name_to_list name_of_list _).
  intros n. induction n as [|p IH s h|p IH k h]; simpl; congruence.
Defined.

End Name.

(* ===================================================================== *)
(** * Trace classes and scoped trace environments
      ([src/library/trace.cpp])                                           *)
(* ===================================================================== *)

Module Trace.
Import Name.

(** A C++ pointer: [None] is [nullptr]. *)
Definition ptr := option N.

(** The interface of [options] that [scope_trace_env::init] uses (the class
    is defined in [util/options.h]):
    [options_at a] is the object a non-null [options*] points to,
    [for_each_key o] lists the keys in the order in which [o.for_each]
    visits them, and [get_bool o n d] is [o.get_bool(n, d)]. *)
Class OptionsImpl := {
  options : Type;
  options_at : N -> options;
  for_each_key : options -> list name;
  get_bool : options -> name -> bool -> bool
}.

(** The thread-local variables of [trace.cpp]:
    [get_enabled_trace_classes()], [get_disabled_trace_classes()], [g_env],
    [g_opts] and [g_ctx]. *)
Record thread_state := mk_thread_state {
  enabled_trace_classes : list name;
  disabled_trace_classes : list name;
  g_env : ptr;
  g_opts : ptr;
  g_ctx : ptr
}.

(** [static name_map<name_set> * g_trace_aliases].  The C++ map compares
    keys with [quick_cmp]; on names whose cached hashes were computed by the
    constructors this identifies exactly the equal names, so the map is a
    finite map keyed by names. *)
Abbreviation trace_aliases := (gmap name (gset name)).

(** The members of [class scope_trace_env]. *)
Record scope_trace_env := mk_scope_trace_env {
  m_enable_sz : nat;
  m_disable_sz : nat;
  m_old_env : ptr;
  m_old_opts : ptr;
  m_old_ctx : ptr
}.

(** How control leaves a block: by reaching its end or by an exception that
    propagates out of it. *)
Inductive exit (A E : Type) :=
| normal_return (a : A)
| propagated (e : E).
Arguments normal_return {A E} a.
Arguments propagated {A E} e.

(** [std::vector<name>::resize(n)]: keeps the first [n] elements and, when
    the vector is shorter, appends default-constructed (anonymous) names. *)
Definition resize (n : nat) (v : list name) : list name :=
  take n v ++ replicate (n - length v) anonymous.

Section Registry.
Context `{ObjectIdentity} `{NameCpp}.

(** [void register_trace_class_alias(name const & n, name const & alias)] *)
Definition register_trace_class_alias
    (n alias : name) (aliases : trace_aliases) : trace_aliases :=
  let new_s := match aliases !! n with Some s => s | None => ∅ end in
  let new_s := {[ alias ]} ∪ new_s in
  <[ n := new_s ]> aliases.

(** [bool is_trace_enabled()] *)
Definition is_trace_enabled (st : thread_state) : bool :=
  negb (bool_decide (enabled_trace_classes st = [])).

(** [static void update_class(std::vector<name> & cs, name const & c)];
    [std::find] compares with [operator==]. *)
Definition update_class (cs : list name) (c : name) : list name :=
  if negb (existsb (fun x => name_eq x c) cs) then cs ++ [c] else cs.

(** [static void enable_trace_class(name const & c)] *)
Definition enable_trace_class (c : name) (st : thread_state) : thread_state :=
  mk_thread_state (update_class (enabled_trace_classes st) c)
    (disabled_trace_classes st) (g_env st) (g_opts st) (g_ctx st).

(** [static void disable_trace_class(name const & c)] *)
Definition disable_trace_class (c : name) (st : thread_state) : thread_state :=
  mk_thread_state (enabled_trace_classes st)
    (update_class (disabled_trace_classes st) c) (g_env st) (g_opts st) (g_ctx st).

(** [static bool is_trace_class_set_core(std::vector<name> const & cs, name const & n)] *)
Fixpoint is_trace_class_set_core (cs : list name) (n : name) : bool :=
  match cs with
  | [] => false
  | p :: cs' => if is_prefix_of p n then true else is_trace_class_set_core cs' n
  end.

(** The body of [s->for_each] in [is_trace_class_set], threading the local
    [found] through the aliases in the order of the set. *)
Definition alias_step (cs : list name) (found : bool) (alias : name) : bool :=
  if negb found && is_trace_class_set_core cs alias then true else found.

(** [if (auto s = g_trace_aliases->find(it)) { ... }]: the value of [found]
    after the block ([false] when [it] has no alias set). *)
Definition alias_found (aliases : trace_aliases) (cs : list name) (it : name) : bool :=
  match aliases !! it with
  | Some s => foldl (alias_step cs) false (elements s)
  | None => false
  end.

(** The [while (true)] loop of [is_trace_class_set]; it follows the prefixes
    of [it] and stops at an atomic name, so it is structural in [it]. *)
Fixpoint is_trace_class_set_loop
    (aliases : trace_aliases) (cs : list name) (it : name) : bool :=
  if alias_found aliases cs it then true
  else if is_atomic it then false
  else
    match it with
    | anonymous => false
    | mk_string p _ _ | mk_numeral p _ _ => is_trace_class_set_loop aliases cs p
    end.

(** [static bool is_trace_class_set(std::vector<name> const & cs, name const & n)] *)
Definition is_trace_class_set
    (aliases : trace_aliases) (cs : list name) (n : name) : bool :=
  if is_trace_class_set_core cs n then true
  else is_trace_class_set_loop aliases cs n.

(** [bool is_trace_class_enabled(name const & n)] *)
Definition is_trace_class_enabled
    (aliases : trace_aliases) (st : thread_state) (n : name) : bool :=
  if negb (is_trace_enabled st) then false
  else if is_trace_class_set aliases (disabled_trace_classes st) n then false
  else is_trace_class_set aliases (enabled_trace_classes st) n.

Context `{OptionsImpl}.

(** The lambda that [scope_trace_env::init] hands to [opts->for_each]. *)
Definition init_option (opts : options) (trace : name)
    (st : thread_state) (n : name) : thread_state :=
  if is_prefix_of trace n then
    let cls := replace_prefix n trace anonymous in
    if get_bool opts n false then enable_trace_class cls st
    else disable_trace_class cls st
  else st.

(** [void scope_trace_env::init(environment * env, options * opts,
    abstract_type_context * ctx)]: returns the members it has set and the
    new thread-local state. *)
Definition init (env opts ctx : ptr) (st : thread_state)
    : scope_trace_env * thread_state :=
  let this :=
    mk_scope_trace_env (length (enabled_trace_classes st))
      (length (disabled_trace_classes st)) (g_env st) (g_opts st) (g_ctx st) in
  let st :=
    mk_thread_state (enabled_trace_classes st) (disabled_trace_classes st)
      env (g_opts st) ctx in
  let trace := name_str anonymous "trace" in
  let st :=
    match opts with
    | Some a =>
        if negb (bool_decide (g_opts st = opts)) then
          foldl (init_option (options_at a) trace) st (for_each_key (options_at a))
        else st
    | None => st
    end in
  (this, mk_thread_state (enabled_trace_classes st) (disabled_trace_classes st)
           (g_env st) opts (g_ctx st)).

(** [scope_trace_env(environment const & env, options const & o,
    abstract_type_context & ctx)]; references are never null. *)
Definition scope_trace_env_env_opts_ctx (env o ctx : N) (st : thread_state) :=
  init (Some env) (Some o) (Some ctx) st.

(** [scope_trace_env(environment const & env, abstract_type_context & ctx)] *)
Definition scope_trace_env_env_ctx (env ctx : N) (st : thread_state) :=
  init (Some env) (g_opts st) (Some ctx) st.

(** [scope_trace_env(options const & o)] *)
Definition scope_trace_env_opts (o : N) (st : thread_state) :=
  init (g_env st) (Some o) (g_ctx st) st.

(** [scope_trace_env::~scope_trace_env()] *)
Definition scope_trace_env_destroy (this : scope_trace_env) (st : thread_state)
    : thread_state :=
  mk_thread_state
    (resize (m_enable_sz this) (enabled_trace_classes st))
    (resize (m_disable_sz this) (disabled_trace_classes st))
    (m_old_env this) (m_old_opts this) (m_old_ctx this).

(** A block [{ scope_trace_env scope(env, opts, ctx); body }]: the object is
    constructed, the body runs, and the destructor runs when control leaves
    the block, whether the body returned or an exception propagates. *)
Definition scoped {A E : Type} (env opts ctx : ptr)
    (body : thread_state -> exit A E * thread_state) (st : thread_state)
    : exit A E * thread_state :=
  let '(this, st1) := init env opts ctx st in
  let '(r, st2) := body st1 in
  (r, scope_trace_env_destroy this st2).

End Registry.

(** The words of the specification for "matched": a class is matched in a
    list when some entry of the list is a prefix of it, or when some entry
    is a prefix of a registered alias of one of the names on its prefix
    chain (the class itself, its prefix, and so on up to the atomic name
    below the anonymous root). *)
Fixpoint prefix_chain (n : name) : list name :=
  n :: (if is_atomic n then []
        else match n with
             | anonymous => []
             | mk_string p _ _ | mk_numeral p _ _ => prefix_chain p
             end).

Definition listed `{NameCpp} (cs : list name) (n : name) : Prop :=
  exists p, p ∈ cs /\ is_prefix_of p n = true.

Definition matched `{NameCpp} (aliases : trace_aliases) (cs : list name) (n : name) : Prop :=
  listed cs n \/
  exists it s alias,
    it ∈ prefix_chain n /\ aliases !! it = Some s /\ alias ∈ s /\ listed cs alias.

(** What is required of the prefix test of [name.cpp]: two names that
    [operator==] reports equal are prefixes of each other. *)
Definition prefix_of_equal `{ObjectIdentity} `{NameCpp} : Prop :=
  forall a b : name, name_eq a b = true -> is_prefix_of a b = true.

(** The two class lists of [st'] are those of [st] with, possibly, more
    entries at their end. *)
Definition grows (st st' : thread_state) : Prop :=
  enabled_trace_classes st `prefix_of` enabled_trace_classes st' /\
  disabled_trace_classes st `prefix_of` disabled_trace_classes st'.

(** A body that leaves the entries it found in the two lists where they
    were: it may append (as a nested scope does before it is left) but not
    remove or reorder. *)
Definition well_nested {A E : Type}
    (body : thread_state -> exit A E * thread_state) : Prop :=
  forall st, grows st (body st).2.

End Trace.

(* ===================================================================== *)
(** * The core monad ([stage0/stdlib/Lean/CoreM.c])                       *)
(* ===================================================================== *)

Module CoreM.
Import Name.

(** [Format]; the compiled code builds [Format.text] (constructor 2). *)
Inductive Format :=
| Format_nil
| Format_line
| Format_text (s : string).

(** [MessageData]; the compiled code builds [MessageData.ofFormat]
    (constructor 0) for the errors below. *)
Inductive MessageData :=
| ofFormat (f : Format)
| ofName (n : name)
| compose (a b : MessageData).

(** [Except ε α]: constructor 0 is [Except.error], constructor 1 is
    [Except.ok]. *)
Inductive Except (ε α : Type) :=
| Except_error (e : ε)
| Except_ok (a : α).
Arguments Except_error {ε α} e.
Arguments Except_ok {ε α} a.

(** The collaborators of the core monad, reached through [extern]
    declarations of the compiled module: the kernel ([lean_add_decl]), the
    compiler ([lean_compile_decl]), the renderers of kernel and I/O errors,
    the reader of the option [maxRecDepth], the constant text of the
    recursion error, the hash that the runtime caches in a new numeral name,
    and the initial values of the name generator and of the trace state. *)
Class Collaborators := {
  Environment : Type;
  Declaration : Type;
  KernelException : Type;
  Options : Type;
  Syntax : Type;
  IOError : Type;
  TraceState : Type;
  lean_add_decl : Environment -> Declaration -> Except KernelException Environment;
  lean_compile_decl :
    Environment -> Options -> Declaration -> Except KernelException Environment;
  KernelException_toMessageData : KernelException -> Options -> MessageData;
  lean_io_error_to_string : IOError -> string;
  maxRecDepthErrorMessage : string;
  getMaxRecDepth : Options -> nat;
  Syntax_missing : Syntax;
  lean_name_mk_numeral_hash : name -> nat -> N;
  NameGenerator_Inhabited_prefix : name;
  NameGenerator_Inhabited_idx : nat;
  TraceState_Inhabited : TraceState
}.

Section Core.
Context `{Collaborators}.

(** [Lean.Core.Exception]: constructor 0 carries one field, constructors 1
    and 2 carry two. *)
Inductive Exception :=
| Exception_io (ex : IOError)
| Exception_kernel (ex : KernelException) (opts : Options)
| Exception_error (ref : Syntax) (msg : MessageData).

(** [Lean.Core.Context]: fields 0 to 3 of the constructor object. *)
Record Context := mk_Context {
  options : Options;
  currRecDepth : nat;
  maxRecDepth : nat;
  ref : Syntax
}.

(** [Lean.NameGenerator] *)
Record NameGenerator := mk_NameGenerator {
  namePrefix : name;
  idx : nat
}.

(** [Lean.Core.State]: fields 0 to 2 of the constructor object. *)
Record State := mk_State {
  env : Environment;
  ngen : NameGenerator;
  traceState : TraceState
}.

(** The world token of [IO].  A run owns exactly one reference cell (made by
    [lean_io_mk_ref] in [run]), so the world is the content of that cell and
    the reference argument of the compiled functions is left out. *)
Record World := mk_World { cell : State }.

(** [lean_io_ref_get], [lean_io_ref_take] and [lean_io_ref_set].  The cell
    is empty between a take and the set that follows it; no code reads it
    in between, so take is modelled as a read. *)
Definition lean_io_ref_get (w : World) : State * World := (cell w, w).
Definition lean_io_ref_take (w : World) : State * World := (cell w, w).
Definition lean_io_ref_set (s : State) (w : World) : unit * World := (tt, mk_World s).

(** [EStateM.Result]: constructor 0 is [ok], constructor 1 is [error]; both
    carry the world. *)
Inductive Result (α : Type) :=
| ok (a : α) (w : World)
| error (e : Exception) (w : World).
Arguments ok {α} a w.
Arguments error {α} e w.

(** Actions of the monad: context, then world. *)
Definition CoreM_ (α : Type) : Type := Context -> World -> Result α.

(** Modelled from the spec: [lean_name_mk_numeral] belongs to the runtime;
    the specification says that the generator "produces Numeral(prefix,
    next)".  It is the numeral constructor object on the prefix, with the
    hash that the runtime computes from the prefix and the numeral. *)
Definition lean_name_mk_numeral (p : name) (k : nat) : name :=
  mk_numeral p k (lean_name_mk_numeral_hash p k).

(** [l_Lean_Core_Exception_toMessageData] *)
Definition Exception_toMessageData (x_1 : Exception) : MessageData :=
  match x_1 with
  | Exception_io x_2 =>
      let x_3 := lean_io_error_to_string x_2 in
      let x_4 := Format_text x_3 in
      ofFormat x_4
  | Exception_kernel x_6 x_7 => KernelException_toMessageData x_6 x_7
  | Exception_error _ x_9 => x_9
  end.

(** [l_Lean_Core_throwError___rarg] *)
Definition throwError {α : Type} (x_1 : MessageData) : CoreM_ α :=
  fun x_2 x_4 =>
    let x_5 := ref x_2 in
    error (Exception_error x_5 x_1) x_4.

(** [l_Lean_Core_checkRecDepth___closed__2] *)
Definition checkRecDepth_closed_2 : MessageData :=
  ofFormat (Format_text maxRecDepthErrorMessage).

(** [l_Lean_Core_checkRecDepth] *)
Definition checkRecDepth : CoreM_ unit :=
  fun x_1 x_3 =>
    let x_4 := currRecDepth x_1 in
    let x_5 := maxRecDepth x_1 in
    if negb (Nat.eqb x_4 x_5) then ok tt x_3
    else throwError checkRecDepth_closed_2 x_1 x_3.

(** [l_Lean_Core_Context_incCurrRecDepth] *)
Definition Context_incCurrRecDepth (x_1 : Context) : Context :=
  mk_Context (options x_1) (currRecDepth x_1 + 1) (maxRecDepth x_1) (ref x_1).

(** [l_Lean_Core_withIncRecDepth___rarg] *)
Definition withIncRecDepth {α : Type} (x_1 : CoreM_ α) : CoreM_ α :=
  fun x_2 x_4 =>
    match checkRecDepth x_2 x_4 with
    | ok _ x_6 =>
        let x_7 := Context_incCurrRecDepth x_2 in
        x_1 x_7 x_6
    | error x_10 x_11 => error x_10 x_11
    end.

(** [l_Lean_Core_getEnv___rarg] *)
Definition getEnv : CoreM_ Environment :=
  fun _ x_2 =>
    let '(x_5, x_8) := lean_io_ref_get x_2 in
    ok (env x_5) x_8.

(** [l_Lean_Core_setEnv] *)
Definition setEnv (x_1 : Environment) : CoreM_ unit :=
  fun _ x_4 =>
    let '(x_6, x_7) := lean_io_ref_take x_4 in
    let x_19 := mk_State x_1 (ngen x_6) (traceState x_6) in
    let '(_, x_21) := lean_io_ref_set x_19 x_7 in
    ok tt x_21.

(** [l_Lean_Core_modifyEnv] *)
Definition modifyEnv (x_1 : Environment -> Environment) : CoreM_ unit :=
  fun _ x_4 =>
    let '(x_6, x_7) := lean_io_ref_take x_4 in
    let x_21 := x_1 (env x_6) in
    let x_22 := mk_State x_21 (ngen x_6) (traceState x_6) in
    let '(_, x_24) := lean_io_ref_set x_22 x_7 in
    ok tt x_24.

(** [l_Lean_Core_getOptions___rarg] *)
Definition getOptions : CoreM_ Options :=
  fun x_1 x_3 => ok (options x_1) x_3.

(** [l_Lean_Core_getTraceState___rarg] *)
Definition getTraceState : CoreM_ TraceState :=
  fun _ x_2 =>
    let '(x_7, x_8) := lean_io_ref_get x_2 in
    ok (traceState x_7) x_8.

(** [l_Lean_Core_mkFreshId___rarg] *)
Definition mkFreshId : CoreM_ name :=
  fun _ x_2 =>
    let '(x_4, x_5) := lean_io_ref_get x_2 in
    let x_6 := ngen x_4 in
    let x_7 := namePrefix x_6 in
    let x_8 := idx x_6 in
    let x_9 := lean_name_mk_numeral x_7 x_8 in
    let '(x_11, x_13) := lean_io_ref_take x_5 in
    let x_12 := ngen x_11 in
    let x_40 := idx x_12 + 1 in
    let x_41 := mk_NameGenerator (namePrefix x_12) x_40 in
    let x_42 := mk_State (env x_11) x_41 (traceState x_11) in
    let '(_, x_44) := lean_io_ref_set x_42 x_13 in
    ok x_9 x_44.

(** [l_Lean_Core_addDecl].  The compiled code reads the two fields of the
    results of [getEnv] and [getOptions] without a test of the tag, since
    these always return [ok]; the [error] branches of the matches on them are
    never taken. *)
Definition addDecl (x_1 : Declaration) : CoreM_ unit :=
  fun x_2 x_4 =>
    match getEnv x_2 x_4 with
    | ok x_6 x_7 =>
        match lean_add_decl x_6 x_1 with
        | Except_error x_9 =>
            match getOptions x_2 x_7 with
            | ok x_14 x_15 => error (Exception_kernel x_9 x_14) x_15
            | error e w => error e w
            end
        | Except_ok x_18 => setEnv x_18 x_2 x_7
        end
    | error e w => error e w
    end.

(** [l_Lean_Core_compileDecl] (same remark on [getEnv] and [getOptions]) *)
Definition compileDecl (x_1 : Declaration) : CoreM_ unit :=
  fun x_2 x_4 =>
    match getEnv x_2 x_4 with
    | ok x_6 x_7 =>
        match getOptions x_2 x_7 with
        | ok x_9 x_10 =>
            match lean_compile_decl x_6 x_9 x_1 with
            | Except_error x_12 =>
                match getOptions x_2 x_10 with
                | ok x_17 x_18 => error (Exception_kernel x_12 x_17) x_18
                | error e w => error e w
                end
            | Except_ok x_21 => setEnv x_21 x_2 x_10
            end
        | error e w => error e w
        end
    | error e w => error e w
    end.

(** [l_Lean_Core_addAndCompile] *)
Definition addAndCompile (x_1 : Declaration) : CoreM_ unit :=
  fun x_2 x_4 =>
    match addDecl x_1 x_2 x_4 with
    | ok _ x_6 => compileDecl x_1 x_2 x_6
    | error x_9 x_10 => error x_9 x_10
    end.

(** The context and the state that [l_Lean_Core_run___rarg] builds before it
    applies the action: depth 0, the limit read from the options, no source
    reference; the given environment with the initial name generator and
    trace state. *)
Definition run_context (x_3 : Options) : Context :=
  mk_Context x_3 0 (getMaxRecDepth x_3) Syntax_missing.

Definition run_state (x_2 : Environment) : State :=
  mk_State x_2
    (mk_NameGenerator NameGenerator_Inhabited_prefix NameGenerator_Inhabited_idx)
    TraceState_Inhabited.

(** [k] successive calls of [mkFreshId]: the identifiers in the order of the
    calls, and the world after the last one. *)
Fixpoint mkFreshIds (k : nat) (ctx : Context) (w : World) : list name * World :=
  match k with
  | 0 => ([], w)
  | S k' =>
      match mkFreshId ctx w with
      | ok n w' => let '(ns, w'') := mkFreshIds k' ctx w' in (n :: ns, w'')
      | error _ w' => ([], w')
      end
  end.

(** Sequencing of two actions ([EStateM.bind] after inlining). *)
Definition andThen {α β : Type} (x : CoreM_ α) (y : CoreM_ β) : CoreM_ β :=
  fun ctx w =>
    match x ctx w with
    | ok _ w' => y ctx w'
    | error e w' => error e w'
    end.

(** The world [w] with the environment of its state replaced by [e]. *)
Definition with_env (e : Environment) (w : World) : World :=
  mk_World (mk_State e (ngen (cell w)) (traceState (cell w))).

(** The error of the recursion fence, raised at the source reference of the
    context. *)
Definition maxRecDepthException (ctx : Context) : Exception :=
  Exception_error (ref ctx) (ofFormat (Format_text maxRecDepthErrorMessage)).

(** The words of the specification on [KernelFailure]: the exception holds
    the environment, that is, some projection of an exception gives back the
    environment against which the failed check of [addDecl] ran. *)
Definition kernel_failure_holds_environment : Prop :=
  exists payload : Exception -> option Environment,
    forall (decl : Declaration) (ctx : Context) (w w' : World) (e : Exception),
      addDecl decl ctx w = error e w' -> payload e = Some (env (cell w)).

End Core.

Arguments ok {_ α} a w.
Arguments error {_ α} e w.

End CoreM.

(* ===================================================================== *)
(** * [set_option] ([stage0/stdlib/Lean/Elab/SetOption.c])                *)
(* ===================================================================== *)

Module SetOption.
Import Name.

(** [Lean.DataValue]: constructors 0 to 3. *)
Inductive DataValue :=
| ofString (v : string)
| ofBool (v : bool)
| ofName (v : name)
| ofNat (v : nat).

(** [Lean.OptionDecl]; field 0 is the default value. *)
Record OptionDecl := mk_OptionDecl {
  defValue : DataValue;
  group : string;
  descr : string
}.

Section Syntax.
Variable SourceInfo : Type.
#[local] Set Warnings "-register-all".

(** [Lean.Syntax]: constructors 0 to 3; field 1 of an atom is its text. *)
Inductive Syntax :=
| missing
| node (kind : name) (args : list Syntax)
| atom (info : SourceInfo) (val : string)
| ident (info : SourceInfo) (val : name).

(** [Lean.Format] and [Lean.MessageData]: [Format.text] is constructor 2,
    [MessageData.ofFormat] constructor 0, [MessageData.ofSyntax]
    constructor 1 and [MessageData.compose] constructor 10. *)
Inductive Format :=
| Format_text (s : string).

Inductive MessageData :=
| ofFormat (f : Format)
| ofSyntax (stx : Syntax)
| compose (a b : MessageData).

(** [Lean.Exception]: constructor 0, with a source reference and a
    message. *)
Inductive Exception :=
| Exception_error (ref : Syntax) (msg : MessageData).

End Syntax.
Arguments missing {SourceInfo}.
Arguments node {SourceInfo} kind args.
Arguments atom {SourceInfo} info val.
Arguments ident {SourceInfo} info val.
Arguments ofFormat {SourceInfo} f.
Arguments ofSyntax {SourceInfo} stx.
Arguments compose {SourceInfo} a b.
Arguments Exception_error {SourceInfo} ref msg.

(** What the compiled module takes from other modules ([extern]): the
    syntax helpers, the key-value map of options, the option declarations,
    the conversions between [IO] and [EIO], and the closed term that ends
    the error message. *)
Class Externals := {
  SourceInfo : Type;
  Options : Type;
  IOError : Type;
  IO : Type -> Type;
  EIO : Type -> Type -> Type;
  Syntax_getId : Syntax SourceInfo -> name;
  lean_erase_macro_scopes : name -> name;
  Syntax_isStrLit : Syntax SourceInfo -> option string;
  Syntax_isNatLitAux : name -> Syntax SourceInfo -> option nat;
  numLitKind : name;
  stringToMessageData : string -> MessageData SourceInfo;
  KernelException_toMessageData_closed_15 : MessageData SourceInfo;
  lean_io_error_to_string : IOError -> string;
  getOptionDecl : name -> IO OptionDecl;
  IO_toEIO : forall {ε α : Type}, (IOError -> ε) -> IO α -> EIO ε α;
  DataValue_sameCtor : DataValue -> DataValue -> bool;
  KVMap_insertCore : Options -> name -> DataValue -> Options
}.

(** The instance arguments of [elabSetOption], as the compiled code reads
    them: [Monad m] (pure and bind), [MonadOptions m], [MonadExceptOf
    Exception m], [MonadRef m], [AddErrorMessageContext m] and
    [MonadLiftT (EIO Exception) m]. *)
Class Dictionaries `{Externals} (m : Type -> Type) := {
  pure : forall {α : Type}, α -> m α;
  bind : forall {α β : Type}, m α -> (α -> m β) -> m β;
  getOptions : m Options;
  throw : forall {α : Type}, Exception SourceInfo -> m α;
  getRef : m (Syntax SourceInfo);
  addErrorMessageContext :
    Syntax SourceInfo -> MessageData SourceInfo ->
    m (Syntax SourceInfo * MessageData SourceInfo)%type;
  monadLift : forall {α : Type}, EIO (Exception SourceInfo) α -> m α
}.

(** Modelled from the spec: the closed terms [l_instReprBool___closed__3]
    and [l_instReprBool___closed__1] are [extern] here (they belong to
    [Init]); they are the texts of the atoms [true] and [false]. *)
Definition instReprBool_closed_3 : string := "true".
Definition instReprBool_closed_1 : string := "false".

(** Modelled from the spec: the closed terms [l_Lean_mkAnnotation___closed__1]
    and [l_Lean_initFn____x40_Lean_Util_PPExt___hyg_3____closed__3] are
    [extern] here; they are "the corresponding boolean data values" of the
    atoms [true] and [false]. *)
Definition mkAnnotation_closed_1 : DataValue := ofBool true.
Definition PPExt_closed_3 : DataValue := ofBool false.

Section Elab.
Context `{Externals} {m : Type -> Type} `{!Dictionaries m}.

(** [l_Lean_throwError___at_Lean_Elab_elabSetOption_setOption___spec__1___rarg___lambda__1]:
    throws [Exception.error ref msg]. *)
Definition throwError_lambda_1 {α : Type}
    (x_2 : Syntax SourceInfo * MessageData SourceInfo) : m α :=
  let '(x_3, x_4) := x_2 in
  let x_5 := Exception_error x_3 x_4 in
  throw x_5.

(** [..._spec__1___rarg___lambda__2]: adds the message context, then throws. *)
Definition throwError_lambda_2 {α : Type}
    (x_2 : MessageData SourceInfo) (x_5 : Syntax SourceInfo) : m α :=
  let x_6 := addErrorMessageContext x_5 x_2 in
  bind x_6 throwError_lambda_1.

(** [l_Lean_throwError___at_Lean_Elab_elabSetOption___spec__1___rarg]; the
    specialisations 2, 3 and 4 and the one of [setOption] have the same
    body. *)
Definition throwError {α : Type} (x_5 : MessageData SourceInfo) : m α :=
  let x_7 := getRef in
  bind x_7 (throwError_lambda_2 x_5).

(** [l_Lean_Elab_elabSetOption_setOption___rarg___lambda__1] *)
Definition setOption_lambda_1 (x_1 : Syntax SourceInfo) (x_2 : IOError)
    : Exception SourceInfo :=
  let x_3 := lean_io_error_to_string x_2 in
  let x_4 := Format_text x_3 in
  let x_5 := ofFormat x_4 in
  Exception_error x_1 x_5.

(** [l_Lean_Elab_elabSetOption_setOption___rarg___lambda__2] *)
Definition setOption_lambda_2 (x_2 : name) (x_3 : DataValue) (x_4 : Options)
    : m Options :=
  let x_7 := KVMap_insertCore x_4 x_2 x_3 in
  pure x_7.

(** [l_Lean_Elab_elabSetOption_setOption___rarg___lambda__3] *)
Definition setOption_lambda_3 (x_2 : name) (x_3 : DataValue) (x_6 : unit)
    : m Options :=
  bind getOptions (setOption_lambda_2 x_2 x_3).

(** [l_Lean_Elab_elabSetOption_setOption___rarg___lambda__4___closed__2] *)
Definition setOption_closed_2 : MessageData SourceInfo :=
  stringToMessageData "type mismatch at set_option".

(** [l_Lean_Elab_elabSetOption_setOption___rarg___lambda__4] *)
Definition setOption_lambda_4 (x_2 : name) (x_3 : DataValue) (x_9 : OptionDecl)
    : m Options :=
  let x_10 := setOption_lambda_3 x_2 x_3 in
  let x_11 := defValue x_9 in
  if negb (DataValue_sameCtor x_11 x_3) then
    let x_14 := throwError setOption_closed_2 in
    bind x_14 x_10
  else
    let x_19 := pure tt in
    bind x_19 x_10.

(** [l_Lean_Elab_elabSetOption_setOption___rarg___lambda__5] *)
Definition setOption_lambda_5 (x_1 : name) (x_4 : DataValue)
    (x_10 : Syntax SourceInfo) : m Options :=
  let x_11 := setOption_lambda_1 x_10 in
  let x_12 := getOptionDecl x_1 in
  let x_13 := IO_toEIO x_11 x_12 in
  let x_14 := monadLift x_13 in
  bind x_14 (setOption_lambda_4 x_1 x_4).

(** [l_Lean_Elab_elabSetOption_setOption___rarg] *)
Definition setOption (x_7 : name) (x_8 : DataValue) : m Options :=
  let x_10 := getRef in
  bind x_10 (setOption_lambda_5 x_7 x_8).

(** [l_Lean_Elab_elabSetOption___rarg___closed__2] *)
Definition elabSetOption_closed_2 : MessageData SourceInfo :=
  stringToMessageData "unexpected set_option value ".

(** The message of the error path, built the same way in the four places
    where [elabSetOption] throws. *)
Definition unexpected_value (x_8 : Syntax SourceInfo) : MessageData SourceInfo :=
  let x_14 := ofSyntax x_8 in
  let x_16 := compose elabSetOption_closed_2 x_14 in
  compose x_16 KernelException_toMessageData_closed_15.

(** [l_Lean_Elab_elabSetOption___rarg] *)
Definition elabSetOption (x_7 x_8 : Syntax SourceInfo) : m Options :=
  let x_9 := Syntax_getId x_7 in
  let x_10 := lean_erase_macro_scopes x_9 in
  match Syntax_isStrLit x_8 with
  | None =>
      match Syntax_isNatLitAux numLitKind x_8 with
      | None =>
          match x_8 with
          | missing => throwError (unexpected_value x_8)
          | node _ _ => throwError (unexpected_value x_8)
          | atom _ x_26 =>
              if negb (String.eqb x_26 instReprBool_closed_3) then
                if negb (String.eqb x_26 instReprBool_closed_1) then
                  throwError (unexpected_value x_8)
                else setOption x_10 PPExt_closed_3
              else setOption x_10 mkAnnotation_closed_1
          | ident _ _ => throwError (unexpected_value x_8)
          end
      | Some x_47 => setOption x_10 (ofNat x_47)
      end
  | Some x_50 => setOption x_10 (ofString x_50)
  end.

End Elab.

(** The words of the specification: the four shapes of value that
    [set_option] accepts, with the data value each one stands for. *)
Inductive accepted_shape `{Externals} : Syntax SourceInfo -> DataValue -> Prop :=
| shape_string stx s :
    Syntax_isStrLit stx = Some s -> accepted_shape stx (ofString s)
| shape_number stx k :
    Syntax_isStrLit stx = None ->
    Syntax_isNatLitAux numLitKind stx = Some k -> accepted_shape stx (ofNat k)
| shape_true info :
    Syntax_isStrLit (atom info "true") = None ->
    Syntax_isNatLitAux numLitKind (atom info "true") = None ->
    accepted_shape (atom info "true") (ofBool true)
| shape_false info :
    Syntax_isStrLit (atom info "false") = None ->
    Syntax_isNatLitAux numLitKind (atom info "false") = None ->
    accepted_shape (atom info "false") (ofBool false).

End SetOption.

(* ===================================================================== *)
(** * A model of the collaborators, to run the definitions               *)
(* ===================================================================== *)

Module SpecModel.
Import Name.

(** Every constructor object is allocated on its own: two distinct
    constructor objects never share an address. *)
#[export] Instance no_sharing : ObjectIdentity := {|
  same_object := fun _ _ => false
|}.

(** Modelled from the spec: the hash a constructor caches is computed in
    [name.cpp] and in the runtime; the specification only says that it is
    "order-1 to compute via scalar caching on construction".  The model mixes
    the hash of the prefix with the new component, modulo 2^32. *)
Definition mix_hash (h k : N) : N := ((h * 31 + k) mod 2 ^ 32)%N.

Fixpoint string_hash (s : string) : N :=
  match s with
  | EmptyString => 7%N
  | String c s' => mix_hash (string_hash s') (N_of_ascii c)
  end.

(** Modelled from the spec: "mk(prefix, stringOrNumeral) -> Name (pure,
    total)"; the constructors are defined in [name.cpp]. *)
Definition mk_str (p : name) (s : string) : name :=
  mk_string p s (mix_hash (hash p) (string_hash s)).

Definition mk_num (p : name) (k : nat) : name :=
  mk_numeral p k (mix_hash (hash p) (N.of_nat k)).

(** Modelled from the spec: "is_prefix_of(a, b): true iff walking b's prefix
    chain reaches exactly a"; the function is defined in [name.cpp]. *)
Fixpoint spec_is_prefix_of (a b : name) : bool :=
  if name_eq a b then true
  else
    match b with
    | anonymous => false
    | mk_string p _ _ | mk_numeral p _ _ => spec_is_prefix_of a p
    end.

(** Modelled from the spec: "replacePrefix(n, old, new): if old is a prefix
    of n, rebuild n's chain substituting new for the matched prefix,
    otherwise return n unchanged"; the function is defined in [name.cpp]. *)
Fixpoint rebuild_on (n old new : name) : name :=
  if name_eq n old then new
  else
    match n with
    | anonymous => anonymous
    | mk_string p s _ => mk_str (rebuild_on p old new) s
    | mk_numeral p k _ => mk_num (rebuild_on p old new) k
    end.

Definition spec_replace_prefix (n old new : name) : name :=
  if spec_is_prefix_of old n then rebuild_on n old new else n.

#[export] Instance spec_name_cpp : NameCpp := {|
  is_prefix_of := spec_is_prefix_of;
  replace_prefix := spec_replace_prefix;
  name_str := mk_str
|}.

(** Some names: [A], [A.B], [A.B.C], [D], [trace.A.B]. *)
Definition nA : name := mk_str anonymous "A".
Definition nAB : name := mk_str nA "B".
Definition nABC : name := mk_str nAB "C".
Definition nD : name := mk_str anonymous "D".
Definition n_trace_AB : name := mk_str (mk_str (mk_str anonymous "trace") "A") "B".

(** Modelled from the spec: an options object is a list of keys with their
    values ("every key under the reserved trace namespace is interpreted:
    true enables the named subclass, false disables it"); the class is
    defined in [util/options.h].  Address 1 holds the options
    [trace.A.B = true], every other address holds no option. *)
#[export] Instance spec_options : Trace.OptionsImpl := {|
  Trace.options := list (name * bool);
  Trace.options_at := fun a => if (a =? 1)%N then [(n_trace_AB, true)] else [];
  Trace.for_each_key := map fst;
  Trace.get_bool := fun o n d =>
    match List.find (fun kv => name_eq (fst kv) n) o with
    | Some kv => snd kv
    | None => d
    end
|}.

(** A small kernel and compiler for the core monad: an environment is the
    list of the declarations added so far, a declaration is a number; the
    kernel rejects a declaration that is already there, and the compiler
    rejects odd declarations. *)
#[export] Instance spec_collaborators : CoreM.Collaborators := {|
  CoreM.Environment := list nat;
  CoreM.Declaration := nat;
  CoreM.KernelException := string;
  CoreM.Options := nat;
  CoreM.Syntax := unit;
  CoreM.IOError := string;
  CoreM.TraceState := list string;
  CoreM.lean_add_decl := fun e d =>
    if existsb (Nat.eqb d) e then CoreM.Except_error "already declared"
    else CoreM.Except_ok (d :: e);
  CoreM.lean_compile_decl := fun e o d =>
    if Nat.odd d then CoreM.Except_error "compilation failed"
    else CoreM.Except_ok e;
  CoreM.KernelException_toMessageData := fun ex o =>
    CoreM.ofFormat (CoreM.Format_text ex);
  CoreM.lean_io_error_to_string := fun e => e;
  CoreM.maxRecDepthErrorMessage := "maximum recursion depth has been reached";
  CoreM.getMaxRecDepth := fun o => o;
  CoreM.Syntax_missing := tt;
  CoreM.lean_name_mk_numeral_hash := fun p k => mix_hash (hash p) (N.of_nat k);
  CoreM.NameGenerator_Inhabited_prefix := mk_str anonymous "_uniq";
  CoreM.NameGenerator_Inhabited_idx := 1;
  CoreM.TraceState_Inhabited := []
|}.

(** A model of what [SetOption] takes from other modules: a literal is a
    node of kind [str] or [num] around one atom, [IO] and [EIO] are sums
    with the error on the left, an options object is a list of settings,
    and the only declared option is [maxRecDepth], a number. *)
Definition strLitKind : name := mk_str anonymous "str".
Definition numLitKind : name := mk_str anonymous "num".
Definition n_maxRecDepth : name := mk_str anonymous "maxRecDepth".

Definition spec_nat_of_string (s : string) : option nat :=
  if String.eqb s "0" then Some 0
  else if String.eqb s "1" then Some 1
  else if String.eqb s "2" then Some 2
  else None.

#[export] Instance spec_externals : SetOption.Externals := {|
  SetOption.SourceInfo := unit;
  SetOption.Options := list (name * SetOption.DataValue);
  SetOption.IOError := string;
  SetOption.IO := fun α => (string + α)%type;
  SetOption.EIO := fun ε α => (ε + α)%type;
  SetOption.Syntax_getId := fun stx =>
    match stx with SetOption.ident _ n => n | _ => anonymous end;
  SetOption.lean_erase_macro_scopes := fun n => n;
  SetOption.Syntax_isStrLit := fun stx =>
    match stx with
    | SetOption.node k [SetOption.atom _ v] =>
        if name_eq k strLitKind then Some v else None
    | _ => None
    end;
  SetOption.Syntax_isNatLitAux := fun kind stx =>
    match stx with
    | SetOption.node k [SetOption.atom _ v] =>
        if name_eq k kind then spec_nat_of_string v else None
    | _ => None
    end;
  SetOption.numLitKind := numLitKind;
  SetOption.stringToMessageData := fun s =>
    SetOption.ofFormat (SetOption.Format_text s);
  SetOption.KernelException_toMessageData_closed_15 :=
    SetOption.ofFormat (SetOption.Format_text EmptyString);
  SetOption.lean_io_error_to_string := fun e => e;
  SetOption.getOptionDecl := fun n =>
    if name_eq n n_maxRecDepth
    then inr (SetOption.mk_OptionDecl (SetOption.ofNat 512) "" "")
    else inl "unknown option";
  SetOption.IO_toEIO := fun ε α f x =>
    match x with inl e => inl (f e) | inr a => inr a end;
  SetOption.DataValue_sameCtor := fun a b =>
    match a, b with
    | SetOption.ofString _, SetOption.ofString _
    | SetOption.ofBool _, SetOption.ofBool _
    | SetOption.ofName _, SetOption.ofName _
    | SetOption.ofNat _, SetOption.ofNat _ => true
    | _, _ => false
    end;
  SetOption.KVMap_insertCore := fun o n v => (n, v) :: o
|}.

(** A monad for [elabSetOption]: it reads the options and the source
    reference of a context and either returns a value or raises an
    exception. *)
Record ElabContext := mk_ElabContext {
  ctx_options : list (name * SetOption.DataValue);
  ctx_ref : SetOption.Syntax unit
}.

Definition ElabM (α : Type) : Type :=
  ElabContext -> (SetOption.Exception unit + α)%type.

#[export] Instance spec_dictionaries : SetOption.Dictionaries ElabM := {|
  SetOption.pure := fun α a _ => inr a;
  SetOption.bind := fun α β x f c =>
    match x c with inl e => inl e | inr a => f a c end;
  SetOption.getOptions := fun c => inr (ctx_options c);
  SetOption.throw := fun α e _ => inl e;
  SetOption.getRef := fun c => inr (ctx_ref c);
  SetOption.addErrorMessageContext := fun ref msg _ => inr (ref, msg);
  SetOption.monadLift := fun α x _ => x
|}.

(** Inputs for the examples. *)
Definition fresh_thread : Trace.thread_state :=
  Trace.mk_thread_state [] [] None None None.

Definition thread_A : Trace.thread_state :=
  Trace.mk_thread_state [nA] [] None None None.

Definition failing_body (st : Trace.thread_state)
    : Trace.exit unit string * Trace.thread_state :=
  (Trace.propagated "failure", st).

Definition alias_D_for_AB : gmap name (gset name) :=
  Trace.register_trace_class_alias nAB nD ∅.

Definition run3 : CoreM.Context := CoreM.run_context (3 : nat).

Definition world_of (e : list nat) : CoreM.World :=
  CoreM.mk_World (CoreM.run_state e).

Definition push (k : nat) : CoreM.CoreM_ unit := CoreM.modifyEnv (cons k).

Definition id_maxRecDepth : SetOption.Syntax unit :=
  SetOption.ident tt n_maxRecDepth.

Definition lit_2 : SetOption.Syntax unit :=
  SetOption.node numLitKind [SetOption.atom tt "2"].

Definition some_ident : SetOption.Syntax unit := SetOption.ident tt nA.

Definition empty_context : ElabContext := mk_ElabContext [] SetOption.missing.

End SpecModel.

(* ===================================================================== *)
(** * More of [src/util/name.h] and of [src/library/trace.cpp]            *)
(* ===================================================================== *)

Module NameOrder.
Import Name.

(** [friend bool operator<(name const & a, name const & b)] and the three
    other order operators, all through [cmp]. *)
Definition name_lt (a b : name) : bool := (cmp a b <? 0)%Z.
Definition name_gt (a b : name) : bool := (cmp a b >? 0)%Z.
Definition name_le (a b : name) : bool := (cmp a b <=? 0)%Z.
Definition name_ge (a b : name) : bool := (cmp a b >=? 0)%Z.

(** [explicit operator bool() const] *)
Definition to_bool (n : name) : bool := negb (bool_decide (kind n = ANONYMOUS)).

(** [typedef pair<name, name> name_pair] *)
Definition name_pair : Type := name * name.

(** [name_pair_quick_cmp::operator()] *)
Definition name_pair_quick_cmp `{ObjectIdentity} (p1 p2 : name_pair) : Z :=
  let r := quick_cmp p1.1 p2.1 in
  if negb (r =? 0)%Z then r
  else quick_cmp p1.2 p2.2.

End NameOrder.

Module TraceScopes.
Import Name Trace.

(** No entry of the list is [operator==] to an entry after it. *)
Definition distinct_entries `{ObjectIdentity} (cs : list name) : Prop :=
  forall (i j : nat) (x y : name),
    i < j -> cs !! i = Some x -> cs !! j = Some y -> name_eq x y = false.

(** The binding of one [scope_trace_env]: the three pointers handed to
    [init]. *)
Record binding := mk_binding {
  b_env : ptr;
  b_opts : ptr;
  b_ctx : ptr
}.

(** Blocks inside blocks: the first binding of the list is the outermost
    [scope_trace_env], the body runs inside the innermost one, and the
    destructors run from the innermost scope outwards. *)
Fixpoint nested_scopes `{ObjectIdentity} `{NameCpp} `{OptionsImpl} {A E : Type}
    (scopes : list binding)
    (body : thread_state -> exit A E * thread_state)
    : thread_state -> exit A E * thread_state :=
  match scopes with
  | [] => body
  | b :: scopes' =>
      scoped (b_env b) (b_opts b) (b_ctx b) (nested_scopes scopes' body)
  end.

(** The class that [init] derives from an option key: the key without the
    prefix [trace]. *)
Definition trace_class_of `{NameCpp} (n : name) : name :=
  replace_prefix n (name_str anonymous "trace") anonymous.

End TraceScopes.

(* ===================================================================== *)
(** * Running the core monad ([stage0/stdlib/Lean/CoreM.c], continued)    *)
(* ===================================================================== *)

Module CoreRun.
Import Name CoreM.

#[local] Set Warnings "-register-all".

(** [Std.PersistentArrayNode]: constructor 0 is [node] (an array of nodes),
    constructor 1 is [leaf] (an array of values).  Arrays are lists. *)
Inductive PersistentArrayNode (α : Type) :=
| node (cs : list (PersistentArrayNode α))
| leaf (vs : list α).
Arguments node {α} cs.
Arguments leaf {α} vs.

(** [Std.PersistentArray]: field 0 is the root, field 1 is the tail. *)
Record PersistentArray (α : Type) := mk_PersistentArray {
  PersistentArray_root : PersistentArrayNode α;
  PersistentArray_tail : list α
}.
Arguments mk_PersistentArray {α} _ _.
Arguments PersistentArray_root {α} _.
Arguments PersistentArray_tail {α} _.

(** The result of an [IO] action: constructor 0 is the value, constructor 1
    is the error; both carry the world. *)
Inductive IOResult `{Collaborators} (α : Type) :=
| IO_ok (a : α) (w : World)
| IO_error (e : IOError) (w : World).
Arguments IO_ok {_ α} a w.
Arguments IO_error {_ α} e w.

(** What the rest of the compiled module takes from other modules and from
    the runtime ([extern]): [l_Lean_Syntax_getPos], [lean_environment_find],
    the closed string [l_Char_HasRepr___closed__1], the formatter
    [l_Lean_MessageData_formatAux___main] (its first argument is an optional
    context), [l_Lean_Options_empty], [l_Lean_Format_pretty],
    [lean_get_stdout], [lean_io_prim_handle_put_str], the printer of strings
    [l_IO_print___at_Lean_HasRepr_hasEval___spec__2], the closed string
    [l_IO_FS_Handle_putStrLn___rarg___closed__1], the constructor 18 of
    [IO.Error] (a user error, which holds a string), and field 0 of a trace
    state (its traces). *)
Class RunExterns `{Collaborators} := {
  ConstantInfo : Type;
  MessageDataContext : Type;
  Handle : Type;
  Syntax_getPos : Syntax -> option nat;
  lean_environment_find : Environment -> name -> option ConstantInfo;
  Char_HasRepr_closed_1 : string;
  MessageData_formatAux : option MessageDataContext -> MessageData -> Format;
  Options_empty : Options;
  Format_pretty : Format -> Options -> string;
  lean_get_stdout : World -> IOResult Handle;
  lean_io_prim_handle_put_str : Handle -> string -> World -> IOResult unit;
  IO_print_spec_2_at_HasRepr_hasEval : string -> World -> IOResult unit;
  IO_FS_Handle_putStrLn_closed_1 : string;
  IO_userError : string -> IOError;
  TraceState_traces : TraceState -> PersistentArray MessageData
}.

Section Run.
Context `{RunExterns}.

(** [l_Lean_Core_Exception_hasToString] *)
Definition Exception_hasToString (x_1 : Exception) : string :=
  let x_2 := Exception_toMessageData x_1 in
  let x_4 := MessageData_formatAux None x_2 in
  Format_pretty x_4 Options_empty.

(** [l_Lean_Core_ECoreM_inhabited___rarg] *)
Definition ECoreM_inhabited {α : Type} (x_1 : Exception) : CoreM_ α :=
  fun _ x_4 => error x_1 x_4.

(** [l_Lean_Core_liftIOCore___rarg] *)
Definition liftIOCore {α : Type} (x_1 : World -> IOResult α) : World -> Result α :=
  fun x_2 =>
    match x_1 x_2 with
    | IO_ok x_5 x_6 => ok x_5 x_6
    | IO_error x_11 x_12 => error (Exception_io x_11) x_12
    end.

(** [l_Lean_Core_ofExcept___rarg] *)
Definition ofExcept {ε α : Type} (x_1 : ε -> string) (x_2 : Except ε α) : CoreM_ α :=
  fun x_3 x_5 =>
    match x_2 with
    | Except_error x_6 =>
        let x_7 := x_1 x_6 in
        let x_8 := Format_text x_7 in
        let x_9 := ofFormat x_8 in
        throwError x_9 x_3 x_5
    | Except_ok x_11 => ok x_11 x_5
    end.

(** [l_Lean_Core_replaceRef] *)
Definition replaceRef (x_1 x_2 : Syntax) : Syntax :=
  match Syntax_getPos x_1 with
  | None => x_2
  | Some _ => x_1
  end.

(** [l_Lean_Core_Context_replaceRef] *)
Definition Context_replaceRef (x_1 : Syntax) (x_2 : Context) : Context :=
  mk_Context (options x_2) (currRecDepth x_2) (maxRecDepth x_2)
    (replaceRef x_1 (ref x_2)).

(** [l_Lean_Core_withRef___rarg] *)
Definition withRef {α : Type} (x_1 : Syntax) (x_2 : CoreM_ α) : CoreM_ α :=
  fun x_3 x_5 =>
    let x_6 := Context_replaceRef x_1 x_3 in
    x_2 x_6 x_5.

(** [l_Lean_Core_tracer___lambda__1]: the [modifyTraceState] of the
    tracer. *)
Definition tracer_lambda_1 (x_1 : TraceState -> TraceState) : CoreM_ unit :=
  fun _ x_4 =>
    let '(x_6, x_7) := lean_io_ref_take x_4 in
    let x_21 := x_1 (traceState x_6) in
    let x_22 := mk_State (env x_6) (ngen x_6) x_21 in
    let '(_, x_24) := lean_io_ref_set x_22 x_7 in
    ok tt x_24.

(** [l_Lean_Core_getConstInfo___closed__3] and [..._closed__5] *)
Definition getConstInfo_closed_3 : MessageData :=
  ofFormat (Format_text "unknown constant '").

Definition getConstInfo_closed_5 : MessageData :=
  ofFormat (Format_text Char_HasRepr_closed_1).

(** [l_Lean_Core_getConstInfo] ([getEnv] always returns [ok]) *)
Definition getConstInfo (x_1 : name) : CoreM_ ConstantInfo :=
  fun x_2 x_4 =>
    match getEnv x_2 x_4 with
    | ok x_7 x_8 =>
        match lean_environment_find x_7 x_1 with
        | None =>
            let x_10 := ofName x_1 in
            let x_12 := compose getConstInfo_closed_3 x_10 in
            let x_14 := compose x_12 getConstInfo_closed_5 in
            throwError x_14 x_2 x_8
        | Some x_16 => ok x_16 x_8
        end
    | error e w => error e w
    end.

(** [l_IO_print___at_Lean_Core_runCore___spec__2] *)
Definition IO_print_spec_2 (x_1 : Format) : World -> IOResult unit :=
  fun x_2 =>
    match lean_get_stdout x_2 with
    | IO_ok x_4 x_5 =>
        let x_7 := Format_pretty x_1 Options_empty in
        lean_io_prim_handle_put_str x_4 x_7 x_5
    | IO_error x_10 x_11 => IO_error x_10 x_11
    end.

(** [l_IO_println___at_Lean_Core_runCore___spec__1] *)
Definition IO_println_spec_1 (x_1 : Format) : World -> IOResult unit :=
  fun x_2 =>
    match IO_print_spec_2 x_1 x_2 with
    | IO_ok _ x_4 => IO_print_spec_2_at_HasRepr_hasEval IO_FS_Handle_putStrLn_closed_1 x_4
    | IO_error x_8 x_9 => IO_error x_8 x_9
    end.

(** The loop of [l_Array_forMAux___main___at_Lean_Core_runCore___spec__6]
    on the elements that are left, from the current index to the end of the
    array: each message is formatted and printed on a line of its own, and
    an error of the printer ends the loop as an [Exception.io]. *)
Fixpoint forMAux_spec_6_loop (rest : list MessageData) (x_3 : Context) (x_5 : World)
    : Result unit :=
  match rest with
  | [] => ok tt x_5
  | x_10 :: rest' =>
      let x_12 := MessageData_formatAux None x_10 in
      match IO_println_spec_1 x_12 x_5 with
      | IO_ok _ x_14 => forMAux_spec_6_loop rest' x_3 x_14
      | IO_error x_21 x_22 => error (Exception_io x_21) x_22
      end
  end.

(** [l_Array_forMAux___main___at_Lean_Core_runCore___spec__6] called on the
    array [x_1] at index [x_2]. *)
Definition Array_forMAux_spec_6 (x_1 : list MessageData) (x_2 : nat) : CoreM_ unit :=
  fun x_3 x_5 => forMAux_spec_6_loop (drop x_2 x_1) x_3 x_5.

(** [l_Std_PersistentArray_forMAux___main___at_Lean_Core_runCore___spec__4];
    the loop over the children of a node (which the compiled code has in
    [..._spec__5], called at index 0) is written in place, so that the
    recursion is structural. *)
Fixpoint PersistentArray_forMAux_spec_4 (x_1 : PersistentArrayNode MessageData)
    (x_2 : Context) (x_4 : World) {struct x_1} : Result unit :=
  match x_1 with
  | node x_5 =>
      (fix loop (rest : list (PersistentArrayNode MessageData)) (w : World)
         : Result unit :=
         match rest with
         | [] => ok tt w
         | x_10 :: rest' =>
             match PersistentArray_forMAux_spec_4 x_10 x_2 w with
             | ok _ x_12 => loop rest' x_12
             | error x_17 x_18 => error x_17 x_18
             end
         end) x_5 x_4
  | leaf x_8 => Array_forMAux_spec_6 x_8 0 x_2 x_4
  end.

(** The loop of [l_Array_forMAux___main___at_Lean_Core_runCore___spec__5] on
    the nodes that are left. *)
Fixpoint forMAux_spec_5_loop (rest : list (PersistentArrayNode MessageData))
    (x_3 : Context) (x_5 : World) : Result unit :=
  match rest with
  | [] => ok tt x_5
  | x_10 :: rest' =>
      match PersistentArray_forMAux_spec_4 x_10 x_3 x_5 with
      | ok _ x_12 => forMAux_spec_5_loop rest' x_3 x_12
      | error x_17 x_18 => error x_17 x_18
      end
  end.

(** [l_Array_forMAux___main___at_Lean_Core_runCore___spec__5] called on the
    array [x_1] at index [x_2]. *)
Definition Array_forMAux_spec_5 (x_1 : list (PersistentArrayNode MessageData))
    (x_2 : nat) : CoreM_ unit :=
  fun x_3 x_5 => forMAux_spec_5_loop (drop x_2 x_1) x_3 x_5.

(** [l_Std_PersistentArray_forM___at_Lean_Core_runCore___spec__3] *)
Definition PersistentArray_forM_spec_3 (x_1 : PersistentArray MessageData)
    : CoreM_ unit :=
  fun x_2 x_4 =>
    let x_5 := PersistentArray_root x_1 in
    let x_6 := PersistentArray_tail x_1 in
    match PersistentArray_forMAux_spec_4 x_5 x_2 x_4 with
    | ok _ x_8 => Array_forMAux_spec_6 x_6 0 x_2 x_8
    | error x_12 x_13 => error x_12 x_13
    end.

(** [lean_io_mk_ref]: the cell of the run is created with its first
    content. *)
Definition lean_io_mk_ref (s : State) (w : World) : unit * World := (tt, mk_World s).

(** [block_25] of [l_Lean_Core_runCore___rarg] and of [l_Lean_Core_run___rarg]:
    the exception of the core monad as an error of [IO]. *)
Definition run_block_25 {β : Type} (x_5 : Exception) (x_6 : World) : IOResult β :=
  match x_5 with
  | Exception_io x_7 => IO_error x_7 x_6
  | Exception_kernel x_9 x_10 =>
      let x_11 := KernelException_toMessageData x_9 x_10 in
      let x_13 := MessageData_formatAux None x_11 in
      let x_15 := Format_pretty x_13 Options_empty in
      IO_error (IO_userError x_15) x_6
  | Exception_error _ x_18 =>
      let x_20 := MessageData_formatAux None x_18 in
      let x_22 := Format_pretty x_20 Options_empty in
      IO_error (IO_userError x_22) x_6
  end.

(** [block_61] of [runCore] and of [run], [block_65] of the lambda of
    [hasEval]: the traces of the state are printed, then the function
    finishes.  [finish] is what the function does, after a successful
    action, with the pair of the final environment and of the value and
    with the world.  ([getTraceState] always returns [ok].) *)
Definition run_block_61 {α β : Type} (finish : Environment * α -> World -> IOResult β)
    (x_29 : Context) (x_36 : Except Exception (Environment * α)) (x_37 : World)
    : IOResult β :=
  match x_36 with
  | Except_error x_38 =>
      match getTraceState x_29 x_37 with
      | ok x_40 x_41 =>
          let x_42 := TraceState_traces x_40 in
          match PersistentArray_forM_spec_3 x_42 x_29 x_41 with
          | ok _ x_44 => run_block_25 x_38 x_44
          | error x_45 x_46 => run_block_25 x_45 x_46
          end
      | error e w => run_block_25 e w
      end
  | Except_ok x_47 =>
      match getTraceState x_29 x_37 with
      | ok x_49 x_50 =>
          let x_51 := TraceState_traces x_49 in
          match PersistentArray_forM_spec_3 x_51 x_29 x_50 with
          | ok _ x_53 =>
              let '(_, x_57) := lean_io_ref_get x_53 in
              finish x_47 x_57
          | error x_59 x_60 => run_block_25 x_59 x_60
          end
      | error e w => run_block_25 e w
      end
  end.

(** The common body of [l_Lean_Core_runCore___rarg], [l_Lean_Core_run___rarg]
    and [l_Lean_Core_hasEval___rarg___lambda__1], which differ in [finish]
    only.  ([getEnv] always returns [ok].) *)
Definition run_body {α β : Type} (finish : Environment * α -> World -> IOResult β)
    (x_1 : CoreM_ α) (x_2 : Environment) (x_3 : Options) (x_4 : World)
    : IOResult β :=
  let x_29 := run_context x_3 in
  let x_32 := run_state x_2 in
  let '(_, x_35) := lean_io_mk_ref x_32 x_4 in
  match x_1 x_29 x_35 with
  | ok x_63 x_64 =>
      match getEnv x_29 x_64 with
      | ok x_66 x_67 => run_block_61 finish x_29 (Except_ok (x_66, x_63)) x_67
      | error e w => run_block_25 e w
      end
  | error x_70 x_71 => run_block_61 finish x_29 (Except_error x_70) x_71
  end.

(** [l_Lean_Core_runCore___rarg] *)
Definition runCore {α : Type} (x_1 : CoreM_ α) (x_2 : Environment) (x_3 : Options)
    (x_4 : World) : IOResult (Environment * α) :=
  run_body (fun x_47 x_57 => IO_ok x_47 x_57) x_1 x_2 x_3 x_4.

(** [l_Lean_Core_run___rarg] *)
Definition run {α : Type} (x_1 : CoreM_ α) (x_2 : Environment) (x_3 : Options)
    (x_4 : World) : IOResult α :=
  run_body (fun x_47 x_57 => IO_ok x_47.2 x_57) x_1 x_2 x_3 x_4.

(** [l_Lean_Core_hasEval___rarg___lambda__1]: [x_1] is the evaluation
    function of the values, which takes an environment, options, a value, a
    flag and the world; [x_5] is the flag given to the lambda. *)
Definition hasEval_lambda_1 {α β : Type}
    (x_1 : Environment -> Options -> α -> bool -> World -> IOResult β)
    (x_2 : Environment) (x_3 : Options) (x_4 : CoreM_ α) (x_5 : bool) (x_6 : World)
    : IOResult β :=
  run_body (fun x_49 x_57 => x_1 x_49.1 x_3 x_49.2 true x_57) x_4 x_2 x_3 x_6.

(** The messages of a persistent array in the order of their indices: the
    leaves of the root from left to right, then the tail. *)
Fixpoint node_toList {α : Type} (n : PersistentArrayNode α) : list α :=
  match n with
  | node cs =>
      (fix go (l : list (PersistentArrayNode α)) : list α :=
         match l with
         | [] => []
         | c :: l' => (node_toList c ++ go l')%list
         end) cs
  | leaf vs => vs
  end.

Definition PersistentArray_toList {α : Type} (t : PersistentArray α) : list α :=
  (node_toList (PersistentArray_root t) ++ PersistentArray_tail t)%list.

(** Printing the messages of a list, one line each, up to the first error
    of the printer. *)
Fixpoint print_all (l : list MessageData) (w : World) : IOResult unit :=
  match l with
  | [] => IO_ok tt w
  | m :: l' =>
      match IO_println_spec_1 (MessageData_formatAux None m) w with
      | IO_ok _ w' => print_all l' w'
      | IO_error e w' => IO_error e w'
      end
  end.

(** The error of [IO] that a run returns for an exception of the core
    monad, in the words of [Exception.hasToString]: an error of [IO] is
    passed on, every other exception becomes a user error that holds the
    text of the exception. *)
Definition Exception_toIOError (ex : Exception) : IOError :=
  match ex with
  | Exception_io e => e
  | _ => IO_userError (Exception_hasToString ex)
  end.

(** [k] nested calls of [withIncRecDepth] around an action. *)
Fixpoint nest {α : Type} (k : nat) (x : CoreM_ α) : CoreM_ α :=
  match k with
  | 0 => x
  | S k' => withIncRecDepth (nest k' x)
  end.

(** The context [ctx] at a recursion depth [d] more. *)
Definition deeper (d : nat) (ctx : Context) : Context :=
  mk_Context (options ctx) (currRecDepth ctx + d) (maxRecDepth ctx) (ref ctx).

(** The world [w] with the trace state of its state replaced. *)
Definition with_traceState (t : TraceState) (w : World) : World :=
  mk_World (mk_State (env (cell w)) (ngen (cell w)) t).

End Run.

End CoreRun.

(* ===================================================================== *)
(** * Module names and the search path
      ([src/stage0/init/lean/path.cpp])                                   *)
(* ===================================================================== *)

Module Path.
Import Name.

(** The result of an [IO] action of this module: constructor 0 is the
    value, constructor 1 is the error, which is a string here; both carry
    the world. *)
Inductive IOResult (W α : Type) :=
| io_ok (a : α) (w : W)
| io_error (e : string) (w : W).
Arguments io_ok {W α} a w.
Arguments io_error {W α} e w.

(** What the compiled module takes from the runtime and from other modules
    ([extern]): the empty string [l_String_splitAux___main___closed__1], the
    three separator characters (a character is the string of its UTF-8
    bytes, so that [lean::string_push] is an append), the functions on
    strings and names, the two file-system primitives, and the read of the
    global reference [l_Lean_searchPathRef]. *)
Class PathExterns := {
  RealWorld : Type;
  String_splitAux_closed_1 : string;
  System_FilePath_pathSeparator : string;
  System_FilePath_searchPathSeparator : string;
  System_FilePath_extSeparator : string;
  System_FilePath_normalizePathSeparators : string -> string;
  String_isPrefixOf : string -> string -> bool;
  lean_name_dec_eq : name -> name -> bool;
  lean_name_mk_string : name -> string -> name;
  Name_toString_closed_1 : string;
  Name_toStringWithSep : string -> name -> string;
  lean_io_file_exists : string -> RealWorld -> IOResult RealWorld bool;
  lean_io_realpath : string -> RealWorld -> IOResult RealWorld string;
  io_ref_get_searchPathRef : RealWorld -> IOResult RealWorld (list string)
}.

Section Path.
Context `{PathExterns}.

(** [l___private_init_lean_path_1__pathSep] *)
Definition pathSep : string :=
  String_splitAux_closed_1 ++ System_FilePath_pathSeparator.

(** [l___private_init_lean_path_2__searchPathSep] *)
Definition searchPathSep : string :=
  String_splitAux_closed_1 ++ System_FilePath_searchPathSeparator.

(** The loop of [l_Array_mfindAux___main___at_Lean_findFile___spec__2] on
    the entries that are left, from the current index to the end of the
    array. *)
Fixpoint mfindAux_spec_2_loop (x_1 : string) (rest : list string) (x_4 : RealWorld)
    : IOResult RealWorld (option string) :=
  match rest with
  | [] => io_ok None x_4
  | x_13 :: rest' =>
      let x_15 := x_13 ++ pathSep in
      let x_16 := x_15 ++ x_1 in
      match lean_io_file_exists x_16 x_4 with
      | io_ok x_19 x_17 =>
          if negb x_19 then mfindAux_spec_2_loop x_1 rest' x_17
          else io_ok (Some x_16) x_17
      | io_error x_39 x_40 => io_error x_39 x_40
      end
  end.

(** [l_Array_mfindAux___main___at_Lean_findFile___spec__2] called on the
    array [x_2] at index [x_3]. *)
Definition mfindAux_spec_2 (x_1 : string) (x_2 : list string) (x_3 : nat)
    (x_4 : RealWorld) : IOResult RealWorld (option string) :=
  mfindAux_spec_2_loop x_1 (drop x_3 x_2) x_4.

(** [l_Lean_findFile] *)
Definition findFile (x_1 : string) (x_2 : RealWorld)
    : IOResult RealWorld (option string) :=
  let x_3 := System_FilePath_normalizePathSeparators x_1 in
  match io_ref_get_searchPathRef x_2 with
  | io_ok x_7 x_5 => mfindAux_spec_2 x_3 x_7 0 x_5
  | io_error x_18 x_19 => io_error x_18 x_19
  end.

(** [l_Lean_modNameToFileName___main] *)
Fixpoint modNameToFileName_main (x_1 : name) : string :=
  match x_1 with
  | anonymous => String_splitAux_closed_1
  | mk_string x_3 x_4 _ =>
      if negb (lean_name_dec_eq x_3 anonymous) then
        let x_7 := modNameToFileName_main x_3 in
        let x_9 := x_7 ++ pathSep in
        x_9 ++ x_4
      else x_4
  | mk_numeral x_11 _ _ => modNameToFileName_main x_11
  end.

(** [l_Lean_modNameToFileName] *)
Definition modNameToFileName (x_1 : name) : string := modNameToFileName_main x_1.

(** [l_Lean_addRel___main] *)
Fixpoint addRel_main (x_1 : string) (x_2 : nat) : string :=
  match x_2 with
  | 0 => x_1
  | S x_6 =>
      let x_7 := addRel_main x_1 x_6 in
      let x_9 := x_7 ++ pathSep in
      x_9 ++ ".."
  end.

(** [l_Lean_addRel] *)
Definition addRel (x_1 : string) (x_2 : nat) : string := addRel_main x_1 x_2.

(** [l_Lean_findLeanFile___closed__1] *)
Definition findLeanFile_closed_1 : string :=
  String_splitAux_closed_1 ++ System_FilePath_extSeparator.

(** [l_Lean_findLeanFile] *)
Definition findLeanFile (x_1 : name) (x_2 : string) (x_3 : RealWorld)
    : IOResult RealWorld string :=
  let x_4 := modNameToFileName_main x_1 in
  let x_6 := x_4 ++ findLeanFile_closed_1 in
  let x_7 := x_6 ++ x_2 in
  match findFile x_7 x_3 with
  | io_ok None x_18 =>
      let x_20 := Name_toStringWithSep Name_toString_closed_1 x_1 in
      let x_22 := "module '" ++ x_20 in
      let x_24 := x_22 ++ "' not found" in
      io_error x_24 x_18
  | io_ok (Some x_32) x_31 => lean_io_realpath x_32 x_31
  | io_error x_37 x_38 => io_error x_37 x_38
  end.

(** [l_Lean_findOLean] *)
Definition findOLean (x_1 : name) (x_2 : RealWorld) : IOResult RealWorld string :=
  findLeanFile x_1 "olean" x_2.

(** [lean::find_lean_core] *)
Definition find_lean_core (x_1 : name) (x_2 : RealWorld) : IOResult RealWorld string :=
  findLeanFile x_1 "lean" x_2.

(** The loop of [l_Array_mfindAux___main___at_Lean_findAtSearchPath___spec__1]
    on the entries that are left. *)
Fixpoint mfindAux_spec_1_loop (x_1 : string) (rest : list string) : option string :=
  match rest with
  | [] => None
  | x_7 :: rest' =>
      if negb (String_isPrefixOf x_7 x_1) then mfindAux_spec_1_loop x_1 rest'
      else Some x_7
  end.

(** [l_Array_mfindAux___main___at_Lean_findAtSearchPath___spec__1] called on
    the array [x_2] at index [x_3]. *)
Definition mfindAux_spec_1 (x_1 : string) (x_2 : list string) (x_3 : nat)
    : option string :=
  mfindAux_spec_1_loop x_1 (drop x_3 x_2).

(** [l_Lean_findAtSearchPath] *)
Definition findAtSearchPath (x_1 : string) (x_2 : RealWorld)
    : IOResult RealWorld string :=
  let x_3 := System_FilePath_normalizePathSeparators x_1 in
  match lean_io_realpath x_3 x_2 with
  | io_ok x_6 x_4 =>
      match io_ref_get_searchPathRef x_4 with
      | io_ok x_19 x_20 =>
          match mfindAux_spec_1 x_6 x_19 0 with
          | None =>
              let x_24 := "file '" ++ x_6 in
              let x_26 := x_24 ++ "' not in the search path" in
              io_error x_26 x_20
          | Some x_28 => io_ok x_28 x_20
          end
      | io_error x_31 x_32 => io_error x_31 x_32
      end
  | io_error e w => io_error e w
  end.


(** A file system that does not change while it is searched: whether a file
    exists is a function of its path, and the test leaves the world as it
    is. *)
Definition file_system_is (present : string -> bool) : Prop :=
  forall (f : string) (w : RealWorld), lean_io_file_exists f w = io_ok (present f) w.

(** The candidates that [findFile] tests: each entry of the search path
    followed by the separator and the file name. *)
Definition candidates (sp : list string) (fname : string) : list string :=
  (fun d => (d ++ pathSep) ++ fname) <$> sp.


End Path.

End Path.

(* ===================================================================== *)
(** * More inputs for the examples                                        *)
(* ===================================================================== *)

Module ExtraModel.
Import Name.
Import SpecModel.

(** [trace.D] and an options object that mixes keys under [trace] with a key
    outside of it: address 2 holds [trace.A.B = true], [D = true] and
    [trace.D = false], in this order; every other address holds no
    option. *)
Definition n_trace_D : name := mk_str (mk_str anonymous "trace") "D".

Definition mixed_settings : list (name * bool) :=
  [(n_trace_AB, true); (nD, true); (n_trace_D, false)].

#[export] Instance mixed_options : Trace.OptionsImpl := {|
  Trace.options := list (name * bool);
  Trace.options_at := fun a => if (a =? 2)%N then mixed_settings else [];
  Trace.for_each_key := map fst;
  Trace.get_bool := fun o n d =>
    match List.find (fun kv => name_eq (fst kv) n) o with
    | Some kv => snd kv
    | None => d
    end
|}.

(** Two scopes, the second inside the first. *)
Definition two_scopes : list TraceScopes.binding :=
  [TraceScopes.mk_binding (Some 5%N) (Some 1%N) (Some 7%N);
   TraceScopes.mk_binding (Some 6%N) None (Some 8%N)].

(** A model of what a run takes from the runtime, over the small kernel of
    [SpecModel]: a constant is a numeral name [k] at the root whose number
    is a declaration of the environment; a message is rendered as its text;
    the standard output accepts every string but ["unprintable"], for which
    it returns the error ["cannot write"]; a user error is its text; the
    trace state is the list of the texts of the traces, of which the first
    one is under the root of the persistent array and the others are in its
    tail. *)
Fixpoint spec_message_text (m : CoreM.MessageData) : string :=
  match m with
  | CoreM.ofFormat (CoreM.Format_text s) => s
  | CoreM.ofFormat _ => EmptyString
  | CoreM.ofName n =>
      match n with
      | mk_string _ s _ => s
      | _ => EmptyString
      end
  | CoreM.compose a b => spec_message_text a ++ spec_message_text b
  end.

Definition spec_trace (s : string) : CoreM.MessageData :=
  CoreM.ofFormat (CoreM.Format_text s).

Definition spec_environment_find (e : list nat) (n : name) : option nat :=
  match n with
  | mk_numeral anonymous k _ => if existsb (Nat.eqb k) e then Some k else None
  | _ => None
  end.

Definition spec_put_str (s : string) (w : CoreM.World) : CoreRun.IOResult unit :=
  if String.eqb s "unprintable" then CoreRun.IO_error "cannot write" w
  else CoreRun.IO_ok tt w.

Definition spec_traces (ts : list string) : CoreRun.PersistentArray CoreM.MessageData :=
  CoreRun.mk_PersistentArray
    (CoreRun.node [CoreRun.leaf (spec_trace <$> take 1 ts)])
    (spec_trace <$> drop 1 ts).

#[export] Instance spec_run_externs : @CoreRun.RunExterns spec_collaborators :=
  @CoreRun.Build_RunExterns spec_collaborators
    nat unit unit
    (fun _ => None)
    spec_environment_find
    "'"
    (fun _ m => CoreM.Format_text (spec_message_text m))
    (0 : nat)
    (fun f _ => match f with CoreM.Format_text s => s | _ => EmptyString end)
    (fun w => CoreRun.IO_ok tt w)
    (fun _ => spec_put_str)
    (fun _ w => CoreRun.IO_ok tt w)
    (String "010" EmptyString)
    (fun s => s)
    spec_traces.

(** An action that records the traces [ts] and then adds the declaration
    [d]. *)
Definition trace_then_add (ts : list string) (d : nat) : CoreM.CoreM_ unit :=
  CoreM.andThen (CoreRun.tracer_lambda_1 (fun _ => ts)) (CoreM.addDecl d).

(** A model of what [path.cpp] takes from the runtime: the separators are
    [/], [:] and [.]; paths are already normal and real; the names are those
    of [SpecModel]; the search path is [bin], [lib], and the only files are
    [lib/Init/Core.olean] and [lib/Init/Core.lean]. *)
Fixpoint spec_name_text (sep : string) (n : name) : string :=
  match n with
  | anonymous => "[anonymous]"
  | mk_string anonymous s _ => s
  | mk_string p s _ => spec_name_text sep p ++ sep ++ s
  | mk_numeral p _ _ => spec_name_text sep p
  end.

Definition spec_files : list string :=
  ["lib/Init/Core.olean"; "lib/Init/Core.lean"].

Definition path_externs_with
    (file_exists : string -> unit -> Path.IOResult unit bool) : Path.PathExterns := {|
  Path.RealWorld := unit;
  Path.String_splitAux_closed_1 := EmptyString;
  Path.System_FilePath_pathSeparator := "/";
  Path.System_FilePath_searchPathSeparator := ":";
  Path.System_FilePath_extSeparator := ".";
  Path.System_FilePath_normalizePathSeparators := fun s => s;
  Path.String_isPrefixOf := String.prefix;
  Path.lean_name_dec_eq := name_eq;
  Path.lean_name_mk_string := mk_str;
  Path.Name_toString_closed_1 := ".";
  Path.Name_toStringWithSep := spec_name_text;
  Path.lean_io_file_exists := file_exists;
  Path.lean_io_realpath := fun f w => Path.io_ok f w;
  Path.io_ref_get_searchPathRef := fun w => Path.io_ok ["bin"; "lib"] w
|}.

#[export] Instance spec_path_externs : Path.PathExterns :=
  path_externs_with (fun f w => Path.io_ok (existsb (String.eqb f) spec_files) w).

(** The same model with a directory [bin] that cannot be read: the test of
    a path under [bin] fails. *)
Definition guarded_path_externs : Path.PathExterns :=
  path_externs_with (fun f w =>
    if String.prefix "bin/" f then Path.io_error "permission denied" w
    else Path.io_ok (existsb (String.eqb f) spec_files) w).

Definition n_Init_Core : name := mk_str (mk_str anonymous "Init") "Core".

End ExtraModel.

(* ===================================================================== *)
(** * Properties of names                                                 *)
(* ===================================================================== *)

Module NameFacts.
Import Name.

Lemma eq_core_limbs (a b : name) : eq_core a b = true -> limbs a = limbs b.
Proof.
  revert b.
  induction a as [|p IH s h|p IH k h]; intros [|q t g|q l g]; simpl;
    try discriminate; try reflexivity.
  - intros Hb. apply andb_prop in Hb as [Hs Hp].
    apply String.eqb_eq in Hs. rewrite (IH q Hp). subst. reflexivity.
  - intros Hb. apply andb_prop in Hb as [Hk Hp].
    apply Nat.eqb_eq in Hk. rewrite (IH q Hp). subst. reflexivity.
Qed.

Lemma string_compare_refl (s : string) : String.compare s s = Eq.
Proof.
  pose proof (String.compare_antisym s s) as A.
  destruct (String.compare s s); simpl in A; congruence.
Qed.

Lemma cmp_limb_refl (x : limb) : cmp_limb x x = Eq.
Proof.
  destruct x as [s|k]; simpl.
  - apply string_compare_refl.
  - apply Nat.compare_refl.
Qed.

Lemma cmp_limbs_refl (l : list limb) : cmp_limbs l l = Eq.
Proof.
  induction l as [|x l IH]; simpl; [reflexivity|].
  rewrite cmp_limb_refl. exact IH.
Qed.

Lemma cmp_core_refl (a : name) : cmp_core a a = 0%Z.
Proof. unfold cmp_core. rewrite cmp_limbs_refl. reflexivity. Qed.

Lemma eq_core_cmp_core (a b : name) : eq_core a b = true -> cmp_core a b = 0%Z.
Proof.
  intros E. unfold cmp_core. rewrite (eq_core_limbs a b E).
  rewrite cmp_limbs_refl. reflexivity.
Qed.

Section WithIdentity.
Context `{ObjectIdentity}.
Hypothesis sound : same_object_sound.

Lemma raw_eq_sound (a b : name) : raw_eq a b = true -> a = b.
Proof.
  destruct a, b; simpl; try discriminate; try reflexivity; apply sound.
Qed.

Lemma name_eq_cases (a b : name) :
  name_eq a b = true -> a = b \/ (hash a = hash b /\ eq_core a b = true).
Proof.
  unfold name_eq.
  destruct (raw_eq a b) eqn:R; [left; apply raw_eq_sound; exact R|].
  destruct (Bool.eqb (is_scalar a) (is_scalar b)); simpl; [|discriminate].
  destruct (hash a =? hash b)%N eqn:Hh; simpl; [|discriminate].
  intros E. right. split; [apply N.eqb_eq; exact Hh | exact E].
Qed.

(** C8. Two names that [operator==] reports equal have the same hash, and
    when [quick_cmp] returns 0 the full comparison [cmp] returns 0 too. *)
Theorem hash_eq_consistency (n1 n2 : name) :
  (name_eq n1 n2 = true -> hash n1 = hash n2) /\
  (quick_cmp n1 n2 = 0%Z -> cmp n1 n2 = 0%Z).
Proof.
  split.
  - intros E. destruct (name_eq_cases n1 n2 E) as [->|[Hh _]]; [reflexivity|exact Hh].
  - unfold quick_cmp, cmp.
    destruct (raw_eq n1 n2) eqn:R.
    + intros _. rewrite (raw_eq_sound n1 n2 R). apply cmp_core_refl.
    + destruct (hash n1 =? hash n2)%N; simpl.
      * destruct (name_eq n1 n2) eqn:E; [|trivial].
        intros _. destruct (name_eq_cases n1 n2 E) as [->|[_ Hc]].
        -- apply cmp_core_refl.
        -- apply eq_core_cmp_core. exact Hc.
      * destruct (hash n1 <? hash n2)%N; discriminate.
Qed.

End WithIdentity.

Lemma no_sharing_sound : @same_object_sound SpecModel.no_sharing.
Proof. intros a b. simpl. discriminate. Qed.

(** [quick_cmp] orders by hash first: on [A] and [D] it follows the cached
    hashes, and it is 0 on neither side. *)
Example quick_cmp_A_D :
  @quick_cmp SpecModel.no_sharing SpecModel.nA SpecModel.nD = (-1)%Z /\
  @quick_cmp SpecModel.no_sharing SpecModel.nD SpecModel.nA = 1%Z /\
  cmp SpecModel.nA SpecModel.nD = (-1)%Z.
Proof. repeat split; vm_compute; reflexivity. Qed.

(** Two objects for the same components whose cached hashes differ are not
    equal for [operator==]: the hash test answers before [eq_core]. *)
Example name_eq_hash_mismatch :
  @name_eq SpecModel.no_sharing
    (mk_string anonymous "A" 1) (mk_string anonymous "A" 2) = false.
Proof. reflexivity. Qed.

(** [A.B] in the model without sharing: [operator==] holds, [quick_cmp]
    returns 0, and so the hashes are equal and [cmp] returns 0. *)
Lemma hash_eq_consistency_witness :
  @same_object_sound SpecModel.no_sharing /\
  @name_eq SpecModel.no_sharing SpecModel.nAB SpecModel.nAB = true /\
  @quick_cmp SpecModel.no_sharing SpecModel.nAB SpecModel.nAB = 0%Z /\
  hash SpecModel.nAB = hash SpecModel.nAB /\
  cmp SpecModel.nAB SpecModel.nAB = 0%Z.
Proof.
  destruct (@hash_eq_consistency SpecModel.no_sharing no_sharing_sound
              SpecModel.nAB SpecModel.nAB) as [Hh Hc].
  split; [exact no_sharing_sound|].
  split; [vm_compute; reflexivity|].
  split; [vm_compute; reflexivity|].
  split; [apply Hh; vm_compute; reflexivity|apply Hc; vm_compute; reflexivity].
Defined.

End NameFacts.

(* ===================================================================== *)
(** * Properties of the trace registry and of trace scopes                *)
(* ===================================================================== *)

Module TraceFacts.
Import Name Trace.

Lemma eq_core_refl (a : name) : eq_core a a = true.
Proof.
  induction a as [|p IH s h|p IH k h]; simpl; [reflexivity| |].
  - rewrite String.eqb_refl. exact IH.
  - rewrite Nat.eqb_refl. exact IH.
Qed.

Lemma name_eq_refl `{ObjectIdentity} (a : name) : name_eq a a = true.
Proof.
  unfold name_eq. destruct (raw_eq a a); [reflexivity|].
  rewrite Bool.eqb_reflx, N.eqb_refl. simpl. apply eq_core_refl.
Qed.

Lemma resize_length (n : nat) (v : list name) : length (resize n v) = n.
Proof.
  unfold resize. rewrite length_app, length_take, length_replicate. lia.
Qed.

Lemma resize_prefix (l v : list name) : l `prefix_of` v -> resize (length l) v = l.
Proof.
  intros [k ->]. unfold resize.
  rewrite take_app_length, length_app.
  replace (length l - (length l + length k)) with 0 by lia.
  simpl. apply app_nil_r.
Qed.

Section Matching.
Context `{ObjectIdentity} `{NameCpp}.

Lemma core_listed (cs : list name) (n : name) :
  is_trace_class_set_core cs n = true <-> listed cs n.
Proof.
  unfold listed. induction cs as [|p cs IH]; simpl.
  - split; [discriminate|]. intros (p & Hp & _). inversion Hp.
  - destruct (is_prefix_of p n) eqn:E.
    + split; [|reflexivity]. intros _. exists p. split; [left|exact E].
    + rewrite IH. split.
      * intros (q & Hq & Hpre). exists q. split; [right; exact Hq|exact Hpre].
      * intros (q & Hq & Hpre). apply elem_of_cons in Hq as [->|Hq].
        -- congruence.
        -- exists q. split; assumption.
Qed.

Lemma alias_fold (cs : list name) (l : list name) (b : bool) :
  foldl (alias_step cs) b l = b || existsb (is_trace_class_set_core cs) l.
Proof.
  revert b. induction l as [|x l IH]; intros b; simpl.
  - rewrite orb_false_r. reflexivity.
  - rewrite IH. unfold alias_step.
    destruct b, (is_trace_class_set_core cs x); reflexivity.
Qed.

Lemma alias_found_spec (aliases : trace_aliases) (cs : list name) (it : name) :
  alias_found aliases cs it = true <->
  exists s alias, aliases !! it = Some s /\ alias ∈ s /\ listed cs alias.
Proof.
  unfold alias_found. destruct (aliases !! it) as [s|] eqn:E.
  - rewrite alias_fold. simpl. rewrite existsb_exists. split.
    + intros (a & Ha & Hc). exists s, a. split; [reflexivity|]. split.
      * apply elem_of_elements, list_elem_of_In. exact Ha.
      * apply core_listed. exact Hc.
    + intros (s' & a & Hs & Ha & Hc). inversion Hs; subst s'.
      exists a. split.
      * apply list_elem_of_In, elem_of_elements. exact Ha.
      * apply core_listed. exact Hc.
  - split; [discriminate|]. intros (s & a & Hs & _). discriminate.
Qed.

Lemma loop_unfold (aliases : trace_aliases) (cs : list name) (it : name) :
  is_trace_class_set_loop aliases cs it =
  if alias_found aliases cs it then true
  else if is_atomic it then false
  else is_trace_class_set_loop aliases cs (get_prefix it).
Proof. destruct it; reflexivity. Qed.

Lemma prefix_chain_unfold (n : name) :
  prefix_chain n = n :: (if is_atomic n then [] else prefix_chain (get_prefix n)).
Proof. destruct n; reflexivity. Qed.

Lemma loop_spec (aliases : trace_aliases) (cs : list name) (it : name) :
  is_trace_class_set_loop aliases cs it = true <->
  exists q, q ∈ prefix_chain it /\ alias_found aliases cs q = true.
Proof.
  induction it as [|p IH s h|p IH k h].
  - simpl. destruct (alias_found aliases cs anonymous) eqn:E.
    + split; [|reflexivity]. intros _. exists anonymous. split; [left|exact E].
    + split; [discriminate|]. intros (q & Hq & Hf).
      apply list_elem_of_singleton in Hq. congruence.
  - rewrite loop_unfold, prefix_chain_unfold.
    destruct (alias_found aliases cs (mk_string p s h)) eqn:E.
    + split; [|reflexivity]. intros _. eexists. split; [left|exact E].
    + destruct (is_atomic (mk_string p s h)).
      * split; [discriminate|]. intros (q & Hq & Hf).
        apply list_elem_of_singleton in Hq. congruence.
      * simpl get_prefix. rewrite IH. split.
        -- intros (q & Hq & Hf). exists q. split; [right; exact Hq|exact Hf].
        -- intros (q & Hq & Hf). apply elem_of_cons in Hq as [->|Hq];
             [congruence|]. exists q. split; assumption.
  - rewrite loop_unfold, prefix_chain_unfold.
    destruct (alias_found aliases cs (mk_numeral p k h)) eqn:E.
    + split; [|reflexivity]. intros _. eexists. split; [left|exact E].
    + destruct (is_atomic (mk_numeral p k h)).
      * split; [discriminate|]. intros (q & Hq & Hf).
        apply list_elem_of_singleton in Hq. congruence.
      * simpl get_prefix. rewrite IH. split.
        -- intros (q & Hq & Hf). exists q. split; [right; exact Hq|exact Hf].
        -- intros (q & Hq & Hf). apply elem_of_cons in Hq as [->|Hq];
             [congruence|]. exists q. split; assumption.
Qed.

(** The code's [is_trace_class_set] decides the specification's "matched". *)
Lemma is_trace_class_set_spec (aliases : trace_aliases) (cs : list name) (n : name) :
  is_trace_class_set aliases cs n = true <-> matched aliases cs n.
Proof.
  unfold is_trace_class_set, matched.
  destruct (is_trace_class_set_core cs n) eqn:E.
  - split; [|reflexivity]. intros _. left. apply core_listed. exact E.
  - rewrite loop_spec. split.
    + intros (q & Hq & Hf). right.
      apply alias_found_spec in Hf as (s & a & Hs & Ha & Hl).
      exists q, s, a. auto.
    + intros [Hl|(q & s & a & Hq & Hs & Ha & Hl)].
      * apply core_listed in Hl. congruence.
      * exists q. split; [exact Hq|]. apply alias_found_spec. exists s, a. auto.
Qed.

Lemma is_trace_class_set_false (aliases : trace_aliases) (cs : list name) (n : name) :
  is_trace_class_set aliases cs n = false <-> ~ matched aliases cs n.
Proof.
  rewrite <- is_trace_class_set_spec.
  destruct (is_trace_class_set aliases cs n); split; congruence.
Qed.

Lemma update_class_prefix (cs : list name) (c : name) :
  cs `prefix_of` update_class cs c.
Proof.
  unfold update_class. destruct (existsb _ cs); simpl.
  - reflexivity.
  - exists [c]. reflexivity.
Qed.

Lemma update_class_nonempty (cs : list name) (c : name) : update_class cs c <> [].
Proof.
  unfold update_class. destruct (existsb _ cs) eqn:E; simpl.
  - destruct cs; [discriminate|congruence].
  - destruct cs; discriminate.
Qed.

Lemma update_class_listed (cs : list name) (c : name) :
  prefix_of_equal -> listed (update_class cs c) c.
Proof.
  intros Hrefl. unfold update_class, listed.
  destruct (existsb (fun x => name_eq x c) cs) eqn:E; simpl.
  - apply existsb_exists in E as (x & Hx & Hxc).
    exists x. split; [apply list_elem_of_In; exact Hx|apply Hrefl; exact Hxc].
  - exists c. split.
    + apply elem_of_app. right. left.
    + apply Hrefl, name_eq_refl.
Qed.

Lemma register_alias_lookup (n alias : name) (aliases : trace_aliases) :
  exists s, register_trace_class_alias n alias aliases !! n = Some s /\ alias ∈ s.
Proof.
  unfold register_trace_class_alias. eexists. split.
  - apply lookup_insert_eq.
  - set_solver.
Qed.

(** C5. [is_trace_class_enabled n] is true exactly when the enabled list is
    not empty, [n] is not matched in the disabled list and [n] is matched in
    the enabled list, where "matched" walks the prefix chain of [n] and
    looks at the aliases registered for each prefix.  In particular, once
    [D] is registered as an alias of a class [AB] on the prefix chain of [n]
    (as [A.B] is for [A.B.C]) and [D] is enabled, [n] is enabled unless it
    is matched in the disabled list. *)
Theorem is_trace_class_enabled_spec :
  prefix_of_equal ->
  (forall (aliases : trace_aliases) (st : thread_state) (n : name),
      is_trace_class_enabled aliases st n = true <->
      enabled_trace_classes st <> [] /\
      ~ matched aliases (disabled_trace_classes st) n /\
      matched aliases (enabled_trace_classes st) n) /\
  (forall (aliases : trace_aliases) (st : thread_state) (AB D n : name),
      AB ∈ prefix_chain n ->
      let aliases' := register_trace_class_alias AB D aliases in
      let st' := enable_trace_class D st in
      ~ matched aliases' (disabled_trace_classes st') n ->
      is_trace_class_enabled aliases' st' n = true).
Proof.
  intros Hrefl.
  assert (Hiff : forall (aliases : trace_aliases) (st : thread_state) (n : name),
      is_trace_class_enabled aliases st n = true <->
      enabled_trace_classes st <> [] /\
      ~ matched aliases (disabled_trace_classes st) n /\
      matched aliases (enabled_trace_classes st) n).
  { intros aliases st n. unfold is_trace_class_enabled, is_trace_enabled.
    rewrite negb_involutive.
    destruct (bool_decide_reflect (enabled_trace_classes st = [])) as [Hn|Hn].
    - split; [discriminate|]. intros [Hne _]. contradiction.
    - destruct (is_trace_class_set aliases (disabled_trace_classes st) n) eqn:Hd.
      + split; [discriminate|]. intros (_ & Hnd & _).
        apply is_trace_class_set_spec in Hd. contradiction.
      + rewrite is_trace_class_set_spec. split.
        * intros Hm. split; [exact Hn|]. split; [|exact Hm].
          apply is_trace_class_set_false. exact Hd.
        * intros (_ & _ & Hm). exact Hm. }
  split; [exact Hiff|].
  intros aliases st AB D n Hchain aliases' st' Hnd.
  apply Hiff. split; [|split].
  - simpl. apply update_class_nonempty.
  - exact Hnd.
  - right. destruct (register_alias_lookup AB D aliases) as (s & Hs & HD).
    exists AB, s, D. split; [exact Hchain|]. split; [exact Hs|]. split; [exact HD|].
    simpl. apply update_class_listed. exact Hrefl.
Qed.

End Matching.

Section Scopes.
Context `{ObjectIdentity} `{NameCpp} `{OptionsImpl}.

Lemma grows_refl (st : thread_state) : grows st st.
Proof. split; reflexivity. Qed.

Lemma grows_same_lists (a b : thread_state) :
  enabled_trace_classes a = enabled_trace_classes b ->
  disabled_trace_classes a = disabled_trace_classes b -> grows a b.
Proof. intros E D. unfold grows. rewrite E, D. split; reflexivity. Qed.

Lemma grows_trans (a b c : thread_state) : grows a b -> grows b c -> grows a c.
Proof. intros [E1 D1] [E2 D2]. split; etrans; eassumption. Qed.

Lemma init_option_grows (opts : options) (trace : name) (st : thread_state) (n : name) :
  grows st (init_option opts trace st n).
Proof.
  unfold init_option. destruct (is_prefix_of trace n); [|apply grows_refl].
  destruct (get_bool opts n false); split; simpl;
    try reflexivity; apply update_class_prefix.
Qed.

Lemma init_options_grows (opts : options) (trace : name) (ns : list name)
    (st : thread_state) :
  grows st (foldl (init_option opts trace) st ns).
Proof.
  revert st. induction ns as [|n ns IH]; intros st; simpl.
  - apply grows_refl.
  - eapply grows_trans; [apply init_option_grows|apply IH].
Qed.

(** Interpreting the options does not touch the bound pointers. *)
Lemma init_option_bound (opts : options) (trace : name) (st : thread_state) (n : name) :
  g_env (init_option opts trace st n) = g_env st /\
  g_ctx (init_option opts trace st n) = g_ctx st.
Proof.
  unfold init_option. destruct (is_prefix_of trace n); [|split; reflexivity].
  destruct (get_bool opts n false); split; reflexivity.
Qed.

Lemma init_options_bound (opts : options) (trace : name) (ns : list name)
    (st : thread_state) :
  g_env (foldl (init_option opts trace) st ns) = g_env st /\
  g_ctx (foldl (init_option opts trace) st ns) = g_ctx st.
Proof.
  revert st. induction ns as [|n ns IH]; intros st; simpl.
  - split; reflexivity.
  - destruct (IH (init_option opts trace st n)) as [E C].
    destruct (init_option_bound opts trace st n) as [E' C'].
    split; congruence.
Qed.

(** [init] records the lengths and the bound triple found at entry, binds
    the new triple, and leaves the old lists as prefixes of the new ones. *)
Lemma init_spec (env opts ctx : ptr) (st : thread_state) :
  let '(this, st1) := init env opts ctx st in
  m_enable_sz this = length (enabled_trace_classes st) /\
  m_disable_sz this = length (disabled_trace_classes st) /\
  m_old_env this = g_env st /\ m_old_opts this = g_opts st /\
  m_old_ctx this = g_ctx st /\
  g_env st1 = env /\ g_opts st1 = opts /\ g_ctx st1 = ctx /\
  grows st st1.
Proof.
  unfold init. destruct opts as [a|]; simpl.
  - destruct (bool_decide (g_opts st = Some a)); simpl.
    + repeat (split; [reflexivity|]). apply grows_same_lists; reflexivity.
    + repeat (split; [reflexivity|]).
      pose proof (init_options_bound (options_at a) (name_str anonymous "trace")
                    (for_each_key (options_at a))
                    (mk_thread_state (enabled_trace_classes st)
                       (disabled_trace_classes st) env (g_opts st) ctx)) as [Be Bc].
      simpl in Be, Bc.
      split; [exact Be|]. split; [reflexivity|]. split; [exact Bc|].
      pose proof (init_options_grows (options_at a) (name_str anonymous "trace")
                    (for_each_key (options_at a))
                    (mk_thread_state (enabled_trace_classes st)
                       (disabled_trace_classes st) env (g_opts st) ctx)) as [E D].
      simpl in E, D. split; simpl; [exact E|exact D].
  - repeat (split; [reflexivity|]). apply grows_same_lists; reflexivity.
Qed.

(** After [init], a well nested body and the destructor, the two class lists
    are those found before [init]. *)
Lemma destroy_after_init {A E : Type} (env opts ctx : ptr)
    (body : thread_state -> exit A E * thread_state) (st : thread_state) :
  well_nested body ->
  let st' :=
    scope_trace_env_destroy (init env opts ctx st).1
      (body (init env opts ctx st).2).2 in
  enabled_trace_classes st' = enabled_trace_classes st /\
  disabled_trace_classes st' = disabled_trace_classes st.
Proof.
  intros Hw. pose proof (init_spec env opts ctx st) as HI.
  destruct (init env opts ctx st) as [this st1].
  destruct HI as (Hes & Hds & _ & _ & _ & _ & _ & _ & Hg).
  destruct (grows_trans _ _ _ Hg (Hw st1)) as [E1 D1].
  simpl. rewrite Hes, Hds. split; apply resize_prefix; assumption.
Qed.

Lemma scoped_unfold {A E : Type} (env opts ctx : ptr)
    (body : thread_state -> exit A E * thread_state) (st : thread_state) :
  scoped env opts ctx body st =
  ((body (init env opts ctx st).2).1,
   scope_trace_env_destroy (init env opts ctx st).1
     (body (init env opts ctx st).2).2).
Proof.
  unfold scoped. destruct (init env opts ctx st) as [this st1]. simpl.
  destruct (body st1) as [r st2]. reflexivity.
Qed.

(** C6. Leaving a trace scope restores the environment, options and
    type-context pointers that were bound at entry and cuts both class lists
    back to the lengths they had at entry, whether the body returned or an
    exception propagates; the outcome of the body is passed on unchanged.
    When the body is well nested the two lists are exactly those found at
    entry. *)
Theorem scope_exit_restores {A E : Type} (env opts ctx : ptr)
    (body : thread_state -> exit A E * thread_state) (st : thread_state) :
  let res := scoped env opts ctx body st in
  res.1 = (body (init env opts ctx st).2).1 /\
  g_env res.2 = g_env st /\ g_opts res.2 = g_opts st /\ g_ctx res.2 = g_ctx st /\
  length (enabled_trace_classes res.2) = length (enabled_trace_classes st) /\
  length (disabled_trace_classes res.2) = length (disabled_trace_classes st) /\
  (well_nested body ->
   enabled_trace_classes res.2 = enabled_trace_classes st /\
   disabled_trace_classes res.2 = disabled_trace_classes st).
Proof.
  cbv zeta. rewrite scoped_unfold. cbn [fst snd].
  split; [reflexivity|].
  pose proof (init_spec env opts ctx st) as HI.
  destruct (init env opts ctx st) as [this st1] eqn:Hinit.
  destruct HI as (Hes & Hds & Hoe & Hoo & Hoc & _).
  cbn [fst snd scope_trace_env_destroy g_env g_opts g_ctx
       enabled_trace_classes disabled_trace_classes].
  repeat (split; [assumption|]).
  rewrite !resize_length. split; [exact Hes|]. split; [exact Hds|].
  intros Hw. pose proof (destroy_after_init env opts ctx body st Hw) as HD.
  rewrite Hinit in HD. exact HD.
Qed.

(** Scopes nest: a scope around a well nested body is a well nested body
    (it even leaves the lists as they were). *)
Lemma scoped_well_nested {A E : Type} (env opts ctx : ptr)
    (body : thread_state -> exit A E * thread_state) :
  well_nested body -> well_nested (scoped env opts ctx body).
Proof.
  intros Hw st. rewrite scoped_unfold. cbn [snd].
  destruct (destroy_after_init env opts ctx body st Hw) as [E1 D1].
  apply grows_same_lists; [rewrite E1|rewrite D1]; reflexivity.
Qed.

End Scopes.

Section Examples.
#[local] Existing Instance SpecModel.no_sharing.
#[local] Existing Instance SpecModel.spec_name_cpp.
#[local] Existing Instance SpecModel.spec_options.

Lemma spec_prefix_of_equal : prefix_of_equal.
Proof. intros a b E. destruct b; simpl; rewrite E; reflexivity. Qed.

(** The model of [name.cpp] on a few names. *)
Example is_prefix_of_A_ABC : is_prefix_of SpecModel.nA SpecModel.nABC = true.
Proof. reflexivity. Qed.

Example is_prefix_of_D_ABC : is_prefix_of SpecModel.nD SpecModel.nABC = false.
Proof. reflexivity. Qed.

Example replace_prefix_trace :
  replace_prefix SpecModel.n_trace_AB (name_str anonymous "trace") anonymous
    = SpecModel.nAB.
Proof. reflexivity. Qed.

Example replace_prefix_other :
  replace_prefix SpecModel.nABC SpecModel.nD anonymous = SpecModel.nABC.
Proof. reflexivity. Qed.

(** Disabling wins: with [A] enabled and [A.B] disabled, [A.B.C] is not
    enabled while [A] still is. *)
Example disabled_takes_precedence :
  is_trace_class_enabled ∅
    (mk_thread_state [SpecModel.nA] [SpecModel.nAB] None None None) SpecModel.nABC
    = false /\
  is_trace_class_enabled ∅
    (mk_thread_state [SpecModel.nA] [SpecModel.nAB] None None None) SpecModel.nA
    = true.
Proof. split; reflexivity. Qed.

(** Without the alias, enabling [D] does not enable [A.B.C]. *)
Example no_alias_no_match :
  is_trace_class_enabled ∅
    (enable_trace_class SpecModel.nD SpecModel.fresh_thread) SpecModel.nABC = false.
Proof. reflexivity. Qed.

(** Alias [D] registered for [A.B] and [D] enabled in a fresh thread:
    [A.B.C] is enabled. *)
Lemma is_trace_class_enabled_witness :
  prefix_of_equal /\
  SpecModel.nAB ∈ prefix_chain SpecModel.nABC /\
  enabled_trace_classes (enable_trace_class SpecModel.nD SpecModel.fresh_thread)
    = [SpecModel.nD] /\
  is_trace_class_set SpecModel.alias_D_for_AB [] SpecModel.nABC = false /\
  is_trace_class_enabled SpecModel.alias_D_for_AB
    (enable_trace_class SpecModel.nD SpecModel.fresh_thread) SpecModel.nABC = true.
Proof.
  assert (Hc : SpecModel.nAB ∈ prefix_chain SpecModel.nABC) by (right; left).
  split; [exact spec_prefix_of_equal|]. split; [exact Hc|].
  split; [reflexivity|]. split; [reflexivity|].
  apply (proj2 (is_trace_class_enabled_spec spec_prefix_of_equal)
           ∅ SpecModel.fresh_thread SpecModel.nAB SpecModel.nD SpecModel.nABC Hc).
  apply is_trace_class_set_false. reflexivity.
Defined.

(** Enabled list [[A]]; a scope whose options set [trace.A.B = true] and
    whose body is left by an exception.  Inside the scope the list is
    [[A; A.B]], after the scope it is [[A]] again, and the exception is
    passed on. *)
Lemma scope_exit_restores_witness :
  well_nested SpecModel.failing_body /\
  enabled_trace_classes
    (init (Some 5%N) (Some 1%N) (Some 7%N) SpecModel.thread_A).2
    = [SpecModel.nA; SpecModel.nAB] /\
  (scoped (Some 5%N) (Some 1%N) (Some 7%N) SpecModel.failing_body
     SpecModel.thread_A).1 = propagated "failure" /\
  enabled_trace_classes
    (scoped (Some 5%N) (Some 1%N) (Some 7%N) SpecModel.failing_body
       SpecModel.thread_A).2 = [SpecModel.nA] /\
  disabled_trace_classes
    (scoped (Some 5%N) (Some 1%N) (Some 7%N) SpecModel.failing_body
       SpecModel.thread_A).2 = [] /\
  g_opts
    (scoped (Some 5%N) (Some 1%N) (Some 7%N) SpecModel.failing_body
       SpecModel.thread_A).2 = None.
Proof.
  destruct (scope_exit_restores (Some 5%N) (Some 1%N) (Some 7%N)
              SpecModel.failing_body SpecModel.thread_A)
    as (Hr & _ & Ho & _ & _ & _ & Hl).
  assert (Hw : well_nested SpecModel.failing_body)
    by (intros s; apply grows_same_lists; reflexivity).
  destruct (Hl Hw) as [He Hd].
  split; [exact Hw|]. split; [vm_compute; reflexivity|].
  split; [exact Hr|]. split; [exact He|]. split; [exact Hd|exact Ho].
Defined.

End Examples.

End TraceFacts.

(* ===================================================================== *)
(** * Properties of the core monad                                        *)
(* ===================================================================== *)

Module CoreMFacts.
Import Name CoreM.

Section Core.
Context `{Collaborators}.

Lemma getEnv_eq (ctx : Context) (w : World) : getEnv ctx w = ok (env (cell w)) w.
Proof. reflexivity. Qed.

Lemma setEnv_eq (e : Environment) (ctx : Context) (w : World) :
  setEnv e ctx w = ok tt (with_env e w).
Proof. reflexivity. Qed.

Lemma modifyEnv_eq (f : Environment -> Environment) (ctx : Context) (w : World) :
  modifyEnv f ctx w = ok tt (with_env (f (env (cell w))) w).
Proof. reflexivity. Qed.

(** [getEnv] after [setEnv] reads what was set. *)
Lemma getEnv_setEnv (e : Environment) (ctx : Context) (w : World) :
  andThen (setEnv e) getEnv ctx w = ok e (with_env e w).
Proof. reflexivity. Qed.

Lemma addDecl_ok (decl : Declaration) (ctx : Context) (w : World) (e : Environment) :
  lean_add_decl (env (cell w)) decl = Except_ok e ->
  addDecl decl ctx w = ok tt (with_env e w).
Proof. intros E. unfold addDecl. simpl. rewrite E. reflexivity. Qed.

Lemma addDecl_error (decl : Declaration) (ctx : Context) (w : World)
    (ex : KernelException) :
  lean_add_decl (env (cell w)) decl = Except_error ex ->
  addDecl decl ctx w = error (Exception_kernel ex (options ctx)) w.
Proof. intros E. unfold addDecl. simpl. rewrite E. reflexivity. Qed.

Lemma compileDecl_error (decl : Declaration) (ctx : Context) (w : World)
    (ex : KernelException) :
  lean_compile_decl (env (cell w)) (options ctx) decl = Except_error ex ->
  compileDecl decl ctx w = error (Exception_kernel ex (options ctx)) w.
Proof. intros E. unfold compileDecl. simpl. rewrite E. reflexivity. Qed.

Lemma compileDecl_ok (decl : Declaration) (ctx : Context) (w : World)
    (e : Environment) :
  lean_compile_decl (env (cell w)) (options ctx) decl = Except_ok e ->
  compileDecl decl ctx w = ok tt (with_env e w).
Proof. intros E. unfold compileDecl. simpl. rewrite E. reflexivity. Qed.

(** C1. When the kernel accepts a declaration and the compiler rejects it,
    [addAndCompile] returns the compiler's exception, and the world it
    returns is the one [addDecl] alone produces: the environment read
    afterwards is the one the kernel returned for the declaration, and the
    name generator and the trace state are as before. *)
Theorem addAndCompile_keeps_addDecl (decl : Declaration) (ctx : Context)
    (w : World) (e1 : Environment) (ex : KernelException) :
  lean_add_decl (env (cell w)) decl = Except_ok e1 ->
  lean_compile_decl e1 (options ctx) decl = Except_error ex ->
  exists w',
    addAndCompile decl ctx w = error (Exception_kernel ex (options ctx)) w' /\
    addDecl decl ctx w = ok tt w' /\
    getEnv ctx w' = ok e1 w' /\
    w' = with_env e1 w.
Proof.
  intros Ha Hc. exists (with_env e1 w).
  unfold addAndCompile. rewrite (addDecl_ok decl ctx w e1 Ha).
  rewrite (compileDecl_error decl ctx (with_env e1 w) ex Hc).
  repeat split.
Qed.

(** C2. At the limit [withIncRecDepth] fails with the recursion error,
    whatever the action is, and returns the world it was given; below the
    limit it is the action run in the context whose depth is one more.  In a
    run whose limit is 3, three nested calls run their three bodies (here
    each body changes the environment with [f]) and a fourth nested call
    fails, whatever its body is, after the three outer bodies have run. *)
Theorem withIncRecDepth_spec :
  (forall (α : Type) (x : CoreM_ α) (ctx : Context) (w : World),
      currRecDepth ctx = maxRecDepth ctx ->
      withIncRecDepth x ctx w = error (maxRecDepthException ctx) w) /\
  (forall (α : Type) (x : CoreM_ α) (ctx : Context) (w : World),
      currRecDepth ctx <> maxRecDepth ctx ->
      withIncRecDepth x ctx w = x (Context_incCurrRecDepth ctx) w /\
      currRecDepth (Context_incCurrRecDepth ctx) = currRecDepth ctx + 1 /\
      maxRecDepth (Context_incCurrRecDepth ctx) = maxRecDepth ctx) /\
  (forall (opts : Options) (e0 : Environment) (f : Environment -> Environment),
      getMaxRecDepth opts = 3 ->
      let ctx := run_context opts in
      let w := mk_World (run_state e0) in
      let body := modifyEnv f in
      withIncRecDepth (andThen body
        (withIncRecDepth (andThen body
          (withIncRecDepth body)))) ctx w
        = ok tt (with_env (f (f (f e0))) w) /\
      forall body4 : CoreM_ unit,
        withIncRecDepth (andThen body
          (withIncRecDepth (andThen body
            (withIncRecDepth (andThen body
              (withIncRecDepth body4)))))) ctx w
          = error (maxRecDepthException ctx) (with_env (f (f (f e0))) w)).
Proof.
  split; [|split].
  - intros α x ctx w E. unfold withIncRecDepth, checkRecDepth.
    rewrite E, Nat.eqb_refl. reflexivity.
  - intros α x ctx w E. unfold withIncRecDepth, checkRecDepth.
    apply Nat.eqb_neq in E. rewrite E. simpl. repeat split.
  - intros opts e0 f E ctx w body.
    unfold ctx, run_context, withIncRecDepth, checkRecDepth, andThen. simpl.
    rewrite E. simpl. split; [reflexivity|]. intros body4. reflexivity.
Qed.

(** C3. [addDecl] runs the kernel on the environment of the state; when the
    kernel returns a new environment it is stored in the state (nothing
    else changes) and the result is [ok]; when the kernel fails the world is
    returned as it was, with the kernel's exception wrapped in
    [Exception.kernel]. *)
Theorem addDecl_spec (decl : Declaration) (ctx : Context) (w : World) :
  addDecl decl ctx w =
  match lean_add_decl (env (cell w)) decl with
  | Except_ok e1 =>
      ok tt (mk_World (mk_State e1 (ngen (cell w)) (traceState (cell w))))
  | Except_error ex => error (Exception_kernel ex (options ctx)) w
  end.
Proof.
  destruct (lean_add_decl (env (cell w)) decl) as [ex|e1] eqn:E.
  - apply addDecl_error. exact E.
  - apply addDecl_ok. exact E.
Qed.

(** C4, as the code has it. Every exception that [addDecl] raises is an
    [Exception.kernel] that holds the kernel's exception and the options of
    the context (not the environment); [toMessageData] hands exactly these
    two to the kernel's formatter, renders an I/O error as the text of
    [lean_io_error_to_string], and returns the message of an elaboration
    error unchanged. *)
Theorem kernel_failure_carries_options :
  (forall (decl : Declaration) (ctx : Context) (w w' : World) (e : Exception),
      addDecl decl ctx w = error e w' ->
      exists ex,
        lean_add_decl (env (cell w)) decl = Except_error ex /\
        e = Exception_kernel ex (options ctx) /\ w' = w) /\
  (forall (ex : KernelException) (opts : Options),
      Exception_toMessageData (Exception_kernel ex opts)
        = KernelException_toMessageData ex opts) /\
  (forall ex : IOError,
      Exception_toMessageData (Exception_io ex)
        = ofFormat (Format_text (lean_io_error_to_string ex))) /\
  (forall (r : Syntax) (msg : MessageData),
      Exception_toMessageData (Exception_error r msg) = msg).
Proof.
  split; [|repeat split].
  intros decl ctx w w' e.
  destruct (lean_add_decl (env (cell w)) decl) as [ex|e1] eqn:K.
  - rewrite (addDecl_error decl ctx w ex K).
    intros E. injection E as <- <-. exists ex. repeat split.
  - rewrite (addDecl_ok decl ctx w e1 K). discriminate.
Qed.

Lemma mkFreshId_eq (ctx : Context) (w : World) :
  mkFreshId ctx w =
  ok (lean_name_mk_numeral (namePrefix (ngen (cell w))) (idx (ngen (cell w))))
     (mk_World (mk_State (env (cell w))
        (mk_NameGenerator (namePrefix (ngen (cell w))) (idx (ngen (cell w)) + 1))
        (traceState (cell w)))).
Proof. reflexivity. Qed.

Lemma lean_name_mk_numeral_inj (p : name) : Inj (=) (=) (lean_name_mk_numeral p).
Proof. intros i j E. unfold lean_name_mk_numeral in E. congruence. Qed.

Lemma mkFreshIds_eq (k : nat) (ctx : Context) (w : World) :
  mkFreshIds k ctx w =
  (lean_name_mk_numeral (namePrefix (ngen (cell w)))
     <$> seq (idx (ngen (cell w))) k,
   match k with
   | 0 => w
   | S _ =>
       mk_World (mk_State (env (cell w))
         (mk_NameGenerator (namePrefix (ngen (cell w))) (idx (ngen (cell w)) + k))
         (traceState (cell w)))
   end).
Proof.
  revert w. induction k as [|k IH]; intros w; [reflexivity|].
  cbn [mkFreshIds]. rewrite mkFreshId_eq, IH. cbn [cell ngen namePrefix idx env traceState].
  rewrite Nat.add_1_r. cbn [seq fmap list_fmap]. f_equal.
  destruct k; cbn [cell ngen namePrefix idx env traceState].
  - rewrite Nat.add_1_r. reflexivity.
  - f_equal. f_equal. f_equal. lia.
Qed.

(** C7. [k] successive calls of [mkFreshId] return [k] identifiers that are
    pairwise distinct: the [i]-th one is the numeral name made of the prefix
    of the generator and of its counter plus [i], and every call leaves the
    counter one higher. *)
Theorem mkFreshId_distinct (k : nat) (ctx : Context) (w : World) :
  let g := ngen (cell w) in
  let res := mkFreshIds k ctx w in
  length res.1 = k /\
  NoDup res.1 /\
  res.1 = (fun i => lean_name_mk_numeral (namePrefix g) (idx g + i)) <$> seq 0 k /\
  idx (ngen (cell res.2)) = idx g + k.
Proof.
  intros g res. unfold res. rewrite mkFreshIds_eq. cbn [fst snd]. repeat split.
  - rewrite length_fmap, length_seq. reflexivity.
  - apply (@NoDup_fmap_2 _ _ _ (lean_name_mk_numeral_inj _)), NoDup_seq.
  - unfold g. pose proof (fmap_add_seq (idx (ngen (cell w))) 0 k) as S.
    rewrite Nat.add_0_r in S. rewrite <- S, <- list_fmap_compose. reflexivity.
  - destruct k; simpl; unfold g; lia.
Qed.

(** C9. [mkFreshId] always returns [ok]; in the world it returns, the
    environment and the trace state are those of the world it was given, and
    so is the prefix of the name generator. *)
Theorem mkFreshId_frame (ctx : Context) (w : World) :
  exists n w',
    mkFreshId ctx w = ok n w' /\
    env (cell w') = env (cell w) /\
    traceState (cell w') = traceState (cell w) /\
    namePrefix (ngen (cell w')) = namePrefix (ngen (cell w)).
Proof. rewrite mkFreshId_eq. eexists _, _. repeat split. Qed.

End Core.

Section Examples.
#[local] Existing Instance SpecModel.spec_collaborators.

(** In the model an environment is the list of the declarations added so
    far; the kernel accepts declaration 3 in the empty environment and the
    compiler rejects it (it is odd).  [addAndCompile] returns the compiler's
    exception and the environment read afterwards contains 3. *)
Lemma addAndCompile_keeps_addDecl_witness :
  lean_add_decl (env (cell (SpecModel.world_of []))) 3 = Except_ok [3] /\
  lean_compile_decl [3] (options SpecModel.run3) 3
    = Except_error "compilation failed" /\
  exists w',
    addAndCompile 3 SpecModel.run3 (SpecModel.world_of [])
      = error (Exception_kernel "compilation failed" 3) w' /\
    addDecl 3 SpecModel.run3 (SpecModel.world_of []) = ok tt w' /\
    getEnv SpecModel.run3 w' = ok [3] w' /\
    w' = with_env [3] (SpecModel.world_of []).
Proof.
  split; [reflexivity|]. split; [reflexivity|].
  exact (@addAndCompile_keeps_addDecl SpecModel.spec_collaborators
           3 SpecModel.run3 (SpecModel.world_of []) [3] "compilation failed"
           eq_refl eq_refl).
Defined.

(** A run whose limit is 3; each body puts a 0 in front of the environment.
    Three nested calls give the environment [[0; 0; 0]]; with a fourth
    nested call, whose body would put a 9, the result is the recursion error
    and the environment is [[0; 0; 0]] too.  At depth 3 of 3 the call fails
    at once; at depth 2 of 3 it runs the action at depth 3. *)
Lemma withIncRecDepth_witness :
  (withIncRecDepth (andThen (SpecModel.push 0)
     (withIncRecDepth (andThen (SpecModel.push 0)
       (withIncRecDepth (SpecModel.push 0)))))
     SpecModel.run3 (SpecModel.world_of [])
     = ok tt (with_env [0; 0; 0] (SpecModel.world_of [])) /\
   withIncRecDepth (andThen (SpecModel.push 0)
     (withIncRecDepth (andThen (SpecModel.push 0)
       (withIncRecDepth (andThen (SpecModel.push 0)
         (withIncRecDepth (SpecModel.push 9)))))))
     SpecModel.run3 (SpecModel.world_of [])
     = error (maxRecDepthException SpecModel.run3)
         (with_env [0; 0; 0] (SpecModel.world_of []))) /\
  withIncRecDepth (SpecModel.push 0) (mk_Context 3 3 3 tt) (SpecModel.world_of [])
    = error (maxRecDepthException (mk_Context 3 3 3 tt)) (SpecModel.world_of []) /\
  withIncRecDepth (SpecModel.push 0) (mk_Context 3 2 3 tt) (SpecModel.world_of [])
    = SpecModel.push 0 (mk_Context 3 3 3 tt) (SpecModel.world_of []).
Proof.
  destruct (@withIncRecDepth_spec SpecModel.spec_collaborators)
    as (Hlimit & Hbelow & Hnest).
  split; [|split].
  - destruct (Hnest (3 : nat) ([] : list nat) (cons 0) eq_refl) as [H3 H4].
    split; [exact H3|exact (H4 (SpecModel.push 9))].
  - exact (Hlimit unit (SpecModel.push 0)
             (@mk_Context SpecModel.spec_collaborators 3 3 3 tt)
             (SpecModel.world_of []) eq_refl).
  - destruct (Hbelow unit (SpecModel.push 0)
                (@mk_Context SpecModel.spec_collaborators 3 2 3 tt)
                (SpecModel.world_of [])) as [Hrun _].
    + simpl. lia.
    + exact Hrun.
Defined.

(** In the model the kernel accepts declaration 4 in the environment [[1]]
    and rejects declaration 1. *)
Lemma addDecl_spec_witness :
  addDecl 4 SpecModel.run3 (SpecModel.world_of [1])
    = ok tt (with_env [4; 1] (SpecModel.world_of [1])) /\
  addDecl 1 SpecModel.run3 (SpecModel.world_of [1])
    = error (Exception_kernel "already declared" 3) (SpecModel.world_of [1]).
Proof.
  split.
  - exact (@addDecl_spec SpecModel.spec_collaborators 4 SpecModel.run3
             (SpecModel.world_of [1])).
  - exact (@addDecl_spec SpecModel.spec_collaborators 1 SpecModel.run3
             (SpecModel.world_of [1])).
Defined.

(** C4, counterexample. In the model, declaration 0 is rejected both in the
    environment [[0]] and in the environment [[0; 1]], in the same context;
    [addDecl] raises the same exception in the two cases, so that no
    projection of the exception gives back the environment of the failed
    check. *)
Lemma kernel_failure_holds_environment_counterexample :
  ~ kernel_failure_holds_environment.
Proof.
  intros [payload Hp].
  pose proof (Hp (0 : nat) SpecModel.run3 (SpecModel.world_of [0]) _ _ eq_refl) as H1.
  pose proof (Hp (0 : nat) SpecModel.run3 (SpecModel.world_of [0; 1]) _ _ eq_refl) as H2.
  simpl in H1, H2. rewrite H1 in H2. discriminate H2.
Qed.

(** In the model, declaration 0 is rejected in the environment [[0]]: the
    exception holds the kernel's text and the options 3 of the context. *)
Lemma kernel_failure_carries_options_witness :
  addDecl 0 SpecModel.run3 (SpecModel.world_of [0])
    = error (Exception_kernel "already declared" 3) (SpecModel.world_of [0]) /\
  exists ex,
    lean_add_decl (env (cell (SpecModel.world_of [0]))) 0 = Except_error ex /\
    Exception_kernel "already declared" 3
      = Exception_kernel ex (options SpecModel.run3) /\
    SpecModel.world_of [0] = SpecModel.world_of [0].
Proof.
  split; [reflexivity|].
  exact (proj1 (@kernel_failure_carries_options SpecModel.spec_collaborators)
           (0 : nat) SpecModel.run3 (SpecModel.world_of [0]) (SpecModel.world_of [0])
           (Exception_kernel "already declared" 3) eq_refl).
Defined.

(** Three identifiers drawn in a fresh run of the model: [_uniq.1],
    [_uniq.2] and [_uniq.3], pairwise distinct. *)
Lemma mkFreshId_distinct_witness :
  limbs <$> (mkFreshIds 3 SpecModel.run3 (SpecModel.world_of [])).1 =
    [[limb_num 1; limb_str "_uniq"]; [limb_num 2; limb_str "_uniq"];
     [limb_num 3; limb_str "_uniq"]] /\
  NoDup (mkFreshIds 3 SpecModel.run3 (SpecModel.world_of [])).1.
Proof.
  split; [reflexivity|].
  exact (proj1 (proj2 (@mkFreshId_distinct SpecModel.spec_collaborators 3
                         SpecModel.run3 (SpecModel.world_of [])))).
Defined.

(** One identifier drawn in the model: the environment [[5]] and the empty
    trace state are still there. *)
Lemma mkFreshId_frame_witness :
  exists n w',
    mkFreshId SpecModel.run3 (SpecModel.world_of [5]) = ok n w' /\
    env (cell w') = [5] /\
    traceState (cell w') = [] /\
    namePrefix (ngen (cell w')) = SpecModel.mk_str anonymous "_uniq".
Proof.
  exact (@mkFreshId_frame SpecModel.spec_collaborators SpecModel.run3
           (SpecModel.world_of [5])).
Defined.

End Examples.

End CoreMFacts.

(* ===================================================================== *)
(** * Properties of [set_option]                                          *)
(* ===================================================================== *)

Module SetOptionFacts.
Import Name SetOption.

Section Elab.
Context `{Externals} {m : Type -> Type} `{!Dictionaries m}.

Lemma accepted_shape_functional (val : Syntax SourceInfo) (dv dv' : DataValue) :
  accepted_shape val dv -> accepted_shape val dv' -> dv = dv'.
Proof.
  intros [stx s Hs|stx k Hs Hk|info Hs Hk|info Hs Hk] Hd; inversion Hd; subst;
    try congruence.
Qed.

Lemma not_accepted_inv (val : Syntax SourceInfo) :
  (forall dv, ~ accepted_shape val dv) ->
  Syntax_isStrLit val = None /\
  Syntax_isNatLitAux numLitKind val = None /\
  (forall info, val <> atom info "true") /\
  (forall info, val <> atom info "false").
Proof.
  intros Hn.
  destruct (Syntax_isStrLit val) as [s|] eqn:Es.
  { exfalso. apply (Hn (ofString s)). constructor. exact Es. }
  destruct (Syntax_isNatLitAux numLitKind val) as [k|] eqn:Ek.
  { exfalso. apply (Hn (ofNat k)). constructor; assumption. }
  repeat split; intros info ->.
  - apply (Hn (ofBool true)). constructor; assumption.
  - apply (Hn (ofBool false)). constructor; assumption.
Qed.

(** C10. [elabSetOption] goes on to [setOption] exactly for the four
    accepted shapes of value (a string literal, a numeric literal, the atom
    [true] and the atom [false], the two atoms standing for the two boolean
    data values); for every other value it is the [throwError] of the
    message that starts with "unexpected set_option value ", followed by the
    value; that action reads the source reference, adds the message context
    and throws, and neither reads nor extends the options.  Every value is
    of one kind or of the other. *)
Theorem elabSetOption_shapes (id val : Syntax SourceInfo) :
  (forall dv, accepted_shape val dv ->
     elabSetOption (m := m) id val
       = setOption (lean_erase_macro_scopes (Syntax_getId id)) dv) /\
  ((forall dv, ~ accepted_shape val dv) ->
     elabSetOption (m := m) id val
       = throwError
           (compose
              (compose (stringToMessageData "unexpected set_option value ")
                 (ofSyntax val))
              KernelException_toMessageData_closed_15)) /\
  ((exists dv, accepted_shape val dv) \/ (forall dv, ~ accepted_shape val dv)).
Proof.
  split; [|split].
  - intros dv [stx s Hs|stx k Hs Hk|info Hs Hk|info Hs Hk]; unfold elabSetOption.
    + rewrite Hs. reflexivity.
    + rewrite Hs, Hk. reflexivity.
    + rewrite Hs, Hk. reflexivity.
    + rewrite Hs, Hk. reflexivity.
  - intros Hn. destruct (not_accepted_inv val Hn) as (Hs & Hk & Ht & Hf).
    unfold elabSetOption. rewrite Hs, Hk.
    destruct val as [|kind args|info v|info v]; try reflexivity.
    destruct (String.eqb v instReprBool_closed_3) eqn:E3; simpl.
    + apply String.eqb_eq in E3. subst v. destruct (Ht info). reflexivity.
    + destruct (String.eqb v instReprBool_closed_1) eqn:E1; simpl.
      * apply String.eqb_eq in E1. subst v. destruct (Hf info). reflexivity.
      * reflexivity.
  - destruct (Syntax_isStrLit val) as [s|] eqn:Es.
    { left. exists (ofString s). constructor. exact Es. }
    destruct (Syntax_isNatLitAux numLitKind val) as [k|] eqn:Ek.
    { left. exists (ofNat k). constructor; assumption. }
    destruct val as [|kind args|info v|info v];
      try (right; intros dv Hd; inversion Hd; congruence).
    destruct (String.eqb v "true") eqn:E3.
    { apply String.eqb_eq in E3. subst v. left.
      exists (ofBool true). constructor; assumption. }
    destruct (String.eqb v "false") eqn:E1.
    { apply String.eqb_eq in E1. subst v. left.
      exists (ofBool false). constructor; assumption. }
    right. intros dv Hd. inversion Hd; subst; try congruence.
    + rewrite String.eqb_refl in E3. discriminate.
    + rewrite String.eqb_refl in E1. discriminate.
Qed.

End Elab.

Section Examples.
#[local] Existing Instance SpecModel.no_sharing.
#[local] Existing Instance SpecModel.spec_externals.
#[local] Existing Instance SpecModel.spec_dictionaries.

(** In the model, [set_option maxRecDepth 2] returns the options extended
    with the new setting, [set_option maxRecDepth true] is a type mismatch,
    and [set_option maxRecDepth A], whose value is an identifier, raises the
    error "unexpected set_option value A" and returns no options. *)
Lemma elabSetOption_shapes_witness :
  accepted_shape SpecModel.lit_2 (ofNat 2) /\
  (forall dv, ~ accepted_shape SpecModel.some_ident dv) /\
  elabSetOption (m := SpecModel.ElabM) SpecModel.id_maxRecDepth SpecModel.lit_2 SpecModel.empty_context
    = inr [(SpecModel.n_maxRecDepth, ofNat 2)] /\
  elabSetOption (m := SpecModel.ElabM) SpecModel.id_maxRecDepth (atom tt "true") SpecModel.empty_context
    = inl (Exception_error missing
             (ofFormat (Format_text "type mismatch at set_option"))) /\
  elabSetOption (m := SpecModel.ElabM) SpecModel.id_maxRecDepth SpecModel.some_ident SpecModel.empty_context
    = inl (Exception_error missing
             (compose
                (compose (ofFormat (Format_text "unexpected set_option value "))
                   (ofSyntax SpecModel.some_ident))
                (ofFormat (Format_text EmptyString)))).
Proof.
  assert (Ha : accepted_shape SpecModel.lit_2 (ofNat 2)) by (constructor; reflexivity).
  assert (Hn : forall dv, ~ accepted_shape SpecModel.some_ident dv)
    by (intros dv Hd; inversion Hd; discriminate).
  assert (Ht : accepted_shape (atom tt "true") (ofBool true))
    by (constructor; reflexivity).
  split; [exact Ha|]. split; [exact Hn|].
  destruct (@elabSetOption_shapes SpecModel.spec_externals SpecModel.ElabM
              SpecModel.spec_dictionaries SpecModel.id_maxRecDepth SpecModel.lit_2)
    as (H2 & _ & _).
  destruct (@elabSetOption_shapes SpecModel.spec_externals SpecModel.ElabM
              SpecModel.spec_dictionaries SpecModel.id_maxRecDepth (atom tt "true"))
    as (H3 & _ & _).
  destruct (@elabSetOption_shapes SpecModel.spec_externals SpecModel.ElabM
              SpecModel.spec_dictionaries SpecModel.id_maxRecDepth SpecModel.some_ident)
    as (_ & H4 & _).
  rewrite (H2 _ Ha), (H3 _ Ht), (H4 Hn).
  repeat split.
Defined.

End Examples.

End SetOptionFacts.

(* ===================================================================== *)
(** * The quick comparison of names                                       *)
(* ===================================================================== *)

Module NameOrderFacts.
Import Name NameOrder.

Lemma limbs_eq_core (a b : name) : limbs a = limbs b -> eq_core a b = true.
Proof.
  revert b.
  induction a as [|p IH s h|p IH k h]; intros [|q t g|q l g]; simpl;
    try discriminate; try reflexivity.
  - intros E. injection E as -> E. rewrite String.eqb_refl. apply IH, E.
  - intros E. injection E as -> E. rewrite Nat.eqb_refl. apply IH, E.
Qed.

Lemma limbs_is_scalar (a b : name) : limbs a = limbs b -> is_scalar a = is_scalar b.
Proof. destruct a, b; simpl; congruence. Qed.

Lemma cmp_limb_eq (x y : limb) : cmp_limb x y = Eq -> x = y.
Proof.
  destruct x as [s|k], y as [t|l]; simpl; try discriminate.
  - intros E. apply String.compare_eq_iff in E. congruence.
  - intros E. apply Nat.compare_eq in E. congruence.
Qed.

Lemma cmp_limbs_eq (l1 l2 : list limb) : cmp_limbs l1 l2 = Eq -> l1 = l2.
Proof.
  revert l2. induction l1 as [|x l1 IH]; intros [|y l2]; simpl;
    try discriminate; try reflexivity.
  destruct (cmp_limb x y) eqn:E; try discriminate.
  intros E'. rewrite (cmp_limb_eq x y E), (IH l2 E'). reflexivity.
Qed.

Lemma cmp_limb_antisym (x y : limb) : cmp_limb y x = CompOpp (cmp_limb x y).
Proof.
  destruct x as [s|k], y as [t|l]; simpl; try reflexivity.
  - apply String.compare_antisym.
  - apply Nat.compare_antisym.
Qed.

Lemma cmp_limbs_antisym (l1 l2 : list limb) :
  cmp_limbs l2 l1 = CompOpp (cmp_limbs l1 l2).
Proof.
  revert l2. induction l1 as [|x l1 IH]; intros [|y l2]; simpl; try reflexivity.
  rewrite (cmp_limb_antisym x y).
  destruct (cmp_limb x y); simpl; [apply IH|reflexivity|reflexivity].
Qed.

Lemma cmp_core_antisym (a b : name) : cmp_core b a = (- cmp_core a b)%Z.
Proof.
  unfold cmp_core. rewrite (cmp_limbs_antisym (rev (limbs a)) (rev (limbs b))).
  destruct (cmp_limbs (rev (limbs a)) (rev (limbs b))); reflexivity.
Qed.

Lemma cmp_core_zero (a b : name) : cmp_core a b = 0%Z -> limbs a = limbs b.
Proof.
  unfold cmp_core. intros E.
  destruct (cmp_limbs (rev (limbs a)) (rev (limbs b))) eqn:C; try discriminate.
  apply cmp_limbs_eq in C. apply (f_equal (@rev limb)) in C.
  rewrite !rev_involutive in C. exact C.
Qed.

Section WithIdentity.
Context `{ObjectIdentity}.

Lemma name_eq_of_limbs (a b : name) :
  hash a = hash b -> limbs a = limbs b -> name_eq a b = true.
Proof.
  intros Hh Hl. unfold name_eq. destruct (raw_eq a b); [reflexivity|].
  rewrite (limbs_is_scalar a b Hl), Bool.eqb_reflx, Hh, N.eqb_refl. simpl.
  apply limbs_eq_core, Hl.
Qed.

Lemma quick_cmp_zero (a b : name) :
  quick_cmp a b = 0%Z <-> name_eq a b = true.
Proof.
  unfold quick_cmp.
  destruct (raw_eq a b) eqn:R.
  { unfold name_eq. rewrite R. split; reflexivity. }
  destruct (hash a =? hash b)%N eqn:Hh; simpl.
  - destruct (name_eq a b) eqn:E; [split; reflexivity|].
    split; [|discriminate]. intros C. unfold cmp in C.
    apply N.eqb_eq in Hh. rewrite <- E.
    apply name_eq_of_limbs; [exact Hh|apply cmp_core_zero, C].
  - assert (E : name_eq a b = false).
    { unfold name_eq. rewrite R, Hh.
      destruct (Bool.eqb (is_scalar a) (is_scalar b)); reflexivity. }
    rewrite E. destruct (hash a <? hash b)%N; split; discriminate.
Qed.

(** X1. [quick_cmp] returns 0 exactly on the pairs of names that
    [operator==] reports equal, so that a container ordered by [quick_cmp]
    identifies the same names as [operator==] does (with [eq_core] and
    [cmp_core] as they are modelled above); and
    [name_pair_quick_cmp] returns 0 exactly on the pairs whose first
    components and whose second components are equal for [operator==]. *)
Theorem quick_cmp_zero_iff :
  (forall a b : name, quick_cmp a b = 0%Z <-> name_eq a b = true) /\
  (forall p1 p2 : name_pair,
      name_pair_quick_cmp p1 p2 = 0%Z <->
      name_eq p1.1 p2.1 = true /\ name_eq p1.2 p2.2 = true).
Proof.
  split; [exact quick_cmp_zero|].
  intros p1 p2. unfold name_pair_quick_cmp. cbv zeta.
  destruct (quick_cmp p1.1 p2.1 =? 0)%Z eqn:Z1; simpl.
  - apply Z.eqb_eq in Z1. apply quick_cmp_zero in Z1.
    rewrite quick_cmp_zero. tauto.
  - apply Z.eqb_neq in Z1. split; [contradiction|].
    intros [E1 _]. apply quick_cmp_zero in E1. contradiction.
Qed.

Hypothesis sound : same_object_sound.

Lemma name_eq_same (a : name) : name_eq a a = true.
Proof. apply name_eq_of_limbs; reflexivity. Qed.

Lemma name_eq_sym (a b : name) : name_eq a b = true -> name_eq b a = true.
Proof.
  unfold name_eq at 1. destruct (raw_eq a b) eqn:R.
  { intros _. rewrite (NameFacts.raw_eq_sound sound a b R). apply name_eq_same. }
  destruct (Bool.eqb (is_scalar a) (is_scalar b)) eqn:S; simpl; [|discriminate].
  destruct (hash a =? hash b)%N eqn:Hh; simpl; [|discriminate].
  intros E. apply N.eqb_eq in Hh. apply name_eq_of_limbs; [congruence|].
  symmetry. apply NameFacts.eq_core_limbs, E.
Qed.

(** X2. When one address denotes one object, [quick_cmp] is antisymmetric:
    exchanging the two names negates the result (with [eq_core] and
    [cmp_core] as they are modelled above). *)
Theorem quick_cmp_antisym (a b : name) :
  quick_cmp b a = (- quick_cmp a b)%Z.
Proof.
  destruct (name_eq a b) eqn:E.
  - pose proof (name_eq_sym a b E) as E'.
    apply quick_cmp_zero in E. apply quick_cmp_zero in E'.
    rewrite E, E'. reflexivity.
  - assert (E' : name_eq b a = false).
    { destruct (name_eq b a) eqn:E'; [|reflexivity].
      apply name_eq_sym in E'. congruence. }
    assert (R : raw_eq a b = false).
    { destruct (raw_eq a b) eqn:R; [|reflexivity].
      unfold name_eq in E. rewrite R in E. discriminate. }
    assert (R' : raw_eq b a = false).
    { destruct (raw_eq b a) eqn:R'; [|reflexivity].
      unfold name_eq in E'. rewrite R' in E'. discriminate. }
    unfold quick_cmp. rewrite R, R', E, E'. rewrite (N.eqb_sym (hash b) (hash a)).
    destruct (hash a =? hash b)%N eqn:Hh; simpl.
    + apply cmp_core_antisym.
    + apply N.eqb_neq in Hh.
      destruct (N.ltb_spec (hash a) (hash b)), (N.ltb_spec (hash b) (hash a));
        try reflexivity; lia.
Qed.

End WithIdentity.

Section Examples.
#[local] Existing Instance SpecModel.no_sharing.

(** In the model without sharing, [A] sorts before [D] for [quick_cmp] and
    [D] after [A]. *)
Lemma quick_cmp_antisym_witness :
  same_object_sound /\
  quick_cmp SpecModel.nA SpecModel.nD = (-1)%Z /\
  quick_cmp SpecModel.nD SpecModel.nA = 1%Z.
Proof.
  split; [exact NameFacts.no_sharing_sound|].
  split; [vm_compute; reflexivity|].
  rewrite (@quick_cmp_antisym SpecModel.no_sharing NameFacts.no_sharing_sound
             SpecModel.nA SpecModel.nD).
  vm_compute. reflexivity.
Defined.

End Examples.

End NameOrderFacts.

(* ===================================================================== *)
(** * More properties of the trace registry and of trace scopes           *)
(* ===================================================================== *)

Module TraceScopesFacts.
Import Name Trace TraceScopes TraceFacts.

Section Matching.
Context `{ObjectIdentity} `{NameCpp}.

Lemma update_class_elem (cs : list name) (c x : name) :
  x ∈ update_class cs c -> x ∈ cs \/ x = c.
Proof.
  unfold update_class. destruct (existsb _ cs); simpl; [left; assumption|].
  intros Hx. apply elem_of_app in Hx as [Hx|Hx]; [left; exact Hx|].
  right. apply list_elem_of_singleton in Hx. exact Hx.
Qed.

Lemma update_class_holds (cs : list name) (c : name) :
  exists x, x ∈ update_class cs c /\ name_eq x c = true.
Proof.
  unfold update_class.
  destruct (existsb (fun x => name_eq x c) cs) eqn:E; simpl.
  - apply existsb_exists in E as (x & Hx & Hxc).
    exists x. split; [apply list_elem_of_In; exact Hx|exact Hxc].
  - exists c. split; [apply elem_of_app; right; left|apply name_eq_refl].
Qed.

Lemma update_class_again (cs : list name) (c : name) :
  update_class (update_class cs c) c = update_class cs c.
Proof.
  unfold update_class at 1.
  destruct (update_class_holds cs c) as (x & Hx & Hxc).
  assert (E : existsb (fun x => name_eq x c) (update_class cs c) = true).
  { apply existsb_exists. exists x. split; [apply list_elem_of_In; exact Hx|exact Hxc]. }
  rewrite E. reflexivity.
Qed.

Lemma update_class_keeps_distinct (cs : list name) (c : name) :
  distinct_entries cs -> distinct_entries (update_class cs c).
Proof.
  intros Hd. unfold update_class.
  destruct (existsb (fun x => name_eq x c) cs) eqn:E; simpl; [exact Hd|].
  intros i j x y Hij Hi Hj.
  destruct (decide (j < length cs)) as [Hlt|Hge].
  - rewrite lookup_app_l in Hi by lia. rewrite lookup_app_l in Hj by lia.
    exact (Hd i j x y Hij Hi Hj).
  - assert (Hjl : j = length cs).
    { apply lookup_lt_Some in Hj. rewrite length_app in Hj. simpl in Hj. lia. }
    subst j. rewrite lookup_app_l in Hi by lia.
    rewrite lookup_app_r in Hj by lia. rewrite Nat.sub_diag in Hj.
    simpl in Hj. injection Hj as <-.
    destruct (name_eq x c) eqn:Exc; [|reflexivity].
    assert (Ex : existsb (fun x => name_eq x c) cs = true).
    { apply existsb_exists. exists x. split; [|exact Exc].
      apply list_elem_of_In. eapply list_elem_of_lookup_2. exact Hi. }
    congruence.
Qed.

(** X4. The list of enabled classes, and that of disabled classes, never
    holds the same class twice: [update_class] appends a class only when no
    entry is equal to it, so it keeps a list without repetition free of
    repetition, and enabling or disabling a class a second time changes
    nothing. *)
Theorem update_class_no_repetition (c : name) (st : thread_state) :
  distinct_entries (enabled_trace_classes st) ->
  distinct_entries (disabled_trace_classes st) ->
  distinct_entries (enabled_trace_classes (enable_trace_class c st)) /\
  distinct_entries (disabled_trace_classes (disable_trace_class c st)) /\
  enable_trace_class c (enable_trace_class c st) = enable_trace_class c st /\
  disable_trace_class c (disable_trace_class c st) = disable_trace_class c st.
Proof.
  intros He Hd. split; [|split; [|split]].
  - apply update_class_keeps_distinct, He.
  - apply update_class_keeps_distinct, Hd.
  - unfold enable_trace_class. simpl. rewrite update_class_again. reflexivity.
  - unfold disable_trace_class. simpl. rewrite update_class_again. reflexivity.
Qed.

Lemma register_alias_eq (n alias : name) (aliases : trace_aliases) :
  register_trace_class_alias n alias aliases
  = <[ n := {[ alias ]} ∪ default ∅ (aliases !! n) ]> aliases.
Proof.
  unfold register_trace_class_alias. destruct (aliases !! n); reflexivity.
Qed.

(** X5. Registrations of aliases accumulate and do not depend on their
    order: registering keeps every alias registered before, for every class;
    registering the same alias twice is registering it once; and two
    registrations give the same table in either order. *)
Theorem register_trace_class_alias_accumulates
    (n alias n' alias' : name) (aliases : trace_aliases) :
  (forall m s, aliases !! m = Some s ->
     exists s', register_trace_class_alias n alias aliases !! m = Some s' /\ s ⊆ s') /\
  register_trace_class_alias n alias (register_trace_class_alias n alias aliases)
    = register_trace_class_alias n alias aliases /\
  register_trace_class_alias n alias (register_trace_class_alias n' alias' aliases)
    = register_trace_class_alias n' alias' (register_trace_class_alias n alias aliases).
Proof.
  split; [|split].
  - intros m s Hm. rewrite register_alias_eq.
    destruct (decide (m = n)) as [->|Hne].
    + rewrite lookup_insert_eq, Hm. simpl. eexists.
      split; [reflexivity|apply union_subseteq_r].
    + rewrite lookup_insert_ne by congruence. exists s. split; [exact Hm|reflexivity].
  - rewrite !register_alias_eq. rewrite lookup_insert_eq. simpl.
    rewrite insert_insert_eq. f_equal.
    rewrite (assoc_L (∪)), (idemp_L (∪)). reflexivity.
  - rewrite !register_alias_eq.
    destruct (decide (n = n')) as [->|Hne].
    + rewrite !lookup_insert_eq. simpl. rewrite !insert_insert_eq. f_equal.
      rewrite !(assoc_L (∪)), (comm_L (∪) {[ alias ]}). reflexivity.
    + rewrite !lookup_insert_ne by congruence.
      apply insert_insert_ne. congruence.
Qed.

Lemma listed_mono (cs cs' : list name) (n : name) :
  (forall x, x ∈ cs -> x ∈ cs') -> listed cs n -> listed cs' n.
Proof. intros Hs (p & Hp & Hpre). exists p. split; [apply Hs, Hp|exact Hpre]. Qed.

Lemma matched_mono (aliases aliases' : trace_aliases) (cs cs' : list name) (n : name) :
  (forall x, x ∈ cs -> x ∈ cs') ->
  (forall m s, aliases !! m = Some s -> exists s', aliases' !! m = Some s' /\ s ⊆ s') ->
  matched aliases cs n -> matched aliases' cs' n.
Proof.
  intros Hs Ha [Hl|(it & s & a & Hit & Hlk & Hin & Hl)].
  - left. eapply listed_mono; eassumption.
  - right. destruct (Ha it s Hlk) as (s' & Hlk' & Hsub).
    exists it, s', a. split; [exact Hit|]. split; [exact Hlk'|].
    split; [apply Hsub, Hin|]. eapply listed_mono; eassumption.
Qed.

(** X6. A class that is set in a list stays set when one more class is put
    in the list and one more alias is registered: neither [update_class]
    nor [register_trace_class_alias] ever unsets a class. *)
Theorem is_trace_class_set_monotone
    (aliases : trace_aliases) (cs : list name) (n c m alias : name) :
  is_trace_class_set aliases cs n = true ->
  is_trace_class_set (register_trace_class_alias m alias aliases)
    (update_class cs c) n = true.
Proof.
  rewrite !is_trace_class_set_spec. apply matched_mono.
  - intros x Hx. destruct (update_class_prefix cs c) as [k ->].
    apply elem_of_app. left. exact Hx.
  - intros k s Hk. rewrite register_alias_eq.
    destruct (decide (k = m)) as [->|Hne].
    + rewrite lookup_insert_eq, Hk. simpl. eexists.
      split; [reflexivity|apply union_subseteq_r].
    + rewrite lookup_insert_ne by congruence. exists s. split; [exact Hk|reflexivity].
Qed.

End Matching.

Section Scopes.
Context `{ObjectIdentity} `{NameCpp} `{OptionsImpl}.

Lemma scoped_unfold_snd {A E : Type} (env opts ctx : ptr)
    (body : thread_state -> exit A E * thread_state) (st : thread_state) :
  (scoped env opts ctx body st).2
  = scope_trace_env_destroy (init env opts ctx st).1
      (body (init env opts ctx st).2).2.
Proof. rewrite scoped_unfold. reflexivity. Qed.

Lemma init_same_options (env opts ctx : ptr) (st : thread_state) :
  opts = None \/ opts = g_opts st ->
  (init env opts ctx st).2
  = mk_thread_state (enabled_trace_classes st) (disabled_trace_classes st)
      env opts ctx.
Proof.
  intros Ho. unfold init. destruct opts as [a|]; simpl; [|reflexivity].
  destruct Ho as [Ho|Ho]; [discriminate|].
  rewrite <- Ho. rewrite bool_decide_eq_true_2 by reflexivity. reflexivity.
Qed.

(** X7. A scope that brings no new options interprets none: the constructor
    without options binds the environment and the type context, and leaves
    the bound options and the two class lists as they are; so does the
    constructor with options when they are the options already bound. *)
Theorem scope_without_new_options :
  (forall (env ctx : N) (st : thread_state),
      (scope_trace_env_env_ctx env ctx st).2
      = mk_thread_state (enabled_trace_classes st) (disabled_trace_classes st)
          (Some env) (g_opts st) (Some ctx)) /\
  (forall (o : N) (st : thread_state),
      g_opts st = Some o ->
      (scope_trace_env_opts o st).2 = st) /\
  (forall (env o ctx : N) (st : thread_state),
      g_opts st = Some o ->
      (scope_trace_env_env_opts_ctx env o ctx st).2
      = mk_thread_state (enabled_trace_classes st) (disabled_trace_classes st)
          (Some env) (Some o) (Some ctx)).
Proof.
  split; [|split].
  - intros env ctx st. unfold scope_trace_env_env_ctx.
    apply init_same_options. right. reflexivity.
  - intros o st Ho. unfold scope_trace_env_opts.
    rewrite init_same_options by (right; congruence).
    destruct st; simpl in *. congruence.
  - intros env o ctx st Ho. unfold scope_trace_env_env_opts_ctx.
    apply init_same_options. right. congruence.
Qed.

Lemma init_new_options (env ctx : ptr) (a : N) (st : thread_state) :
  g_opts st <> Some a ->
  enabled_trace_classes (init env (Some a) ctx st).2
  = enabled_trace_classes
      (foldl (init_option (options_at a) (name_str anonymous "trace"))
         (mk_thread_state (enabled_trace_classes st) (disabled_trace_classes st)
            env (g_opts st) ctx)
         (for_each_key (options_at a))) /\
  disabled_trace_classes (init env (Some a) ctx st).2
  = disabled_trace_classes
      (foldl (init_option (options_at a) (name_str anonymous "trace"))
         (mk_thread_state (enabled_trace_classes st) (disabled_trace_classes st)
            env (g_opts st) ctx)
         (for_each_key (options_at a))).
Proof.
  intros Ho. unfold init. simpl.
  rewrite bool_decide_eq_false_2 by exact Ho. simpl. split; reflexivity.
Qed.

Lemma init_option_cases (opts : options) (st : thread_state) (n : name) :
  (is_prefix_of (name_str anonymous "trace") n = true /\
   get_bool opts n false = true /\
   init_option opts (name_str anonymous "trace") st n
   = enable_trace_class (trace_class_of n) st) \/
  (is_prefix_of (name_str anonymous "trace") n = true /\
   get_bool opts n false = false /\
   init_option opts (name_str anonymous "trace") st n
   = disable_trace_class (trace_class_of n) st) \/
  (is_prefix_of (name_str anonymous "trace") n = false /\
   init_option opts (name_str anonymous "trace") st n = st).
Proof.
  unfold init_option, trace_class_of.
  destruct (is_prefix_of (name_str anonymous "trace") n); [|right; right; auto].
  destruct (get_bool opts n false); [left|right; left]; auto.
Qed.

(** Where an entry of a list comes from, after the keys [ns] of the
    options [opts] have been interpreted. *)
Lemma init_options_origin (opts : options) (ns : list name) (st : thread_state)
    (c : name) :
  let st' := foldl (init_option opts (name_str anonymous "trace")) st ns in
  (c ∈ enabled_trace_classes st' ->
   c ∈ enabled_trace_classes st \/
   exists n, n ∈ ns /\ is_prefix_of (name_str anonymous "trace") n = true /\
             get_bool opts n false = true /\ c = trace_class_of n) /\
  (c ∈ disabled_trace_classes st' ->
   c ∈ disabled_trace_classes st \/
   exists n, n ∈ ns /\ is_prefix_of (name_str anonymous "trace") n = true /\
             get_bool opts n false = false /\ c = trace_class_of n).
Proof.
  cbv zeta. revert st. induction ns as [|n ns IH]; intros st; simpl.
  - split; intros Hc; left; exact Hc.
  - destruct (IH (init_option opts (name_str anonymous "trace") st n)) as [IHe IHd].
    assert (Hlater : forall P : name -> Prop,
               (exists k, k ∈ ns /\ P k) -> exists k, k ∈ n :: ns /\ P k).
    { intros P (k & Hk & HP). exists k. split; [right; exact Hk|exact HP]. }
    destruct (init_option_cases opts st n) as [(Hp & Hb & Es)|[(Hp & Hb & Es)|(Hp & Es)]];
      rewrite Es in IHe, IHd |- *; simpl in IHe, IHd; split; intros Hc.
    + destruct (IHe Hc) as [Hc'|Hc']; [|right; apply Hlater, Hc'].
      apply update_class_elem in Hc' as [Hc'| ->]; [left; exact Hc'|].
      right. exists n. split; [left|]. repeat split; assumption.
    + destruct (IHd Hc) as [Hc'|Hc']; [left; exact Hc'|right; apply Hlater, Hc'].
    + destruct (IHe Hc) as [Hc'|Hc']; [left; exact Hc'|right; apply Hlater, Hc'].
    + destruct (IHd Hc) as [Hc'|Hc']; [|right; apply Hlater, Hc'].
      apply update_class_elem in Hc' as [Hc'| ->]; [left; exact Hc'|].
      right. exists n. split; [left|]. repeat split; assumption.
    + destruct (IHe Hc) as [Hc'|Hc']; [left; exact Hc'|right; apply Hlater, Hc'].
    + destruct (IHd Hc) as [Hc'|Hc']; [left; exact Hc'|right; apply Hlater, Hc'].
Qed.

Lemma grows_elem (st st' : thread_state) (x : name) :
  grows st st' ->
  (x ∈ enabled_trace_classes st -> x ∈ enabled_trace_classes st') /\
  (x ∈ disabled_trace_classes st -> x ∈ disabled_trace_classes st').
Proof.
  intros [[k Ek] [l El]]. rewrite Ek, El.
  split; intros Hx; apply elem_of_app; left; exact Hx.
Qed.

(** Every key under [trace] has its class in the list its value selects. *)
Lemma init_options_covers (opts : options) (ns : list name) (st : thread_state)
    (n : name) :
  n ∈ ns -> is_prefix_of (name_str anonymous "trace") n = true ->
  let st' := foldl (init_option opts (name_str anonymous "trace")) st ns in
  exists x, name_eq x (trace_class_of n) = true /\
    x ∈ (if get_bool opts n false then enabled_trace_classes st'
         else disabled_trace_classes st').
Proof.
  cbv zeta. intros Hn Hp. revert st.
  induction ns as [|k ns IH]; intros st; [inversion Hn|].
  apply elem_of_cons in Hn as [->|Hn]; [|apply IH, Hn].
  simpl.
  pose proof (init_options_grows opts (name_str anonymous "trace") ns
                (init_option opts (name_str anonymous "trace") st k)) as Hg.
  destruct (init_option_cases opts st k) as [(_ & Hb & Es)|[(_ & Hb & Es)|(Hp' & _)]];
    [| |congruence]; rewrite Es in Hg |- *; rewrite Hb.
  - destruct (update_class_holds (enabled_trace_classes st) (trace_class_of k))
      as (x & Hx & Hxc).
    exists x. split; [exact Hxc|].
    apply (proj1 (grows_elem _ _ x Hg)). exact Hx.
  - destruct (update_class_holds (disabled_trace_classes st) (trace_class_of k))
      as (x & Hx & Hxc).
    exists x. split; [exact Hxc|].
    apply (proj2 (grows_elem _ _ x Hg)). exact Hx.
Qed.

(** X8. Entering a scope with options that are not the bound ones
    interprets exactly the keys under [trace]: every entry that the enabled
    list gains is the class of such a key whose value is true, every entry
    that the disabled list gains is the class of such a key whose value is
    false (a key outside [trace] adds nothing), and the class of every key
    under [trace] is in the list that its value selects. *)
Theorem init_interprets_trace_keys (env ctx : ptr) (a : N) (st : thread_state) :
  g_opts st <> Some a ->
  let st1 := (init env (Some a) ctx st).2 in
  let opts := options_at a in
  let trace := name_str anonymous "trace" in
  (forall c, c ∈ enabled_trace_classes st1 ->
     c ∈ enabled_trace_classes st \/
     exists n, n ∈ for_each_key opts /\ is_prefix_of trace n = true /\
               get_bool opts n false = true /\ c = trace_class_of n) /\
  (forall c, c ∈ disabled_trace_classes st1 ->
     c ∈ disabled_trace_classes st \/
     exists n, n ∈ for_each_key opts /\ is_prefix_of trace n = true /\
               get_bool opts n false = false /\ c = trace_class_of n) /\
  (forall n, n ∈ for_each_key opts -> is_prefix_of trace n = true ->
     exists x, name_eq x (trace_class_of n) = true /\
       x ∈ (if get_bool opts n false then enabled_trace_classes st1
            else disabled_trace_classes st1)).
Proof.
  intros Ho. cbv zeta.
  destruct (init_new_options env ctx a st Ho) as [Ee Ed]. rewrite Ee, Ed.
  split; [|split].
  - intros c Hc.
    apply (proj1 (init_options_origin (options_at a) (for_each_key (options_at a))
                    _ c)) in Hc.
    exact Hc.
  - intros c Hc.
    apply (proj2 (init_options_origin (options_at a) (for_each_key (options_at a))
                    _ c)) in Hc.
    exact Hc.
  - intros n Hn Hp.
    exact (init_options_covers (options_at a) (for_each_key (options_at a)) _ n Hn Hp).
Qed.

(** X3. What a scope does to the classes its options name.  After [init]
    with options that are not the bound ones, the class of a key under
    [trace] whose value is true is enabled, unless it is set in the
    disabled list; the class of a key under [trace] whose value is false is
    not enabled. *)
Theorem init_enables_trace_keys (env ctx : ptr) (a : N) (st : thread_state)
    (aliases : trace_aliases) (n : name) :
  prefix_of_equal ->
  g_opts st <> Some a ->
  n ∈ for_each_key (options_at a) ->
  is_prefix_of (name_str anonymous "trace") n = true ->
  let st1 := (init env (Some a) ctx st).2 in
  is_trace_class_enabled aliases st1 (trace_class_of n) =
  if get_bool (options_at a) n false
  then negb (is_trace_class_set aliases (disabled_trace_classes st1) (trace_class_of n))
  else false.
Proof.
  intros Hrefl Ho Hn Hp. cbv zeta.
  destruct (init_new_options env ctx a st Ho) as [Ee Ed].
  pose proof (init_options_covers (options_at a) (for_each_key (options_at a))
                (mk_thread_state (enabled_trace_classes st)
                   (disabled_trace_classes st) env (g_opts st) ctx) n Hn Hp) as Hcov.
  cbv zeta in Hcov. rewrite <- Ee, <- Ed in Hcov. clear Ee Ed.
  generalize dependent (init env (Some a) ctx st).2. intros st1 (x & Hxc & Hx).
  assert (Hl : forall cs, x ∈ cs -> is_trace_class_set aliases cs (trace_class_of n) = true).
  { intros cs Hcs. apply is_trace_class_set_spec. left.
    exists x. split; [exact Hcs|apply Hrefl, Hxc]. }
  unfold is_trace_class_enabled, is_trace_enabled.
  destruct (get_bool (options_at a) n false).
  - destruct (bool_decide_reflect (enabled_trace_classes st1 = [])) as [Em|_].
    { rewrite Em in Hx. inversion Hx. }
    cbn [negb]. rewrite (Hl _ Hx).
    destruct (is_trace_class_set aliases (disabled_trace_classes st1)
                (trace_class_of n)); reflexivity.
  - rewrite (Hl _ Hx).
    destruct (negb (negb (bool_decide (enabled_trace_classes st1 = []))));
      reflexivity.
Qed.

Lemma nested_scopes_well_nested {A E : Type} (scopes : list binding)
    (body : thread_state -> exit A E * thread_state) :
  well_nested body -> well_nested (nested_scopes scopes body).
Proof.
  intros Hw. induction scopes as [|b scopes IH]; simpl; [exact Hw|].
  apply scoped_well_nested, IH.
Qed.

Lemma scoped_pointers {A E : Type} (env opts ctx : ptr)
    (body : thread_state -> exit A E * thread_state) (st : thread_state) :
  g_env (scoped env opts ctx body st).2 = g_env st /\
  g_opts (scoped env opts ctx body st).2 = g_opts st /\
  g_ctx (scoped env opts ctx body st).2 = g_ctx st.
Proof.
  rewrite scoped_unfold. cbn [snd].
  pose proof (init_spec env opts ctx st) as HI.
  destruct (init env opts ctx st) as [this st1].
  destruct HI as (_ & _ & Hoe & Hoo & Hoc & _).
  simpl. repeat split; assumption.
Qed.

(** X9. Scopes nest to any depth: after one or more scopes, one inside the
    other, around a well nested body, the three bound pointers and the two
    class lists are those found before the outermost scope was entered, so
    that every class is enabled afterwards exactly when it was before. *)
Theorem nested_scopes_restore {A E : Type} (scopes : list binding)
    (body : thread_state -> exit A E * thread_state) (st : thread_state) :
  scopes <> [] -> well_nested body ->
  let st' := (nested_scopes scopes body st).2 in
  g_env st' = g_env st /\ g_opts st' = g_opts st /\ g_ctx st' = g_ctx st /\
  enabled_trace_classes st' = enabled_trace_classes st /\
  disabled_trace_classes st' = disabled_trace_classes st /\
  forall (aliases : trace_aliases) (n : name),
    is_trace_class_enabled aliases st' n = is_trace_class_enabled aliases st n.
Proof.
  intros Hne Hw. cbv zeta.
  destruct scopes as [|b scopes]; [contradiction|]. simpl.
  destruct (scoped_pointers (b_env b) (b_opts b) (b_ctx b)
              (nested_scopes scopes body) st) as (He & Ho & Hc).
  pose proof (destroy_after_init (b_env b) (b_opts b) (b_ctx b)
                (nested_scopes scopes body) st
                (nested_scopes_well_nested scopes body Hw)) as HD.
  cbv zeta in HD. rewrite <- scoped_unfold_snd in HD.
  destruct HD as [Hen Hdi].
  repeat (split; [assumption|]).
  intros aliases n. unfold is_trace_class_enabled, is_trace_enabled.
  rewrite Hen, Hdi. reflexivity.
Qed.

End Scopes.

Section Examples.
#[local] Existing Instance SpecModel.no_sharing.
#[local] Existing Instance SpecModel.spec_name_cpp.

Lemma distinct_entries_nil : distinct_entries [].
Proof. intros i j x y _ Hi. discriminate Hi. Qed.

Lemma distinct_entries_one (a : name) : distinct_entries [a].
Proof. intros i [|j] x y Hij Hi Hj; [lia|discriminate Hj]. Qed.

(** Enabled list [[A]]: enabling [A.B] gives [[A; A.B]], without
    repetition, and enabling [A.B] again changes nothing. *)
Lemma update_class_no_repetition_witness :
  distinct_entries [SpecModel.nA] /\
  distinct_entries [] /\
  enabled_trace_classes (enable_trace_class SpecModel.nAB SpecModel.thread_A)
    = [SpecModel.nA; SpecModel.nAB] /\
  distinct_entries
    (enabled_trace_classes (enable_trace_class SpecModel.nAB SpecModel.thread_A)) /\
  enable_trace_class SpecModel.nAB
    (enable_trace_class SpecModel.nAB SpecModel.thread_A)
    = enable_trace_class SpecModel.nAB SpecModel.thread_A.
Proof.
  destruct (@update_class_no_repetition SpecModel.no_sharing SpecModel.nAB
              SpecModel.thread_A (distinct_entries_one SpecModel.nA)
              distinct_entries_nil) as (He & _ & Hi & _).
  split; [apply distinct_entries_one|]. split; [apply distinct_entries_nil|].
  split; [vm_compute; reflexivity|]. split; [exact He|exact Hi].
Defined.

(** [A.B.C] is set in the list [[A]]; it still is once [D] is in the list
    and [D] is registered as an alias of [A.B]. *)
Lemma is_trace_class_set_monotone_witness :
  is_trace_class_set ∅ [SpecModel.nA] SpecModel.nABC = true /\
  is_trace_class_set
    (register_trace_class_alias SpecModel.nAB SpecModel.nD ∅)
    (update_class [SpecModel.nA] SpecModel.nD) SpecModel.nABC = true.
Proof.
  split; [reflexivity|].
  exact (@is_trace_class_set_monotone SpecModel.no_sharing SpecModel.spec_name_cpp
           ∅ [SpecModel.nA] SpecModel.nABC SpecModel.nD SpecModel.nAB SpecModel.nD
           eq_refl).
Defined.

(** Enabled list [[A]] and the options [trace.A.B = true], [D = true],
    [trace.D = false]: after [init] the enabled list is [[A; A.B]] and the
    disabled list is [[D]]; the key [D], which is not under [trace], has
    added nothing. *)
Lemma init_interprets_trace_keys_witness :
  g_opts SpecModel.thread_A <> Some 2%N /\
  enabled_trace_classes
    (@init SpecModel.no_sharing SpecModel.spec_name_cpp ExtraModel.mixed_options
       (Some 5%N) (Some 2%N) (Some 7%N) SpecModel.thread_A).2
    = [SpecModel.nA; SpecModel.nAB] /\
  disabled_trace_classes
    (@init SpecModel.no_sharing SpecModel.spec_name_cpp ExtraModel.mixed_options
       (Some 5%N) (Some 2%N) (Some 7%N) SpecModel.thread_A).2
    = [SpecModel.nD] /\
  exists x, name_eq x (trace_class_of ExtraModel.n_trace_D) = true /\
    x ∈ disabled_trace_classes
          (@init SpecModel.no_sharing SpecModel.spec_name_cpp ExtraModel.mixed_options
             (Some 5%N) (Some 2%N) (Some 7%N) SpecModel.thread_A).2.
Proof.
  assert (Ho : g_opts SpecModel.thread_A <> Some 2%N) by discriminate.
  split; [exact Ho|]. split; [vm_compute; reflexivity|].
  split; [vm_compute; reflexivity|].
  destruct (@init_interprets_trace_keys SpecModel.no_sharing SpecModel.spec_name_cpp
              ExtraModel.mixed_options (Some 5%N) (Some 7%N) 2%N SpecModel.thread_A Ho)
    as (_ & _ & Hcov).
  apply (Hcov ExtraModel.n_trace_D).
  - right. right. left.
  - reflexivity.
Defined.

(** With the same options: inside the scope the class [A.B] of the key
    [trace.A.B] is enabled, and the class [D] of the key [trace.D], whose
    value is false, is not. *)
Lemma init_enables_trace_keys_witness :
  is_trace_class_enabled ∅
    (@init SpecModel.no_sharing SpecModel.spec_name_cpp ExtraModel.mixed_options
       (Some 5%N) (Some 2%N) (Some 7%N) SpecModel.thread_A).2 SpecModel.nAB = true /\
  is_trace_class_enabled ∅
    (@init SpecModel.no_sharing SpecModel.spec_name_cpp ExtraModel.mixed_options
       (Some 5%N) (Some 2%N) (Some 7%N) SpecModel.thread_A).2 SpecModel.nD = false.
Proof.
  assert (Ho : g_opts SpecModel.thread_A <> Some 2%N) by discriminate.
  split.
  - exact (@init_enables_trace_keys SpecModel.no_sharing SpecModel.spec_name_cpp
             ExtraModel.mixed_options (Some 5%N) (Some 7%N) 2%N SpecModel.thread_A
             ∅ SpecModel.n_trace_AB TraceFacts.spec_prefix_of_equal Ho
             ltac:(left) eq_refl).
  - exact (@init_enables_trace_keys SpecModel.no_sharing SpecModel.spec_name_cpp
             ExtraModel.mixed_options (Some 5%N) (Some 7%N) 2%N SpecModel.thread_A
             ∅ ExtraModel.n_trace_D TraceFacts.spec_prefix_of_equal Ho
             ltac:(right; right; left) eq_refl).
Defined.

(** Enabled list [[A]]; a scope whose options set [trace.A.B = true], inside
    it a scope without options, and a body that is left by an exception:
    afterwards the enabled list is [[A]] again and no options are bound. *)
Lemma nested_scopes_restore_witness :
  ExtraModel.two_scopes <> [] /\
  well_nested SpecModel.failing_body /\
  enabled_trace_classes
    (@nested_scopes SpecModel.no_sharing SpecModel.spec_name_cpp SpecModel.spec_options
       unit string ExtraModel.two_scopes SpecModel.failing_body SpecModel.thread_A).2
    = [SpecModel.nA] /\
  g_opts
    (@nested_scopes SpecModel.no_sharing SpecModel.spec_name_cpp SpecModel.spec_options
       unit string ExtraModel.two_scopes SpecModel.failing_body SpecModel.thread_A).2
    = None.
Proof.
  assert (Hne : ExtraModel.two_scopes <> []) by discriminate.
  assert (Hw : well_nested SpecModel.failing_body)
    by (intros s; apply grows_same_lists; reflexivity).
  destruct (@nested_scopes_restore SpecModel.no_sharing SpecModel.spec_name_cpp
              SpecModel.spec_options unit string ExtraModel.two_scopes
              SpecModel.failing_body SpecModel.thread_A Hne Hw)
    as (_ & Ho & _ & He & _).
  split; [exact Hne|]. split; [exact Hw|]. split; [exact He|exact Ho].
Defined.

End Examples.

End TraceScopesFacts.

(* ===================================================================== *)
(** * More properties of the core monad                                   *)
(* ===================================================================== *)

Module CoreRunFacts.
Import Name CoreM CoreRun.

Section Core.
Context `{Collaborators}.

Lemma withIncRecDepth_below {α : Type} (x : CoreM_ α) (ctx : Context) (w : World) :
  currRecDepth ctx <> maxRecDepth ctx ->
  withIncRecDepth x ctx w = x (Context_incCurrRecDepth ctx) w.
Proof.
  intros E. unfold withIncRecDepth, checkRecDepth.
  apply Nat.eqb_neq in E. rewrite E. reflexivity.
Qed.

Lemma withIncRecDepth_at_limit {α : Type} (x : CoreM_ α) (ctx : Context) (w : World) :
  currRecDepth ctx = maxRecDepth ctx ->
  withIncRecDepth x ctx w = error (maxRecDepthException ctx) w.
Proof.
  intros E. unfold withIncRecDepth, checkRecDepth.
  rewrite E, Nat.eqb_refl. reflexivity.
Qed.

Lemma deeper_0 (ctx : Context) : deeper 0 ctx = ctx.
Proof. destruct ctx. unfold deeper. simpl. rewrite Nat.add_0_r. reflexivity. Qed.

Lemma deeper_S (d : nat) (ctx : Context) :
  deeper d (Context_incCurrRecDepth ctx) = deeper (S d) ctx.
Proof.
  unfold deeper, Context_incCurrRecDepth. simpl. f_equal. lia.
Qed.

Lemma nest_below {α : Type} (k : nat) (x : CoreM_ α) (ctx : Context) (w : World) :
  (forall i, i < k -> currRecDepth ctx + i <> maxRecDepth ctx) ->
  nest k x ctx w = x (deeper k ctx) w.
Proof.
  revert ctx. induction k as [|k IH]; intros ctx Hne; simpl.
  - rewrite deeper_0. reflexivity.
  - rewrite withIncRecDepth_below.
    + rewrite IH; [rewrite deeper_S; reflexivity|].
      intros i Hi. simpl. specialize (Hne (S i)). lia.
    + specialize (Hne 0). rewrite Nat.add_0_r in Hne. apply Hne. lia.
Qed.

(** X10. The recursion fence at any depth of nesting.  [k] nested calls of
    [withIncRecDepth] around an action run the action in the context whose
    depth is [k] more when the depth stays within the limit; they fail with
    the recursion error, without running the action and with the world
    unchanged, when the limit lies between the depth at entry and the depth
    the action would run at.  The test is an equality: from a depth that is
    already above the limit the fence never stops the action. *)
Theorem nest_spec {α : Type} (k : nat) (x : CoreM_ α) (ctx : Context) (w : World) :
  (currRecDepth ctx + k <= maxRecDepth ctx ->
   nest k x ctx w = x (deeper k ctx) w) /\
  (currRecDepth ctx <= maxRecDepth ctx < currRecDepth ctx + k ->
   nest k x ctx w = error (maxRecDepthException ctx) w) /\
  (maxRecDepth ctx < currRecDepth ctx ->
   nest k x ctx w = x (deeper k ctx) w).
Proof.
  split; [|split].
  - intros Hle. apply nest_below. intros i Hi. lia.
  - intros [Hle Hlt].
    assert (Hk : exists j r, k = j + S r /\ currRecDepth ctx + j = maxRecDepth ctx).
    { exists (maxRecDepth ctx - currRecDepth ctx),
             (k - S (maxRecDepth ctx - currRecDepth ctx)). lia. }
    destruct Hk as (j & r & -> & Hj).
    assert (Hsplit : forall (a b : nat) (y : CoreM_ α), nest (a + b) y = nest a (nest b y)).
    { intros a b y. induction a as [|a IHa]; simpl; [reflexivity|].
      rewrite IHa. reflexivity. }
    rewrite Hsplit. rewrite nest_below by (intros i Hi; lia).
    simpl. rewrite withIncRecDepth_at_limit by (simpl; lia). reflexivity.
  - intros Hgt. apply nest_below. intros i Hi. lia.
Qed.

Lemma tracer_lambda_1_eq `{!RunExterns} (f : TraceState -> TraceState)
    (ctx : Context) (w : World) :
  tracer_lambda_1 f ctx w = ok tt (with_traceState (f (traceState (cell w))) w).
Proof. reflexivity. Qed.

(** X11. The environment of the state behaves as one cell: a [setEnv]
    overwrites the one before it, two [modifyEnv] compose, [getEnv] reads
    what the last of them stored and changes nothing, and none of them
    touches the name generator or the trace state. *)
Theorem env_cell_laws (e1 e2 : Environment) (f g : Environment -> Environment)
    (ctx : Context) (w : World) :
  andThen (setEnv e1) (setEnv e2) ctx w = setEnv e2 ctx w /\
  andThen (modifyEnv f) (modifyEnv g) ctx w = modifyEnv (fun e => g (f e)) ctx w /\
  andThen (setEnv e1) (modifyEnv f) ctx w = setEnv (f e1) ctx w /\
  andThen (modifyEnv f) getEnv ctx w
    = ok (f (env (cell w))) (with_env (f (env (cell w))) w) /\
  andThen getEnv getEnv ctx w = getEnv ctx w /\
  (forall w', modifyEnv f ctx w = ok tt w' ->
     ngen (cell w') = ngen (cell w) /\ traceState (cell w') = traceState (cell w)).
Proof.
  do 5 (split; [reflexivity|]).
  intros w' E. rewrite CoreMFacts.modifyEnv_eq in E. injection E as <-.
  split; reflexivity.
Qed.

Lemma compileDecl_cases (decl : Declaration) (ctx : Context) (w : World) :
  compileDecl decl ctx w =
  match lean_compile_decl (env (cell w)) (options ctx) decl with
  | Except_ok e2 => ok tt (with_env e2 w)
  | Except_error ex => error (Exception_kernel ex (options ctx)) w
  end.
Proof.
  destruct (lean_compile_decl (env (cell w)) (options ctx) decl) as [ex|e2] eqn:E.
  - apply CoreMFacts.compileDecl_error. exact E.
  - apply CoreMFacts.compileDecl_ok. exact E.
Qed.

(** X12. The three outcomes of [addAndCompile].  When the kernel rejects
    the declaration the compiler is not consulted and the world is
    unchanged.  Otherwise the compiler receives the environment that the
    kernel returned (not the one found at entry) and the options of the
    context; when it succeeds the state holds the compiler's environment,
    when it fails the state holds the kernel's.  The name generator and the
    trace state are never touched. *)
Theorem addAndCompile_cases (decl : Declaration) (ctx : Context) (w : World) :
  addAndCompile decl ctx w =
  match lean_add_decl (env (cell w)) decl with
  | Except_error ex => error (Exception_kernel ex (options ctx)) w
  | Except_ok e1 =>
      match lean_compile_decl e1 (options ctx) decl with
      | Except_error ex => error (Exception_kernel ex (options ctx)) (with_env e1 w)
      | Except_ok e2 => ok tt (with_env e2 w)
      end
  end.
Proof.
  unfold addAndCompile.
  destruct (lean_add_decl (env (cell w)) decl) as [ex|e1] eqn:E.
  - rewrite (CoreMFacts.addDecl_error decl ctx w ex E). reflexivity.
  - rewrite (CoreMFacts.addDecl_ok decl ctx w e1 E), compileDecl_cases. simpl.
    destruct (lean_compile_decl e1 (options ctx) decl); reflexivity.
Qed.

End Core.

Section Run.
Context `{RunExterns}.

(** X13. The environment, the name generator and the trace state are
    independent parts of the state: a change of the environment and a
    change of the trace state commute, and [mkFreshId] returns the same
    identifier, and leaves the same counter, whether it is called before or
    after either of them. *)
Theorem state_parts_independent (f : Environment -> Environment)
    (g : TraceState -> TraceState) (ctx : Context) (w : World) :
  andThen (modifyEnv f) (tracer_lambda_1 g) ctx w
    = andThen (tracer_lambda_1 g) (modifyEnv f) ctx w /\
  (exists n w1,
     mkFreshId ctx w = ok n w1 /\
     andThen (modifyEnv f) mkFreshId ctx w = ok n (with_env (f (env (cell w))) w1) /\
     andThen mkFreshId (modifyEnv f) ctx w = ok tt (with_env (f (env (cell w))) w1) /\
     andThen (tracer_lambda_1 g) mkFreshId ctx w
       = ok n (with_traceState (g (traceState (cell w))) w1) /\
     andThen mkFreshId (tracer_lambda_1 g) ctx w
       = ok tt (with_traceState (g (traceState (cell w))) w1)).
Proof.
  split; [reflexivity|].
  eexists _, _. split; [apply CoreMFacts.mkFreshId_eq|].
  repeat split.
Qed.

Lemma Context_replaceRef_none (r : Syntax) (ctx : Context) :
  Syntax_getPos r = None -> Context_replaceRef r ctx = ctx.
Proof.
  intros E. unfold Context_replaceRef, replaceRef. rewrite E.
  destruct ctx; reflexivity.
Qed.

Lemma Context_replaceRef_some (r : Syntax) (ctx : Context) :
  Syntax_getPos r <> None ->
  Context_replaceRef r ctx
  = mk_Context (options ctx) (currRecDepth ctx) (maxRecDepth ctx) r.
Proof.
  intros E. unfold Context_replaceRef, replaceRef.
  destruct (Syntax_getPos r); [reflexivity|contradiction].
Qed.

(** X14. [withRef r x] runs [x] with [r] as the source reference when [r]
    has a position, and is [x] itself when [r] has none: an error thrown
    inside is located at [r] in the first case and at the reference of the
    context in the second; of two nested [withRef] the inner one decides
    when its reference has a position.  Below the recursion limit [withRef]
    and [withIncRecDepth] commute; at the limit the recursion error is
    located at the reference that is in force where [withIncRecDepth] is
    called. *)
Theorem withRef_spec {α : Type} (r : Syntax) (x : CoreM_ α) (msg : MessageData)
    (ctx : Context) (w : World) :
  (Syntax_getPos r = None ->
   withRef r x ctx w = x ctx w /\
   withRef r (throwError (α := α) msg) ctx w = error (Exception_error (ref ctx) msg) w) /\
  (Syntax_getPos r <> None ->
   withRef r (throwError (α := α) msg) ctx w = error (Exception_error r msg) w /\
   forall r0, withRef r0 (withRef r x) ctx w = withRef r x ctx w) /\
  (currRecDepth ctx <> maxRecDepth ctx ->
   withRef r (withIncRecDepth x) ctx w = withIncRecDepth (withRef r x) ctx w) /\
  (currRecDepth ctx = maxRecDepth ctx ->
   withRef r (withIncRecDepth x) ctx w
     = error (Exception_error (replaceRef r (ref ctx)) checkRecDepth_closed_2) w /\
   withIncRecDepth (withRef r x) ctx w
     = error (Exception_error (ref ctx) checkRecDepth_closed_2) w).
Proof.
  split; [|split; [|split]].
  - intros E. unfold withRef. rewrite (Context_replaceRef_none r ctx E).
    split; reflexivity.
  - intros E. unfold withRef. split.
    + rewrite (Context_replaceRef_some r ctx E). reflexivity.
    + intros r0. rewrite (Context_replaceRef_some r ctx E).
      rewrite (Context_replaceRef_some r (Context_replaceRef r0 ctx) E).
      reflexivity.
  - intros E. unfold withRef.
    rewrite !withIncRecDepth_below by exact E. reflexivity.
  - intros E. unfold withRef.
    rewrite !withIncRecDepth_at_limit by exact E. split; reflexivity.
Qed.

(** X15. [getConstInfo n] looks [n] up in the environment that the state
    holds when it is called, so after [setEnv e] in [e]: it returns the
    information found, and for a name that is not in the environment it
    raises the error "unknown constant", followed by the name and a quote,
    at the reference of the context.  The state is left as it was in both
    cases. *)
Theorem getConstInfo_spec (n : name) (e : Environment) (ctx : Context) (w : World) :
  getConstInfo n ctx w =
    match lean_environment_find (env (cell w)) n with
    | Some info => ok info w
    | None =>
        error (Exception_error (ref ctx)
                 (compose (compose (ofFormat (Format_text "unknown constant '"))
                             (ofName n))
                    (ofFormat (Format_text Char_HasRepr_closed_1)))) w
    end /\
  andThen (setEnv e) (getConstInfo n) ctx w =
    match lean_environment_find e n with
    | Some info => ok info (with_env e w)
    | None =>
        error (Exception_error (ref ctx)
                 (compose (compose (ofFormat (Format_text "unknown constant '"))
                             (ofName n))
                    (ofFormat (Format_text Char_HasRepr_closed_1)))) (with_env e w)
    end.
Proof.
  split.
  - unfold getConstInfo. rewrite CoreMFacts.getEnv_eq.
    destruct (lean_environment_find (env (cell w)) n); reflexivity.
  - unfold andThen. rewrite CoreMFacts.setEnv_eq.
    unfold getConstInfo. rewrite CoreMFacts.getEnv_eq. simpl.
    destruct (lean_environment_find e n); reflexivity.
Qed.

(** Induction on the nodes of a persistent array. *)
Lemma PersistentArrayNode_induction {α : Type} (P : PersistentArrayNode α -> Prop) :
  (forall cs, Forall P cs -> P (node cs)) ->
  (forall vs, P (leaf vs)) ->
  forall n, P n.
Proof.
  intros Hn Hl.
  exact (fix IH (n : PersistentArrayNode α) : P n :=
           match n with
           | node cs =>
               Hn cs ((fix go (l : list (PersistentArrayNode α)) : Forall P l :=
                         match l with
                         | [] => Forall_nil P
                         | c :: l' => Forall_cons P c l' (IH c) (go l')
                         end) cs)
           | leaf vs => Hl vs
           end).
Qed.

Lemma forMAux_spec_6_loop_eq (l : list MessageData) (ctx : Context) (w : World) :
  forMAux_spec_6_loop l ctx w = liftIOCore (print_all l) w.
Proof.
  unfold liftIOCore. revert w. induction l as [|m l IH]; intros w; simpl; [reflexivity|].
  destruct (IO_println_spec_1 (MessageData_formatAux None m) w) as [[] w'|e w'];
    [apply IH|reflexivity].
Qed.

Lemma print_all_app (l1 l2 : list MessageData) (w : World) :
  print_all (l1 ++ l2) w =
  match print_all l1 w with
  | IO_ok _ w' => print_all l2 w'
  | IO_error e w' => IO_error e w'
  end.
Proof.
  revert w. induction l1 as [|m l1 IH]; intros w; simpl; [reflexivity|].
  destruct (IO_println_spec_1 (MessageData_formatAux None m) w) as [[] w'|e w'];
    [apply IH|reflexivity].
Qed.

Lemma node_toList_node {α : Type} (c : PersistentArrayNode α)
    (cs : list (PersistentArrayNode α)) :
  node_toList (node (c :: cs)) = (node_toList c ++ node_toList (node cs))%list.
Proof. reflexivity. Qed.

Lemma forMAux_spec_4_node (cs : list (PersistentArrayNode MessageData))
    (ctx : Context) (w : World) :
  PersistentArray_forMAux_spec_4 (node cs) ctx w = Array_forMAux_spec_5 cs 0 ctx w.
Proof.
  unfold Array_forMAux_spec_5. rewrite drop_0. revert w.
  induction cs as [|c cs IH]; intros w; [reflexivity|].
  simpl. destruct (PersistentArray_forMAux_spec_4 c ctx w) as [[] w'|e w'];
    [|reflexivity].
  apply IH.
Qed.

Lemma forMAux_spec_4_eq (n : PersistentArrayNode MessageData) (ctx : Context)
    (w : World) :
  PersistentArray_forMAux_spec_4 n ctx w = liftIOCore (print_all (node_toList n)) w.
Proof.
  revert w. induction n as [cs IH|vs] using PersistentArrayNode_induction; intros w.
  - rewrite forMAux_spec_4_node. unfold Array_forMAux_spec_5. rewrite drop_0.
    revert w. induction IH as [|c cs Hc _ IHcs]; intros w; [reflexivity|].
    rewrite node_toList_node. cbn [forMAux_spec_5_loop]. rewrite Hc.
    unfold liftIOCore. rewrite print_all_app.
    destruct (print_all (node_toList c) w) as [[] w'|e w']; [|reflexivity].
    rewrite IHcs. reflexivity.
  - cbn [PersistentArray_forMAux_spec_4 node_toList].
    unfold Array_forMAux_spec_6. rewrite drop_0. apply forMAux_spec_6_loop_eq.
Qed.

Lemma forM_eq (t : PersistentArray MessageData) (ctx : Context) (w : World) :
  PersistentArray_forM_spec_3 t ctx w
  = liftIOCore (print_all (PersistentArray_toList t)) w.
Proof.
  unfold PersistentArray_forM_spec_3, PersistentArray_toList. cbv zeta.
  rewrite forMAux_spec_4_eq. unfold liftIOCore. rewrite print_all_app.
  destruct (print_all (node_toList (PersistentArray_root t)) w) as [[] w'|e w'];
    [|reflexivity].
  unfold Array_forMAux_spec_6. rewrite drop_0. apply forMAux_spec_6_loop_eq.
Qed.

(** X16. The traces are printed in the order of their indices.  The
    traversal of the persistent array (the tree under the root from left to
    right, then the tail) is the sequence of the [println] of its messages
    in order, lifted to the core monad: it stops at the first message that
    the printer fails on, with the error of the printer as an
    [Exception.io], and the loop over the children of a node is the loop of
    the compiled code started at index 0. *)
Theorem PersistentArray_forM_in_order (t : PersistentArray MessageData)
    (ctx : Context) (w : World) :
  PersistentArray_forM_spec_3 t ctx w
    = liftIOCore (print_all (PersistentArray_toList t)) w /\
  (forall cs, PersistentArray_forMAux_spec_4 (node cs) ctx w
              = Array_forMAux_spec_5 cs 0 ctx w) /\
  (forall e w', PersistentArray_forM_spec_3 t ctx w = error e w' ->
     exists io, e = Exception_io io /\
                print_all (PersistentArray_toList t) w = IO_error io w').
Proof.
  pose proof (forM_eq t ctx w) as E.
  split; [exact E|]. split.
  - intros cs. apply forMAux_spec_4_node.
  - intros e w'. rewrite E. unfold liftIOCore.
    destruct (print_all (PersistentArray_toList t) w) as [[] w1|io w1];
      [discriminate|].
    intros Ee. injection Ee as <- <-. exists io. split; reflexivity.
Qed.

Lemma run_block_25_eq {β : Type} (ex : Exception) (w : World) :
  run_block_25 (β := β) ex w = IO_error (Exception_toIOError ex) w.
Proof. destruct ex; reflexivity. Qed.

Lemma run_body_eq {α β : Type} (finish : Environment * α -> World -> IOResult β)
    (x : CoreM_ α)
    (e0 : Environment) (opts : Options) (w0 : World) :
  run_body finish x e0 opts w0 =
  match x (run_context opts) (mk_World (run_state e0)) with
  | ok a w1 =>
      match print_all (PersistentArray_toList
                         (TraceState_traces (traceState (cell w1)))) w1 with
      | IO_ok _ w2 => finish (env (cell w1), a) w2
      | IO_error io w2 => IO_error io w2
      end
  | error ex w1 =>
      match print_all (PersistentArray_toList
                         (TraceState_traces (traceState (cell w1)))) w1 with
      | IO_ok _ w2 => IO_error (Exception_toIOError ex) w2
      | IO_error io w2 => IO_error io w2
      end
  end.
Proof.
  unfold run_body. cbn [lean_io_mk_ref].
  destruct (x (run_context opts) (mk_World (run_state e0))) as [a w1|ex w1].
  - cbn [getEnv lean_io_ref_get run_block_61 getTraceState].
    rewrite forM_eq. unfold liftIOCore.
    destruct (print_all _ w1) as [[] w2|io w2]; reflexivity.
  - cbn [run_block_61 getTraceState lean_io_ref_get].
    rewrite forM_eq. unfold liftIOCore.
    destruct (print_all _ w1) as [[] w2|io w2]; [apply run_block_25_eq|reflexivity].
Qed.

(** X17. What a run returns.  [runCore] runs the action at depth 0, with
    the limit read from the options, in a state made of the given
    environment, the initial name generator and the initial trace state;
    then it prints the traces of the final state.  When the action returns
    a value and the printing succeeds, the result is the environment of the
    final state together with the value.  When the action raises an
    exception, the result is an error of [IO]: the error itself for an
    [Exception.io], and otherwise a user error whose text is the one
    [Exception.hasToString] gives.  When the printing fails, its error is
    the result, whatever the action did. *)
Theorem runCore_spec {α : Type} (x : CoreM_ α) (e0 : Environment) (opts : Options)
    (w0 : World) :
  runCore x e0 opts w0 =
  match x (run_context opts) (mk_World (run_state e0)) with
  | ok a w1 =>
      match print_all (PersistentArray_toList
                         (TraceState_traces (traceState (cell w1)))) w1 with
      | IO_ok _ w2 => IO_ok (env (cell w1), a) w2
      | IO_error io w2 => IO_error io w2
      end
  | error ex w1 =>
      match print_all (PersistentArray_toList
                         (TraceState_traces (traceState (cell w1)))) w1 with
      | IO_ok _ w2 =>
          IO_error (match ex with
                    | Exception_io io => io
                    | _ => IO_userError (Exception_hasToString ex)
                    end) w2
      | IO_error io w2 => IO_error io w2
      end
  end.
Proof. unfold runCore. rewrite run_body_eq. reflexivity. Qed.

(** X18. [run] is [runCore] without the environment: it returns the value
    when [runCore] returns the pair of the final environment and of the
    value, and the same error in the same world when [runCore] returns an
    error. *)
Theorem run_runCore {α : Type} (x : CoreM_ α) (e0 : Environment) (opts : Options)
    (w0 : World) :
  run x e0 opts w0 =
  match runCore x e0 opts w0 with
  | IO_ok p w => IO_ok p.2 w
  | IO_error io w => IO_error io w
  end.
Proof.
  unfold run, runCore. rewrite !run_body_eq.
  destruct (x (run_context opts) (mk_World (run_state e0))) as [a w1|ex w1];
    destruct (print_all _ w1) as [[] w2|io w2]; reflexivity.
Qed.

(** X27. Evaluating an action of the core monad is [runCore] followed by
    the evaluation of the value: the value is evaluated in the final
    environment of the run, with the options of the run, in the world left
    by the printing of the traces, and with the flag true, whatever the
    flag given to the evaluation of the action is; an error of the run is
    returned as it is and the value is not evaluated. *)
Theorem hasEval_lambda_1_spec {α β : Type}
    (ev : Environment -> Options -> α -> bool -> World -> IOResult β)
    (x : CoreM_ α) (e0 : Environment) (opts : Options) (flag : bool) (w0 : World) :
  hasEval_lambda_1 ev e0 opts x flag w0 =
    match runCore x e0 opts w0 with
    | IO_ok p w => ev p.1 opts p.2 true w
    | IO_error io w => IO_error io w
    end /\
  hasEval_lambda_1 ev e0 opts x flag w0 = hasEval_lambda_1 ev e0 opts x (negb flag) w0.
Proof.
  split; [|reflexivity].
  unfold hasEval_lambda_1, runCore. rewrite !run_body_eq.
  destruct (x (run_context opts) (mk_World (run_state e0))) as [a w1|ex w1];
    destruct (print_all _ w1) as [[] w2|io w2]; reflexivity.
Qed.

(** X19. Errors keep their content across the monad.  An error of [IO]
    that enters the core monad through [liftIOCore] leaves a run as the
    same error of [IO]; an error value that enters through [ofExcept]
    leaves it as the user error whose text is the rendering of the string
    that the given function makes of the value.  Neither conversion changes
    the world, and both pass a value on unchanged. *)
Theorem errors_across_run {ε α : Type} (io : World -> IOResult α)
    (f : ε -> string) (r : Except ε α) (e0 : Environment) (opts : Options)
    (w0 : World) :
  let ctx := run_context opts in
  let w := mk_World (run_state e0) in
  let traces := fun w1 : World =>
    PersistentArray_toList (TraceState_traces (traceState (cell w1))) in
  (forall e w1 w2,
      io w = IO_error e w1 -> print_all (traces w1) w1 = IO_ok tt w2 ->
      runCore (fun _ => liftIOCore io) e0 opts w0 = IO_error e w2) /\
  (forall a w1 w2,
      io w = IO_ok a w1 -> print_all (traces w1) w1 = IO_ok tt w2 ->
      runCore (fun _ => liftIOCore io) e0 opts w0 = IO_ok (env (cell w1), a) w2) /\
  (forall e w2,
      r = Except_error e -> print_all (traces w) w = IO_ok tt w2 ->
      runCore (ofExcept f r) e0 opts w0
      = IO_error (IO_userError
                    (Format_pretty
                       (MessageData_formatAux None (ofFormat (Format_text (f e))))
                       Options_empty)) w2) /\
  (forall a w2,
      r = Except_ok a -> print_all (traces w) w = IO_ok tt w2 ->
      runCore (ofExcept f r) e0 opts w0 = IO_ok (e0, a) w2).
Proof.
  cbv zeta. unfold runCore. repeat split.
  - intros e w1 w2 Eio Ep. rewrite run_body_eq. unfold liftIOCore.
    rewrite Eio, Ep. reflexivity.
  - intros a w1 w2 Eio Ep. rewrite run_body_eq. unfold liftIOCore.
    rewrite Eio, Ep. reflexivity.
  - intros e w2 -> Ep. rewrite run_body_eq.
    cbn [ofExcept throwError]. rewrite Ep. reflexivity.
  - intros a w2 -> Ep. rewrite run_body_eq.
    cbn [ofExcept]. rewrite Ep. reflexivity.
Qed.

End Run.

Section Examples.
#[local] Existing Instance SpecModel.spec_collaborators.
#[local] Existing Instance ExtraModel.spec_run_externs.

(** A run whose limit is 3: three nested calls run the body at depth 3,
    four nested calls fail and leave the environment empty. *)
Lemma nest_spec_witness :
  nest 3 (SpecModel.push 0) SpecModel.run3 (SpecModel.world_of [])
    = ok tt (with_env [0] (SpecModel.world_of [])) /\
  nest 4 (SpecModel.push 0) SpecModel.run3 (SpecModel.world_of [])
    = error (maxRecDepthException SpecModel.run3) (SpecModel.world_of []).
Proof.
  split.
  - rewrite (proj1 (@nest_spec SpecModel.spec_collaborators unit 3
                      (SpecModel.push 0) SpecModel.run3 (SpecModel.world_of [])))
      by (simpl; lia).
    reflexivity.
  - apply (proj1 (proj2 (@nest_spec SpecModel.spec_collaborators unit 4
                           (SpecModel.push 0) SpecModel.run3 (SpecModel.world_of [])))).
    simpl. lia.
Defined.

(** Runs of the model with the options 3.  Recording two traces and adding
    the declaration 3 to the empty environment returns the environment
    [[3]]; adding the declaration 1 to the environment [[1]] returns the
    text of the kernel's error; when a trace cannot be printed the error of
    the printer is returned although the action succeeded. *)
Lemma runCore_spec_witness :
  (exists w', runCore (ExtraModel.trace_then_add ["a"; "b"] 3) [] (3 : nat)
                (SpecModel.world_of [7]) = IO_ok ([3], tt) w') /\
  (exists w', runCore (ExtraModel.trace_then_add ["a"] 1) [1] (3 : nat)
                (SpecModel.world_of [7]) = IO_error "already declared" w') /\
  (exists w', runCore (ExtraModel.trace_then_add ["a"; "unprintable"] 3) [] (3 : nat)
                (SpecModel.world_of [7]) = IO_error "cannot write" w').
Proof.
  repeat split;
    rewrite (@runCore_spec SpecModel.spec_collaborators ExtraModel.spec_run_externs);
    vm_compute; eexists; reflexivity.
Defined.

(** The same run through [run]: the value without the environment. *)
Lemma run_runCore_witness :
  exists w', run (ExtraModel.trace_then_add ["a"; "b"] 3) [] (3 : nat)
               (SpecModel.world_of [7]) = IO_ok tt w'.
Proof.
  rewrite (@run_runCore SpecModel.spec_collaborators ExtraModel.spec_run_externs).
  vm_compute. eexists. reflexivity.
Defined.

(** Looking up the constant [3] after the declarations 3 and 4 were stored,
    and the constant [5], which is not there. *)
Lemma getConstInfo_spec_witness :
  andThen (setEnv [3; 4]) (getConstInfo (SpecModel.mk_num anonymous 3))
    SpecModel.run3 (SpecModel.world_of [])
    = ok 3 (with_env [3; 4] (SpecModel.world_of [])) /\
  andThen (setEnv [3; 4]) (getConstInfo (SpecModel.mk_num anonymous 5))
    SpecModel.run3 (SpecModel.world_of [])
    = error (Exception_error tt
               (compose (compose (ofFormat (Format_text "unknown constant '"))
                           (ofName (SpecModel.mk_num anonymous 5)))
                  (ofFormat (Format_text "'"))))
        (with_env [3; 4] (SpecModel.world_of [])).
Proof.
  split.
  - exact (proj2 (@getConstInfo_spec SpecModel.spec_collaborators
                    ExtraModel.spec_run_externs (SpecModel.mk_num anonymous 3)
                    [3; 4] SpecModel.run3 (SpecModel.world_of []))).
  - exact (proj2 (@getConstInfo_spec SpecModel.spec_collaborators
                    ExtraModel.spec_run_externs (SpecModel.mk_num anonymous 5)
                    [3; 4] SpecModel.run3 (SpecModel.world_of []))).
Defined.

End Examples.

End CoreRunFacts.

(* ===================================================================== *)
(** * The type check of [set_option]                                      *)
(* ===================================================================== *)

Module SetOptionTypeFacts.
Import Name SetOption.

Section Elab.
Context `{Externals} {m : Type -> Type} `{!Dictionaries m}.

(** X20. The type check of [setOption], in a monad where [pure] is a left
    unit of [bind] and where an action that throws aborts what follows it.
    Once the declaration of the option is known, a value whose constructor
    is the one of the default value is inserted in the options that
    [getOptions] returns, under the name of the option, and the new options
    are returned; a value of another constructor raises the error "type
    mismatch at set_option", and nothing is read from the options or
    inserted. *)
Theorem setOption_type_check :
  (forall (β : Type) (f : unit -> m β), bind (pure tt) f = f tt) ->
  (forall (α β : Type) (msg : MessageData SourceInfo) (f : α -> m β),
      bind (throwError (α := α) msg) f = throwError msg) ->
  forall (n : name) (v : DataValue) (decl : OptionDecl),
    setOption_lambda_4 (m := m) n v decl =
    if DataValue_sameCtor (defValue decl) v
    then bind getOptions (fun o => pure (KVMap_insertCore o n v))
    else throwError (stringToMessageData "type mismatch at set_option").
Proof.
  intros Hpure Hthrow n v decl. unfold setOption_lambda_4.
  destruct (DataValue_sameCtor (defValue decl) v); simpl.
  - rewrite Hpure. reflexivity.
  - rewrite Hthrow. reflexivity.
Qed.

End Elab.

Section Examples.
#[local] Existing Instance SpecModel.no_sharing.
#[local] Existing Instance SpecModel.spec_externals.
#[local] Existing Instance SpecModel.spec_dictionaries.

(** In the model the two laws hold; for the option [maxRecDepth], whose
    default value is a number, the number 2 is inserted and the boolean
    [true] is a type mismatch. *)
Lemma setOption_type_check_witness :
  setOption_lambda_4 (m := SpecModel.ElabM) SpecModel.n_maxRecDepth (ofNat 2)
    (mk_OptionDecl (ofNat 512) "" "") SpecModel.empty_context
    = inr [(SpecModel.n_maxRecDepth, ofNat 2)] /\
  setOption_lambda_4 (m := SpecModel.ElabM) SpecModel.n_maxRecDepth (ofBool true)
    (mk_OptionDecl (ofNat 512) "" "") SpecModel.empty_context
    = inl (Exception_error missing
             (ofFormat (Format_text "type mismatch at set_option"))).
Proof.
  assert (Hpure : forall (β : Type) (f : unit -> SpecModel.ElabM β),
             bind (pure tt) f = f tt) by reflexivity.
  assert (Hthrow : forall (α β : Type) (msg : MessageData SourceInfo)
                     (f : α -> SpecModel.ElabM β),
             bind (throwError (α := α) msg) f = throwError msg) by reflexivity.
  split.
  - rewrite (@setOption_type_check SpecModel.spec_externals SpecModel.ElabM
               SpecModel.spec_dictionaries Hpure Hthrow).
    reflexivity.
  - rewrite (@setOption_type_check SpecModel.spec_externals SpecModel.ElabM
               SpecModel.spec_dictionaries Hpure Hthrow).
    reflexivity.
Defined.

End Examples.

End SetOptionTypeFacts.

(* ===================================================================== *)
(** * Properties of module names and of the search path                   *)
(* ===================================================================== *)

Module PathFacts.
Import Name Path.

Section Path.
Context `{PathExterns}.

(** X21. [addRel] is additive: going up [m] times and then [n] times is
    going up [m + n] times, and going up 0 times is the path itself. *)
Theorem addRel_add (base : string) (m n : nat) :
  addRel (addRel base m) n = addRel base (m + n) /\ addRel base 0 = base.
Proof.
  split; [|reflexivity]. unfold addRel.
  induction n as [|n IH]; simpl.
  - rewrite Nat.add_0_r. reflexivity.
  - rewrite Nat.add_succ_r. simpl. rewrite IH. reflexivity.
Qed.



Lemma mfindAux_spec_2_loop_pure (present : string -> bool) (fname : string)
    (rest : list string) (w : RealWorld) :
  file_system_is present ->
  mfindAux_spec_2_loop fname rest w
  = io_ok (List.find present (candidates rest fname)) w.
Proof.
  intros Hfs. induction rest as [|d rest IH]; simpl; [reflexivity|].
  rewrite Hfs. destruct (present ((d ++ pathSep) ++ fname)); simpl;
    [reflexivity|exact IH].
Qed.

Lemma findFile_pure (present : string -> bool) (sp : list string) (fname : string)
    (w w' : RealWorld) :
  file_system_is present ->
  io_ref_get_searchPathRef w = io_ok sp w' ->
  findFile fname w
  = io_ok (List.find present
             (candidates sp (System_FilePath_normalizePathSeparators fname))) w'.
Proof.
  intros Hfs Hsp. unfold findFile. rewrite Hsp. unfold mfindAux_spec_2.
  rewrite drop_0. apply mfindAux_spec_2_loop_pure, Hfs.
Qed.

(** X23. [findFile] returns the first hit.  On a file system that does not
    change during the search, the result is the first candidate that
    exists, in the order of the search path, where the candidate of an
    entry is the entry, the path separator and the normalized file name;
    it is [none] when no candidate exists.  A search that starts at index
    [i] looks at the entries from [i] on only. *)
Theorem findFile_first_hit (present : string -> bool) (sp : list string)
    (fname : string) (w w' : RealWorld) :
  file_system_is present ->
  io_ref_get_searchPathRef w = io_ok sp w' ->
  findFile fname w
    = io_ok (List.find present
               (candidates sp (System_FilePath_normalizePathSeparators fname))) w' /\
  (forall i, mfindAux_spec_2 fname sp i w
             = io_ok (List.find present (candidates (drop i sp) fname)) w).
Proof.
  intros Hfs Hsp. split.
  - apply (findFile_pure present sp fname w w' Hfs Hsp).
  - intros i. unfold mfindAux_spec_2. apply mfindAux_spec_2_loop_pure, Hfs.
Qed.

(** X24. An error of the file system ends the search of [findFile]: when
    the test of a candidate fails, the search returns this error and the
    entries after it are not looked at, whatever they hold. *)
Theorem findFile_error_stops (fname d : string) (rest : list string) (e : string)
    (w w1 w2 : RealWorld) :
  io_ref_get_searchPathRef w = io_ok (d :: rest) w1 ->
  lean_io_file_exists
    ((d ++ pathSep) ++ System_FilePath_normalizePathSeparators fname) w1
    = io_error e w2 ->
  findFile fname w = io_error e w2.
Proof.
  intros Hsp He. unfold findFile. rewrite Hsp. unfold mfindAux_spec_2.
  rewrite drop_0. simpl. rewrite He. reflexivity.
Qed.

Lemma mfindAux_spec_1_loop_find (f : string) (rest : list string) :
  mfindAux_spec_1_loop f rest = List.find (fun p => String_isPrefixOf p f) rest.
Proof.
  induction rest as [|p rest IH]; simpl; [reflexivity|].
  destruct (String_isPrefixOf p f); simpl; [reflexivity|exact IH].
Qed.

(** X25. [findAtSearchPath] returns the first entry of the search path that
    is a prefix of the real path of the normalized file name, in the world
    left by the two reads; when no entry is a prefix it fails with the
    message "file '", the real path, "' not in the search path"; an error
    of [realpath] or of the read of the search path is passed on. *)
Theorem findAtSearchPath_spec (fname : string) (w : RealWorld) :
  findAtSearchPath fname w =
  match lean_io_realpath (System_FilePath_normalizePathSeparators fname) w with
  | io_ok f w1 =>
      match io_ref_get_searchPathRef w1 with
      | io_ok sp w2 =>
          match List.find (fun p => String_isPrefixOf p f) sp with
          | Some p => io_ok p w2
          | None => io_error (("file '" ++ f) ++ "' not in the search path") w2
          end
      | io_error e w2 => io_error e w2
      end
  | io_error e w1 => io_error e w1
  end.
Proof.
  unfold findAtSearchPath.
  destruct (lean_io_realpath _ w) as [f w1|e w1]; [|reflexivity].
  destruct (io_ref_get_searchPathRef w1) as [sp w2|e w2]; [|reflexivity].
  unfold mfindAux_spec_1. rewrite drop_0, mfindAux_spec_1_loop_find.
  destruct (List.find _ sp); reflexivity.
Qed.

(** X26. [findLeanFile] on a file system that does not change during the
    search: the file name looked for is the file name of the module, the
    extension separator and the extension; the result is the real path of
    the first candidate that exists, and when there is none the error
    "module '", the module name with dots, "' not found".  [findOLean] and
    [find_lean_core] are [findLeanFile] for the extensions [olean] and
    [lean]. *)
Theorem findLeanFile_spec (present : string -> bool) (sp : list string)
    (m : name) (ext : string) (w w' : RealWorld) :
  file_system_is present ->
  io_ref_get_searchPathRef w = io_ok sp w' ->
  findLeanFile m ext w =
    match List.find present
            (candidates sp
               (System_FilePath_normalizePathSeparators
                  ((modNameToFileName m
                    ++ (String_splitAux_closed_1 ++ System_FilePath_extSeparator))
                   ++ ext))) with
    | Some f => lean_io_realpath f w'
    | None =>
        io_error
          (("module '" ++ Name_toStringWithSep Name_toString_closed_1 m)
           ++ "' not found") w'
    end /\
  findOLean m w = findLeanFile m "olean" w /\
  find_lean_core m w = findLeanFile m "lean" w.
Proof.
  intros Hfs Hsp. split; [|split; reflexivity].
  unfold findLeanFile. cbv zeta.
  rewrite (findFile_pure present sp _ w w' Hfs Hsp).
  unfold modNameToFileName, findLeanFile_closed_1.
  destruct (List.find present _); reflexivity.
Qed.

End Path.

Section Examples.
#[local] Existing Instance SpecModel.no_sharing.
#[local] Existing Instance ExtraModel.spec_path_externs.


Lemma spec_file_system :
  file_system_is (fun f => existsb (String.eqb f) ExtraModel.spec_files).
Proof. intros f w. reflexivity. Qed.


(** With the search path [bin], [lib], the file [Init/Core.olean] is found
    under [lib], and [Init/Data.olean] is not found. *)
Lemma findFile_first_hit_witness :
  findFile "Init/Core.olean" tt = io_ok (Some "lib/Init/Core.olean") tt /\
  findFile "Init/Data.olean" tt = io_ok None tt.
Proof.
  split.
  - rewrite (proj1 (@findFile_first_hit ExtraModel.spec_path_externs _
                      ["bin"; "lib"] "Init/Core.olean" tt tt
                      spec_file_system eq_refl)).
    reflexivity.
  - rewrite (proj1 (@findFile_first_hit ExtraModel.spec_path_externs _
                      ["bin"; "lib"] "Init/Data.olean" tt tt
                      spec_file_system eq_refl)).
    reflexivity.
Defined.

(** When [bin] cannot be read, the search for [Init/Core.olean] fails at
    the first entry, although the file is there under [lib]. *)
Lemma findFile_error_stops_witness :
  @lean_io_file_exists ExtraModel.guarded_path_externs "lib/Init/Core.olean" tt
    = io_ok true tt /\
  @findFile ExtraModel.guarded_path_externs "Init/Core.olean" tt
    = io_error "permission denied" tt.
Proof.
  split; [reflexivity|].
  exact (@findFile_error_stops ExtraModel.guarded_path_externs
           "Init/Core.olean" "bin" ["lib"] "permission denied" tt tt tt
           eq_refl eq_refl).
Defined.

(** The module [Init.Core] is found as [lib/Init/Core.olean]; the module
    [A.B] is not found. *)
Lemma findLeanFile_spec_witness :
  findOLean ExtraModel.n_Init_Core tt = io_ok "lib/Init/Core.olean" tt /\
  findOLean SpecModel.nAB tt = io_error "module 'A.B' not found" tt.
Proof.
  split.
  - rewrite (proj1 (proj2 (@findLeanFile_spec ExtraModel.spec_path_externs _
                             ["bin"; "lib"] ExtraModel.n_Init_Core "olean" tt tt
                             spec_file_system eq_refl))).
    rewrite (proj1 (@findLeanFile_spec ExtraModel.spec_path_externs _
                      ["bin"; "lib"] ExtraModel.n_Init_Core "olean" tt tt
                      spec_file_system eq_refl)).
    reflexivity.
  - rewrite (proj1 (proj2 (@findLeanFile_spec ExtraModel.spec_path_externs _
                             ["bin"; "lib"] SpecModel.nAB "olean" tt tt
                             spec_file_system eq_refl))).
    rewrite (proj1 (@findLeanFile_spec ExtraModel.spec_path_externs _
                      ["bin"; "lib"] SpecModel.nAB "olean" tt tt
                      spec_file_system eq_refl)).
    reflexivity.
Defined.

End Examples.

End PathFacts.

